(** * Aircraft-crew avatar demo: command table, voice matching and UI flags

    Shallow embedding of the event handlers of the three iterations of the
    application:

    - [CrewAvatar]: the React-Three-Fiber component [AircraftCrewAvatar]
      of [src/App.tsx] (seven commands, substring matching); the older copy
      of the same file has the same handlers;
    - [TalkingHead]: the [App] component built on the animated-head library
      (six commands with their instruction text, fuzzy matching);
    - [Scene]: the per-frame callbacks ([useFrame]) of the avatar meshes.

    React state is an explicit record; a handler is a function from the
    state to the new state and the list of calls it makes to the host
    (speech engines, timers, avatar library), in program order.  Callbacks
    of the host arrive as events of a step function. *)

From Stdlib Require Import String Ascii List Bool Arith Lia QArith Reals Lra.
Import ListNotations.

Close Scope Q_scope.
Close Scope R_scope.
Local Open Scope nat_scope.
Local Open Scope list_scope.
Local Open Scope bool_scope.
Local Open Scope string_scope.

(** ** The string and array methods the handlers call

    Strings are sequences of 8-bit code units.  [toLowerCase], [toUpperCase]
    and [trim] are the methods restricted to ASCII letters and ASCII white
    space, which is what the keywords and an en-US transcript are made of;
    other code units are left as they are. *)
Module JS.

Definition isUpper (c : ascii) : bool :=
  let n := nat_of_ascii c in Nat.leb 65 n && Nat.leb n 90.

Definition isLower (c : ascii) : bool :=
  let n := nat_of_ascii c in Nat.leb 97 n && Nat.leb n 122.

Definition toLowerChar (c : ascii) : ascii :=
  if isUpper c then ascii_of_nat (nat_of_ascii c + 32) else c.

Definition toUpperChar (c : ascii) : ascii :=
  if isLower c then ascii_of_nat (nat_of_ascii c - 32) else c.

Fixpoint mapChars (f : ascii -> ascii) (s : string) : string :=
  match s with
  | EmptyString => EmptyString
  | String c s' => String (f c) (mapChars f s')
  end.

Definition toLowerCase (s : string) : string := mapChars toLowerChar s.
Definition toUpperCase (s : string) : string := mapChars toUpperChar s.

(** [s.startsWith(p)] *)
Fixpoint startsWith (s p : string) {struct p} : bool :=
  match p, s with
  | EmptyString, _ => true
  | String _ _, EmptyString => false
  | String a p', String b s' => Ascii.eqb a b && startsWith s' p'
  end.

(** [s.includes(k)]: [k] occurs in [s] as a contiguous run of code units. *)
Fixpoint includes (s k : string) : bool :=
  startsWith s k ||
  match s with
  | EmptyString => false
  | String _ s' => includes s' k
  end.

(** What [includes] decides: [k] occurs in [s], with something before and
    something after it. *)
Definition occurs (k s : string) : Prop := exists pre post, s = pre ++ k ++ post.

(** White space removed by [trim]: TAB, LF, VT, FF, CR and SPACE. *)
Definition isWhiteSpace (c : ascii) : bool :=
  let n := nat_of_ascii c in (Nat.leb 9 n && Nat.leb n 13) || Nat.eqb n 32.

Fixpoint trimStart (s : string) : string :=
  match s with
  | EmptyString => EmptyString
  | String c s' => if isWhiteSpace c then trimStart s' else s
  end.

(** Drops the trailing white space: a character is kept when something
    that is kept follows it, or when it is not white space itself. *)
Fixpoint trimEnd (s : string) : string :=
  match s with
  | EmptyString => EmptyString
  | String c s' =>
      match trimEnd s' with
      | EmptyString => if isWhiteSpace c then EmptyString else String c EmptyString
      | r => String c r
      end
  end.

Definition trim (s : string) : string := trimEnd (trimStart s).

(** [s.split(' ')]: the pieces between single spaces; two spaces in a row,
    and the empty string, give an empty piece. *)
Fixpoint split (s : string) : list string :=
  match s with
  | EmptyString => [EmptyString]
  | String c s' =>
      if Ascii.eqb c " "%char then EmptyString :: split s'
      else match split s' with
           | w :: ws => String c w :: ws
           | [] => [String c EmptyString]
           end
  end.

(** [l.join(sep)] *)
Fixpoint join (sep : string) (l : list string) : string :=
  match l with
  | [] => EmptyString
  | [x] => x
  | x :: rest => x ++ sep ++ join sep rest
  end.

(** [l.some(p)] and [l.find(p)] are [existsb] and [find] of the list
    library: both scan from the first element. *)
Definition some {A} (p : A -> bool) (l : list A) : bool := existsb p l.

(** Truthiness of an optional string property: [undefined] and the empty
    string are falsy. *)
Definition truthy (o : option string) : option string :=
  match o with
  | Some EmptyString => None
  | _ => o
  end.

End JS.

(** ** Handlers

    A handler changes the component state and calls the host; the calls
    are collected in program order. *)
Section Handlers.
Context {St Call : Type}.

Definition Handler : Type := St -> St * list Call.

Definition skip : Handler := fun s => (s, []).

Definition call (c : Call) : Handler := fun s => (s, [c]).

Definition update (f : St -> St) : Handler := fun s => (f s, []).

Definition andThen (h k : Handler) : Handler :=
  fun s => let (s1, c1) := h s in
           let (s2, c2) := k s1 in (s2, (c1 ++ c2)%list).

(** Reads the state of the moment the handler runs. *)
Definition reading {A} (get : St -> A) (k : A -> Handler) : Handler :=
  fun s => k (get s) s.

(** A handler that leaves a part of the state as it was. *)
Definition preserves {A} (f : St -> A) (h : Handler) : Prop :=
  forall s, f (fst (h s)) = f s.
End Handlers.

Arguments Handler : clear implicits.

Notation "h >> k" := (andThen h k) (at level 61, left associativity).

(** A handler of a part of a store, run on the whole store: it reads the
    part with [get] and writes its new value back with [put]. *)
Section Parts.
Context {W St Call : Type}.

Definition within (get : W -> St) (put : St -> W -> W) (h : Handler St Call)
    : Handler W Call :=
  fun w => let (s, calls) := h (get w) in (put s w, calls).

End Parts.

(** Icons that open the status texts.  [src/App.tsx] stores the same glyphs
    mis-decoded; the older copy of the file has them as written here. *)
Definition icon_microphone : string := "🎤".
Definition icon_target : string := "🎯".
Definition icon_check : string := "✅".
Definition icon_question : string := "❓".
Definition icon_muted : string := "🔇".

(** ** The React-Three-Fiber iteration: [AircraftCrewAvatar] *)
Module CrewAvatar.
Import JS.

Record VoiceCommand : Type := {
  text : string;
  animation : string
}.

Record AvatarState : Type := {
  isListening : bool;
  currentAnimation : string;
  lipSyncActive : bool;
  recognizedText : string
}.

Definition voiceCommands : list VoiceCommand :=
  [ {| text := "turbulence"; animation := "alert" |};
    {| text := "seatbelt"; animation := "instruction" |};
    {| text := "landing"; animation := "announcement" |};
    {| text := "takeoff"; animation := "preparation" |};
    {| text := "emergency"; animation := "urgent" |};
    {| text := "welcome"; animation := "greeting" |};
    {| text := "safety"; animation := "demonstration" |} ].

(** The object literal of [getInstructionForCommand]. *)
Definition instructions : list (string * string) :=
  [ ("turbulence", "Ladies and gentlemen, we are experiencing some turbulence. Please return to your seats and fasten your seatbelts immediately.");
    ("seatbelt", "The seatbelt sign has been turned on. Please fasten your seatbelts and return your seats to the upright position.");
    ("landing", "We are beginning our descent for landing. Please ensure your seat backs and tray tables are in their upright position.");
    ("takeoff", "Ladies and gentlemen, we are preparing for takeoff. Please ensure your seats are in the upright position.");
    ("emergency", "This is an emergency announcement. Please remain calm and follow the instructions of the cabin crew immediately.");
    ("welcome", "Welcome aboard this flight. We hope you have a pleasant journey with us today.");
    ("safety", "Please review the safety information card in your seat pocket and listen carefully to our safety demonstration.") ].

Fixpoint property (o : list (string * string)) (key : string) : option string :=
  match o with
  | [] => None
  | (k, v) :: rest => if String.eqb k key then Some v else property rest key
  end.

(** [instructions[command] || 'Command acknowledged.']; the handlers index
    the object with keywords of the table only. *)
Definition getInstructionForCommand (command : string) : string :=
  match truthy (property instructions command) with
  | Some instruction => instruction
  | None => "Command acknowledged."
  end.

Record Voice : Type := { name : string; lang : string }.

Record SpeechSynthesisUtterance : Type := {
  utterance_text : string;
  voice : option Voice;
  rate : Q;
  pitch : Q;
  volume : Q
}.

(** The two callbacks handed to [setTimeout]. *)
Inductive Timeout : Type :=
  | LipSyncOff
  | BackToIdle.

(** Calls to the host. *)
Inductive Call : Type :=
  | RecognitionStart
  | RecognitionStop
  | SetTimeout (callback : Timeout) (ms : nat)
  | SpeechSynthesisSpeak (utterance : SpeechSynthesisUtterance)
  | ConsoleLog (message argument : string).

(** The recognition object kept in [recognitionRef].  Its callbacks are
    created once, by the mount effect, so the [isSpeaking] that [onend]
    reads is the one of the render that ran [setupVoiceRecognition]. *)
Record Recognition : Type := { closure_isSpeaking : bool }.

Record State : Type := {
  avatarState : AvatarState;
  currentStatus : string;
  isSpeaking : bool;
  recognitionRef : option Recognition
}.

Definition initial : State :=
  {| avatarState := {| isListening := false; currentAnimation := "idle";
                       lipSyncActive := false; recognizedText := EmptyString |};
     currentStatus := "Ready for voice commands";
     isSpeaking := false;
     recognitionRef := None |}.

Definition H : Type := Handler State Call.

Definition setAvatarState (f : AvatarState -> AvatarState) : H :=
  update (fun s => {| avatarState := f (avatarState s);
                      currentStatus := currentStatus s;
                      isSpeaking := isSpeaking s;
                      recognitionRef := recognitionRef s |}).

Definition setCurrentStatus (status : string) : H :=
  update (fun s => {| avatarState := avatarState s;
                      currentStatus := status;
                      isSpeaking := isSpeaking s;
                      recognitionRef := recognitionRef s |}).

Definition setIsSpeaking (b : bool) : H :=
  update (fun s => {| avatarState := avatarState s;
                      currentStatus := currentStatus s;
                      isSpeaking := b;
                      recognitionRef := recognitionRef s |}).

Definition setRecognitionRef (r : Recognition) : H :=
  update (fun s => {| avatarState := avatarState s;
                      currentStatus := currentStatus s;
                      isSpeaking := isSpeaking s;
                      recognitionRef := Some r |}).

(** The spread updates [prev => ({ ...prev, field: value })]. *)
Definition withIsListening (b : bool) (prev : AvatarState) : AvatarState :=
  {| isListening := b; currentAnimation := currentAnimation prev;
     lipSyncActive := lipSyncActive prev; recognizedText := recognizedText prev |}.

Definition withCurrentAnimation (a : string) (prev : AvatarState) : AvatarState :=
  {| isListening := isListening prev; currentAnimation := a;
     lipSyncActive := lipSyncActive prev; recognizedText := recognizedText prev |}.

Definition withLipSyncActive (b : bool) (prev : AvatarState) : AvatarState :=
  {| isListening := isListening prev; currentAnimation := currentAnimation prev;
     lipSyncActive := b; recognizedText := recognizedText prev |}.

Definition withRecognizedText (t : string) (prev : AvatarState) : AvatarState :=
  {| isListening := isListening prev; currentAnimation := currentAnimation prev;
     lipSyncActive := lipSyncActive prev; recognizedText := t |}.

Definition performLipSync (t : string) : H :=
  setAvatarState (withLipSyncActive true) >>
  call (SetTimeout LipSyncOff (String.length t * 150)).

Definition performAnimation (animationType : string) : H :=
  setAvatarState (withCurrentAnimation animationType) >>
  call (SetTimeout BackToIdle 2500).

Section Host.
(** What [speechSynthesis.getVoices()] returns in this browser. *)
Variable getVoices : list Voice.

Definition professional (v : Voice) : bool :=
  includes (name v) "David" || includes (name v) "Mark" ||
  (startsWith (lang v) "en" && includes (toLowerCase (name v)) "male").

Definition speak (t : string) : H :=
  setIsSpeaking true >>
  call (SpeechSynthesisSpeak
          {| utterance_text := t;
             voice := find professional getVoices;
             rate := (9 # 10)%Q; pitch := 1%Q; volume := (8 # 10)%Q |}).

(** [utterance.onend] *)
Definition utterance_onend : H :=
  setIsSpeaking false >>
  setCurrentStatus (icon_check ++ " Announcement completed").

Definition onstart : H :=
  setAvatarState (withIsListening true) >>
  setCurrentStatus (icon_microphone ++ " Listening for command...").

(** [voiceCommands.find(cmd => text.includes(cmd.text))] *)
Definition matchedCommand (commands : list VoiceCommand) (t : string) : option VoiceCommand :=
  find (fun cmd => includes t (text cmd)) commands.

(** [transcript] is [event.results[last][0].transcript]. *)
Definition onresult (commands : list VoiceCommand) (transcript : string) : H :=
  let t := toLowerCase transcript in
  setAvatarState (withRecognizedText t) >>
  match matchedCommand commands t with
  | Some matchedCommand =>
      setCurrentStatus (icon_target ++ " Executing: " ++ toUpperCase (text matchedCommand)) >>
      performLipSync (text matchedCommand) >>
      performAnimation (animation matchedCommand) >>
      speak (getInstructionForCommand (text matchedCommand))
  | None => skip
  end.

Definition onerror (error : string) : H :=
  call (ConsoleLog "Speech recognition error:" error) >>
  setAvatarState (withIsListening false) >>
  setCurrentStatus (icon_microphone ++ " Voice recognition error. Please try again.").

Definition onend (recognition : Recognition) : H :=
  setAvatarState (withIsListening false) >>
  (if negb (closure_isSpeaking recognition)
   then setCurrentStatus "Ready for voice commands"
   else skip).

(** [supported] is the test
    ['webkitSpeechRecognition' in window || 'SpeechRecognition' in window]. *)
Definition setupVoiceRecognition (supported : bool) : H :=
  if supported
  then reading isSpeaking (fun b => setRecognitionRef {| closure_isSpeaking := b |})
  else skip.

(** The cleanup of the mount effect. *)
Definition cleanup : H :=
  reading recognitionRef (fun r =>
    match r with Some _ => call RecognitionStop | None => skip end).

Definition startListening : H :=
  reading (fun s => (recognitionRef s, isListening (avatarState s))) (fun '(r, listening) =>
    match r with
    | Some _ => if negb listening then call RecognitionStart else skip
    | None => skip
    end).

Definition stopListening : H :=
  reading (fun s => (recognitionRef s, isListening (avatarState s))) (fun '(r, listening) =>
    match r with
    | Some _ => if listening then call RecognitionStop else skip
    | None => skip
    end).

Definition testCommand (commands : list VoiceCommand) (commandText : string) : H :=
  match find (fun cmd => String.eqb (text cmd) commandText) commands with
  | Some command =>
      setCurrentStatus (icon_target ++ " Testing: " ++ toUpperCase (text command)) >>
      performLipSync (text command) >>
      performAnimation (animation command) >>
      speak (getInstructionForCommand (text command))
  | None => skip
  end.

(** What reaches the component: the mount effect and its cleanup, the
    buttons, the callbacks of the recognition engine, the events of an
    utterance, and the two timers. *)
Inductive Event : Type :=
  | Mount (supported : bool)
  | Unmount
  | ClickStart
  | ClickStop
  | ClickTest (commandText : string)
  | RecognitionOnStart
  | RecognitionOnResult (transcript : string)
  | RecognitionOnError (error : string)
  | RecognitionOnEnd
  | UtteranceEnd
  | UtteranceError (error : string)
  | TimeoutFired (callback : Timeout).

(** The [disabled] attribute of the buttons. *)
Definition startDisabled (s : State) : bool :=
  isListening (avatarState s) || isSpeaking s.
Definition stopDisabled (s : State) : bool :=
  negb (isListening (avatarState s)).
Definition testDisabled (s : State) : bool :=
  isSpeaking s || isListening (avatarState s).

Definition unlessDisabled (disabled : State -> bool) (h : H) : H :=
  reading disabled (fun d => if d then skip else h).

(** The engine callbacks exist once [setupVoiceRecognition] has created
    the recognition object.  The utterance has an [onend] callback and no
    [onerror] callback. *)
Definition handle (commands : list VoiceCommand) (e : Event) : H :=
  match e with
  | Mount supported => setupVoiceRecognition supported
  | Unmount => cleanup
  | ClickStart => unlessDisabled startDisabled startListening
  | ClickStop => unlessDisabled stopDisabled stopListening
  | ClickTest commandText => unlessDisabled testDisabled (testCommand commands commandText)
  | RecognitionOnStart =>
      reading recognitionRef (fun r => match r with Some _ => onstart | None => skip end)
  | RecognitionOnResult transcript =>
      reading recognitionRef (fun r =>
        match r with Some _ => onresult commands transcript | None => skip end)
  | RecognitionOnError error =>
      reading recognitionRef (fun r => match r with Some _ => onerror error | None => skip end)
  | RecognitionOnEnd =>
      reading recognitionRef (fun r => match r with Some rec => onend rec | None => skip end)
  | UtteranceEnd => utterance_onend
  | UtteranceError _ => skip
  | TimeoutFired LipSyncOff => setAvatarState (withLipSyncActive false)
  | TimeoutFired BackToIdle => setAvatarState (withCurrentAnimation "idle")
  end.

(** The page: the command array, which every handler reads, and the
    component state. *)
Record World : Type := {
  commands : list VoiceCommand;
  component : State
}.

Definition start : World := {| commands := voiceCommands; component := initial |}.

Definition step (w : World) (e : Event) : World * list Call :=
  let (s, calls) := handle (commands w) e (component w) in
  ({| commands := commands w; component := s |}, calls).

Fixpoint run (w : World) (events : list Event) : World * list Call :=
  match events with
  | [] => (w, [])
  | e :: rest =>
      let (w1, c1) := step w e in
      let (w2, c2) := run w1 rest in (w2, (c1 ++ c2)%list)
  end.
End Host.

Definition listening (s : State) : bool := isListening (avatarState s).

(** The engine's error and end events. *)
Definition lowers (e : Event) : bool :=
  match e with
  | RecognitionOnError _ | RecognitionOnEnd => true
  | _ => false
  end.

(** The flag is up only with a recognition object. *)
Definition engine_when_listening (s : State) : Prop :=
  listening s = true -> recognitionRef s <> None.

(** The texts handed to the speech synthesiser by a list of calls. *)
Fixpoint spoken (calls : list Call) : list string :=
  match calls with
  | [] => []
  | SpeechSynthesisSpeak u :: rest => utterance_text u :: spoken rest
  | _ :: rest => spoken rest
  end.

End CrewAvatar.

(** ** The animated-head iteration: [App] *)
Module TalkingHead.
Import JS.

Record VoiceCommand : Type := {
  command : string;
  instruction : string;
  gesture : option string
}.

Definition voiceCommands : list VoiceCommand :=
  [ {| command := "turbulence";
       instruction := "Ladies and gentlemen, we are experiencing some turbulence. Please return to your seats and fasten your seatbelts immediately for your safety.";
       gesture := Some "wave" |};
    {| command := "seatbelt";
       instruction := "The seatbelt sign has been turned on. Please fasten your seatbelts and return your seats to the upright position.";
       gesture := Some "point" |};
    {| command := "landing";
       instruction := "We are beginning our descent for landing. Please ensure your seat backs and tray tables are in their upright position.";
       gesture := Some "explain" |};
    {| command := "safety";
       instruction := "Please review the safety information card in your seat pocket and listen carefully to our safety demonstration.";
       gesture := Some "present" |};
    {| command := "welcome";
       instruction := "Welcome aboard this flight. We hope you have a pleasant journey with us today.";
       gesture := Some "greet" |};
    {| command := "emergency";
       instruction := "This is an emergency announcement. Please remain calm and follow the instructions of the cabin crew immediately.";
       gesture := Some "alert" |} ].

(** The object in [avatarRef.current]: what [typeof ... === 'function']
    finds on it. *)
Record Head : Type := {
  speakText_is_function : bool;
  stopSpeaking_is_function : bool
}.

Record SpeechSynthesisUtterance : Type := {
  utterance_text : string;
  rate : Q;
  pitch : Q;
  volume : Q
}.

Inductive Call : Type :=
  | RecognitionStart
  | SpeechSynthesisSpeak (utterance : SpeechSynthesisUtterance)
  | SpeechSynthesisCancel
  | HeadSpeakText (t ttsLang ttsVoice lipsyncLang : string)
  | HeadStopSpeaking
  | HeadPlayGesture (name : string) (ms : nat)
  | HeadSetMood (mood : string)
  | HeadSetView (view : string)
  | HeadPlayPose (url : string) (seconds : nat)
  | ConsoleLog (message argument : string)
  | ConsoleWarn (message : string)
  | ConsoleError (message : string).
(* [ConsoleError] keeps the message; the error value logged after it is
   left out. *)

(** How the awaited calls into the avatar library end. *)
Record Outcome : Type := {
  gestureThrows : bool;
  speakTextThrows : bool
}.

(** The recognition object kept in the [speechRecognition] state.  Its
    callbacks are created once, by an effect with an empty dependency list,
    so the [executeCommand] that [onresult] calls reads the [isAvatarReady]
    of the render that ran the effect. *)
Record Recognition : Type := { closure_isAvatarReady : bool }.

(** [currentMessage] and [loadingProgress] are written by the loader's
    progress callback only and are left out, with that callback. *)
Record State : Type := {
  isListening : bool;
  currentStatus : string;
  speechRecognition : option Recognition;
  isAvatarReady : bool;
  isSpeaking : bool;
  avatarRef : option Head
}.

Definition initial : State :=
  {| isListening := false;
     currentStatus := "Loading professional avatar system...";
     speechRecognition := None;
     isAvatarReady := false;
     isSpeaking := false;
     avatarRef := None |}.

Definition H : Type := Handler State Call.

Definition setIsListening (b : bool) : H :=
  update (fun s => {| isListening := b; currentStatus := currentStatus s;
                      speechRecognition := speechRecognition s;
                      isAvatarReady := isAvatarReady s; isSpeaking := isSpeaking s;
                      avatarRef := avatarRef s |}).

Definition setCurrentStatus (status : string) : H :=
  update (fun s => {| isListening := isListening s; currentStatus := status;
                      speechRecognition := speechRecognition s;
                      isAvatarReady := isAvatarReady s; isSpeaking := isSpeaking s;
                      avatarRef := avatarRef s |}).

Definition setSpeechRecognition (r : Recognition) : H :=
  update (fun s => {| isListening := isListening s; currentStatus := currentStatus s;
                      speechRecognition := Some r;
                      isAvatarReady := isAvatarReady s; isSpeaking := isSpeaking s;
                      avatarRef := avatarRef s |}).

Definition setIsAvatarReady (b : bool) : H :=
  update (fun s => {| isListening := isListening s; currentStatus := currentStatus s;
                      speechRecognition := speechRecognition s;
                      isAvatarReady := b; isSpeaking := isSpeaking s;
                      avatarRef := avatarRef s |}).

Definition setIsSpeaking (b : bool) : H :=
  update (fun s => {| isListening := isListening s; currentStatus := currentStatus s;
                      speechRecognition := speechRecognition s;
                      isAvatarReady := isAvatarReady s; isSpeaking := b;
                      avatarRef := avatarRef s |}).

Definition setAvatarRef (head : Head) : H :=
  update (fun s => {| isListening := isListening s; currentStatus := currentStatus s;
                      speechRecognition := speechRecognition s;
                      isAvatarReady := isAvatarReady s; isSpeaking := isSpeaking s;
                      avatarRef := Some head |}).

(** The library calls of the [switch]; a gesture outside it makes none. *)
Definition gestureCall (g : string) : option Call :=
  if String.eqb g "wave" then Some (HeadPlayGesture "wave" 2000)
  else if String.eqb g "point" then Some (HeadPlayGesture "point" 1500)
  else if String.eqb g "explain" then Some (HeadPlayGesture "explain" 3000)
  else if String.eqb g "present" then Some (HeadPlayGesture "present" 2500)
  else if String.eqb g "greet" then Some (HeadPlayGesture "greet" 2000)
  else if String.eqb g "alert" then Some (HeadSetMood "alert")
  else None.

Definition performGesture (o : Outcome) (g : string) : H :=
  reading avatarRef (fun r =>
    match r with
    | None => skip
    | Some _ =>
        match gestureCall g with
        | Some c =>
            call c >>
            (if gestureThrows o then call (ConsoleLog "Gesture not available:" g) else skip)
        | None => skip
        end
    end).

Definition speak (t : string) : H :=
  setIsSpeaking true >>
  call (SpeechSynthesisSpeak
          {| utterance_text := t;
             rate := (9 # 10)%Q; pitch := 1%Q; volume := (8 # 10)%Q |}).

(** [utterance.onend] *)
Definition utterance_onend : H :=
  setIsSpeaking false >>
  setCurrentStatus (icon_check ++ " Announcement completed").

(** The awaited calls run to their end, [o] telling how each one ends;
    [ready] is the [isAvatarReady] of the closure that is called. *)
Definition executeCommand (ready : bool) (o : Outcome) (cmd : VoiceCommand) : H :=
  if negb ready then skip
  else
    setCurrentStatus (icon_target ++ " Executing: " ++ toUpperCase (command cmd)) >>
    reading avatarRef (fun r =>
      match r with
      | Some head =>
          if speakText_is_function head then
            setIsSpeaking true >>
            (match truthy (gesture cmd) with
             | Some g => performGesture o g
             | None => skip
             end) >>
            call (HeadSpeakText (instruction cmd) "en-US" "en-US-Standard-J" "en") >>
            (if speakTextThrows o then
               call (ConsoleError "Error executing command:") >>
               speak (instruction cmd)
             else
               setIsSpeaking false >>
               setCurrentStatus (icon_check ++ " " ++ toUpperCase (command cmd)
                                 ++ " announcement completed"))
          else speak (instruction cmd)
      | None => speak (instruction cmd)
      end).

(** The predicate of the fuzzy [find]. *)
Definition fuzzy (transcript : string) (cmd : VoiceCommand) : bool :=
  let words := split transcript in
  some (fun word =>
          includes word (command cmd) ||
          includes (command cmd) word ||
          (Nat.ltb 3 (String.length word) && includes (command cmd) word))
       words.

Definition doubleQuote : string := String (ascii_of_nat 34) EmptyString.

Definition notRecognized (commands : list VoiceCommand) (transcript : string) : string :=
  icon_question ++ " Command " ++ doubleQuote ++ transcript ++ doubleQuote
  ++ " not recognized. Try: " ++ join ", " (map command commands).

Definition matchedCommand (commands : list VoiceCommand) (transcript : string)
    : option VoiceCommand :=
  find (fuzzy transcript) commands.

(** [raw] is [event.results[0][0].transcript]. *)
Definition onresult (commands : list VoiceCommand) (recognition : Recognition)
    (raw : string) (o : Outcome) : H :=
  let transcript := trim (toLowerCase raw) in
  call (ConsoleLog "Voice recognized:" transcript) >>
  match matchedCommand commands transcript with
  | Some matchedCommand => executeCommand (closure_isAvatarReady recognition) o matchedCommand
  | None => setCurrentStatus (notRecognized commands transcript)
  end.

Definition onerror (error : string) : H :=
  call (ConsoleError "Speech recognition error:") >>
  setIsListening false >>
  setCurrentStatus (icon_microphone ++ " Voice recognition error. Please try again.").

Definition onend : H := setIsListening false.

(** The recognition effect; [supported] as in the other iteration. *)
Definition setupRecognition (supported : bool) : H :=
  if supported
  then reading isAvatarReady (fun b => setSpeechRecognition {| closure_isAvatarReady := b |})
  else call (ConsoleWarn "Speech recognition not supported").

Definition startListening : H :=
  reading (fun s => (speechRecognition s, isListening s)) (fun '(r, listening) =>
    match r with
    | Some _ =>
        if negb listening then
          setIsListening true >>
          setCurrentStatus (icon_microphone ++ " Listening for command...") >>
          call RecognitionStart
        else skip
    | None => skip
    end).

Definition stopSpeaking : H :=
  call SpeechSynthesisCancel >>
  reading avatarRef (fun r =>
    match r with
    | Some head => if stopSpeaking_is_function head then call HeadStopSpeaking else skip
    | None => skip
    end) >>
  setIsSpeaking false >>
  setCurrentStatus (icon_muted ++ " Speech stopped").

Definition testCommand (commands : list VoiceCommand) (commandText : string) (o : Outcome) : H :=
  match find (fun cmd => String.eqb (command cmd) commandText) commands with
  | Some cmd => reading isAvatarReady (fun ready => executeCommand ready o cmd)
  | None => skip
  end.

(** The end of [initializeTalkingHead] when the avatar has loaded, with
    [setupCrewGestures]. *)
Definition avatarLoaded (head : Head) : H :=
  setAvatarRef head >>
  setIsAvatarReady true >>
  setCurrentStatus (icon_check ++ " Professional crew avatar ready!") >>
  call (HeadSetView "upper") >>
  call (HeadPlayPose "https://cdn.jsdelivr.net/gh/met4citizen/TalkingHead@1.5/poses/professional.fbx" 3).

(** The [catch] of [initializeTalkingHead] with [createFallbackAvatar];
    [mounted] and [context] tell whether the container and the 2D context
    of the canvas exist. *)
Definition avatarFailed (mounted context : bool) : H :=
  call (ConsoleError "Error initializing TalkingHead:") >>
  setCurrentStatus "⚠️ Loading fallback avatar..." >>
  (if mounted then
     setCurrentStatus "🎨 Creating backup crew avatar..." >>
     (if context then
        setIsAvatarReady true >>
        setCurrentStatus (icon_check ++ " Backup crew avatar ready!")
      else skip)
   else skip).

(** The engine has no [onstart] callback in this iteration, and the
    utterance no [onerror] callback. *)
Inductive Event : Type :=
  | Mount (supported : bool)
  | AvatarLoaded (head : Head)
  | AvatarFailed (mounted context : bool)
  | ClickVoiceCommand
  | ClickStop
  | ClickTest (commandText : string) (o : Outcome)
  | RecognitionOnStart
  | RecognitionOnResult (raw : string) (o : Outcome)
  | RecognitionOnError (error : string)
  | RecognitionOnEnd
  | UtteranceEnd
  | UtteranceError (error : string).

(** The voice button is rendered while [isListening] is false, the stop
    button while [isSpeaking] is true. *)
Definition voiceDisabled (s : State) : bool := isListening s || negb (isAvatarReady s).
Definition stopHidden (s : State) : bool := negb (isSpeaking s).
Definition testDisabled (s : State) : bool := isSpeaking s || negb (isAvatarReady s).

Definition unlessDisabled (disabled : State -> bool) (h : H) : H :=
  reading disabled (fun d => if d then skip else h).

Definition handle (commands : list VoiceCommand) (e : Event) : H :=
  match e with
  | Mount supported => setupRecognition supported
  | AvatarLoaded head => avatarLoaded head
  | AvatarFailed mounted context => avatarFailed mounted context
  | ClickVoiceCommand => unlessDisabled voiceDisabled startListening
  | ClickStop => unlessDisabled stopHidden stopSpeaking
  | ClickTest commandText o => unlessDisabled testDisabled (testCommand commands commandText o)
  | RecognitionOnStart => skip
  | RecognitionOnResult raw o =>
      reading speechRecognition (fun r =>
        match r with Some rec => onresult commands rec raw o | None => skip end)
  | RecognitionOnError error =>
      reading speechRecognition (fun r =>
        match r with Some _ => onerror error | None => skip end)
  | RecognitionOnEnd =>
      reading speechRecognition (fun r =>
        match r with Some _ => onend | None => skip end)
  | UtteranceEnd => utterance_onend
  | UtteranceError _ => skip
  end.

Record World : Type := {
  commands : list VoiceCommand;
  component : State
}.

Definition start : World := {| commands := voiceCommands; component := initial |}.

Definition step (w : World) (e : Event) : World * list Call :=
  let (s, calls) := handle (commands w) e (component w) in
  ({| commands := commands w; component := s |}, calls).

Fixpoint run (w : World) (events : list Event) : World * list Call :=
  match events with
  | [] => (w, [])
  | e :: rest =>
      let (w1, c1) := step w e in
      let (w2, c2) := run w1 rest in (w2, (c1 ++ c2)%list)
  end.

(** The engine's error and end events. *)
Definition lowers (e : Event) : bool :=
  match e with
  | RecognitionOnError _ | RecognitionOnEnd => true
  | _ => false
  end.

Definition isClickVoiceCommand (e : Event) : bool :=
  match e with ClickVoiceCommand => true | _ => false end.

(** The flag is up only with a recognition object. *)
Definition engine_when_listening (s : State) : Prop :=
  isListening s = true -> speechRecognition s <> None.

Definition isMount (e : Event) : bool :=
  match e with Mount _ => true | _ => false end.

(** The closure of the recognition effect has seen the avatar not ready. *)
Definition closure_not_ready (s : State) : Prop :=
  forall rec, speechRecognition s = Some rec -> closure_isAvatarReady rec = false.

End TalkingHead.

(** ** The pages with their command arrays

    [voiceCommands] is a JavaScript array: an object that every function
    of the file can reach and write ([push], [splice], an assignment to an
    index or to a field of an entry).  Here the array is a cell of the page
    beside the component state, and a handler is a function on the whole
    page.  The handlers that name the array or are handed an entry of it
    are written out over the page, with the array methods they call; the
    handlers that name neither run within the component state.

    In [src/App.tsx] the array literal stands inside the component, so
    every render evaluates it again: the recognition callbacks hold the
    array of the render that created them, the test buttons the array of
    the last render.  The page keeps one array for both, so that a write
    by any handler would show. *)
Module CrewAvatarPage.
Import JS CrewAvatar.

Definition P : Type := Handler World Call.

Definition setComponent (s : State) (w : World) : World :=
  {| commands := commands w; component := s |}.

Definition setCommands (array : list VoiceCommand) (w : World) : World :=
  {| commands := array; component := component w |}.

Definition inComponent (h : H) : P := within component setComponent h.

(** [voiceCommands.find(callback)]: the callbacks of the source read the
    entry they are given and return a boolean. *)
Definition voiceCommands_find (callback : VoiceCommand -> bool)
    (k : option VoiceCommand -> P) : P :=
  reading commands (fun array => k (find callback array)).

(** The tuple that a lookup of an entry sees: the keyword, the instruction
    text that [getInstructionForCommand] gives for it, and the animation
    tag.  The object of the instruction texts is a literal local to
    [getInstructionForCommand], built anew by every call. *)
Definition tuple (cmd : VoiceCommand) : string * string * string :=
  (text cmd, getInstructionForCommand (text cmd), animation cmd).

Section Host.
Variable getVoices : list Voice.

Definition onresult (transcript : string) : P :=
  let t := toLowerCase transcript in
  inComponent (setAvatarState (withRecognizedText t)) >>
  voiceCommands_find (fun cmd => includes t (text cmd)) (fun found =>
    match found with
    | Some matchedCommand =>
        inComponent
          (setCurrentStatus (icon_target ++ " Executing: " ++ toUpperCase (text matchedCommand)) >>
           performLipSync (text matchedCommand) >>
           performAnimation (animation matchedCommand) >>
           speak getVoices (getInstructionForCommand (text matchedCommand)))
    | None => skip
    end).

Definition testCommand (commandText : string) : P :=
  voiceCommands_find (fun cmd => String.eqb (text cmd) commandText) (fun found =>
    match found with
    | Some command =>
        inComponent
          (setCurrentStatus (icon_target ++ " Testing: " ++ toUpperCase (text command)) >>
           performLipSync (text command) >>
           performAnimation (animation command) >>
           speak getVoices (getInstructionForCommand (text command)))
    | None => skip
    end).

(** The events of the page, each with the handler that the source
    registers for it. *)
Definition handle (e : Event) : P :=
  match e with
  | Mount supported => inComponent (setupVoiceRecognition supported)
  | Unmount => inComponent cleanup
  | ClickStart => inComponent (unlessDisabled startDisabled startListening)
  | ClickStop => inComponent (unlessDisabled stopDisabled stopListening)
  | ClickTest commandText =>
      reading (fun w => testDisabled (component w)) (fun disabled =>
        if disabled then skip else testCommand commandText)
  | RecognitionOnStart =>
      inComponent
        (reading recognitionRef (fun r => match r with Some _ => onstart | None => skip end))
  | RecognitionOnResult transcript =>
      reading (fun w => recognitionRef (component w)) (fun r =>
        match r with Some _ => onresult transcript | None => skip end)
  | RecognitionOnError error =>
      inComponent
        (reading recognitionRef (fun r => match r with Some _ => onerror error | None => skip end))
  | RecognitionOnEnd =>
      inComponent
        (reading recognitionRef (fun r => match r with Some rec => onend rec | None => skip end))
  | UtteranceEnd => inComponent utterance_onend
  | UtteranceError _ => skip
  | TimeoutFired LipSyncOff => inComponent (setAvatarState (withLipSyncActive false))
  | TimeoutFired BackToIdle => inComponent (setAvatarState (withCurrentAnimation "idle"))
  end.

Fixpoint run (w : World) (events : list Event) : World * list Call :=
  match events with
  | [] => (w, [])
  | e :: rest =>
      let (w1, c1) := handle e w in
      let (w2, c2) := run w1 rest in (w2, (c1 ++ c2)%list)
  end.

End Host.
End CrewAvatarPage.

Module TalkingHeadPage.
Import JS TalkingHead.

Definition P : Type := Handler World Call.

Definition setComponent (s : State) (w : World) : World :=
  {| commands := commands w; component := s |}.

Definition setCommands (array : list VoiceCommand) (w : World) : World :=
  {| commands := array; component := component w |}.

Definition inComponent (h : H) : P := within component setComponent h.

(** [voiceCommands.find(callback)] *)
Definition voiceCommands_find (callback : VoiceCommand -> bool)
    (k : option VoiceCommand -> P) : P :=
  reading commands (fun array => k (find callback array)).

(** [voiceCommands.map(callback)] *)
Definition voiceCommands_map {A} (callback : VoiceCommand -> A) (k : list A -> P) : P :=
  reading commands (fun array => k (map callback array)).

(** [executeCommand] reads the fields [command], [gesture] and
    [instruction] of the entry it is handed. *)
Definition executeCommand (ready : bool) (o : Outcome) (cmd : VoiceCommand) : P :=
  inComponent (TalkingHead.executeCommand ready o cmd).

Definition onresult (recognition : Recognition) (raw : string) (o : Outcome) : P :=
  let transcript := trim (toLowerCase raw) in
  inComponent (call (ConsoleLog "Voice recognized:" transcript)) >>
  voiceCommands_find (fuzzy transcript) (fun found =>
    match found with
    | Some matchedCommand => executeCommand (closure_isAvatarReady recognition) o matchedCommand
    | None =>
        voiceCommands_map command (fun keywords =>
          inComponent
            (setCurrentStatus
               (icon_question ++ " Command " ++ doubleQuote ++ transcript ++ doubleQuote
                ++ " not recognized. Try: " ++ join ", " keywords)))
    end).

Definition testCommand (commandText : string) (o : Outcome) : P :=
  voiceCommands_find (fun cmd => String.eqb (command cmd) commandText) (fun found =>
    match found with
    | Some cmd =>
        reading (fun w => isAvatarReady (component w)) (fun ready => executeCommand ready o cmd)
    | None => skip
    end).

Definition handle (e : Event) : P :=
  match e with
  | Mount supported => inComponent (setupRecognition supported)
  | AvatarLoaded head => inComponent (avatarLoaded head)
  | AvatarFailed mounted context => inComponent (avatarFailed mounted context)
  | ClickVoiceCommand => inComponent (unlessDisabled voiceDisabled startListening)
  | ClickStop => inComponent (unlessDisabled stopHidden stopSpeaking)
  | ClickTest commandText o =>
      reading (fun w => testDisabled (component w)) (fun disabled =>
        if disabled then skip else testCommand commandText o)
  | RecognitionOnStart => skip
  | RecognitionOnResult raw o =>
      reading (fun w => speechRecognition (component w)) (fun r =>
        match r with Some rec => onresult rec raw o | None => skip end)
  | RecognitionOnError error =>
      inComponent
        (reading speechRecognition (fun r =>
           match r with Some _ => onerror error | None => skip end))
  | RecognitionOnEnd =>
      inComponent
        (reading speechRecognition (fun r =>
           match r with Some _ => onend | None => skip end))
  | UtteranceEnd => inComponent utterance_onend
  | UtteranceError _ => skip
  end.

Fixpoint run (w : World) (events : list Event) : World * list Call :=
  match events with
  | [] => (w, [])
  | e :: rest =>
      let (w1, c1) := handle e w in
      let (w2, c2) := run w1 rest in (w2, (c1 ++ c2)%list)
  end.

End TalkingHeadPage.

(** ** The per-frame callbacks of the avatar meshes

    Numbers are real numbers.  A group is the part of the transform of
    [avatarRef.current] that the callbacks write; the head, eyes, mouth and
    eyebrows of the detailed fallback avatar are other objects, with
    callbacks of their own, and are not modelled. *)
Module Scene.
Local Open Scope R_scope.

Record Group : Type := {
  scale_y : R;
  rotation_x : R;
  rotation_y : R;
  rotation_z : R;
  position_y : R
}.

Definition set_scale_y (v : R) (g : Group) : Group :=
  {| scale_y := v; rotation_x := rotation_x g; rotation_y := rotation_y g;
     rotation_z := rotation_z g; position_y := position_y g |}.

Definition set_rotation_x (v : R) (g : Group) : Group :=
  {| scale_y := scale_y g; rotation_x := v; rotation_y := rotation_y g;
     rotation_z := rotation_z g; position_y := position_y g |}.

Definition set_rotation_y (v : R) (g : Group) : Group :=
  {| scale_y := scale_y g; rotation_x := rotation_x g; rotation_y := v;
     rotation_z := rotation_z g; position_y := position_y g |}.

Definition set_rotation_z (v : R) (g : Group) : Group :=
  {| scale_y := scale_y g; rotation_x := rotation_x g; rotation_y := rotation_y g;
     rotation_z := v; position_y := position_y g |}.

Definition set_position_y (v : R) (g : Group) : Group :=
  {| scale_y := scale_y g; rotation_x := rotation_x g; rotation_y := rotation_y g;
     rotation_z := rotation_z g; position_y := v |}.

(** The [switch (animation)] on the group, the same in both fallback
    avatars. *)
Definition animationEffects (time : R) (animation : string) (g : Group) : Group :=
  if String.eqb animation "alert" then set_rotation_z (sin (time * 4) * 0.1) g
  else if String.eqb animation "instruction" then set_rotation_y (sin (time * 2) * 0.2) g
  else if String.eqb animation "announcement" then set_position_y (sin (time * 3) * 0.3) g
  else g.

(** [FallbackAvatar] of [src/App.tsx]; [time] is [state.clock.elapsedTime]
    and [avatarRef] the group when it is mounted.  Lip sync moves the mouth
    here, not the group. *)
Definition FallbackAvatar_useFrame (time : R) (animation : string)
    (lipSyncActive : bool) (avatarRef : option Group) : option Group :=
  match avatarRef with
  | None => None
  | Some g =>
      let breathe := sin (time * 2) * 0.02 + 1 in
      Some (animationEffects time animation (set_scale_y breathe g))
  end.

(** [FallbackAvatar] of the older copy. *)
Definition FallbackAvatar_useFrame_older (time : R) (animation : string)
    (lipSyncActive : bool) (avatarRef : option Group) : option Group :=
  match avatarRef with
  | None => None
  | Some g =>
      let breathe := sin (time * 2) * 0.02 + 1 in
      let g1 := set_scale_y breathe g in
      let g2 := if lipSyncActive
                then let intensity := sin (time * 8) * 0.3 in
                     set_rotation_x (intensity * 0.1) g1
                else g1 in
      Some (animationEffects time animation g2)
  end.

(** [ReadyPlayerMeAvatar] of [src/App.tsx]. *)
Definition ReadyPlayerMeAvatar_useFrame (time : R) (animation : string)
    (lipSyncActive : bool) (avatarRef : option Group) : option Group :=
  let animationScale := if String.eqb animation "alert" then 1.05 else 1.0 in
  match avatarRef with
  | None => None
  | Some g =>
      let breathe := sin (time * 2) * 0.02 + 1 in
      let g1 := set_scale_y (breathe * animationScale) g in
      Some (if lipSyncActive
            then let intensity := sin (time * 8) * 0.3 in
                 set_rotation_x (intensity * 0.1) g1
            else g1)
  end.

End Scene.

(** ** The sound of a command, as the specification words it

    "Optional static audio files addressed by path per command, with
    text-to-speech as fallback when absent": a command sounds as its audio
    file when a path is configured for it, and as the synthesised
    instruction text otherwise. *)
Module AudioSpec.

Inductive Sound : Type :=
  | AudioFile (path : string)
  | TextToSpeech (t : string).


(** The calls of the animated-head iteration that make a sound: the
    library's [speakText] and the browser's [speechSynthesis.speak]. *)
Definition sound_of (c : TalkingHead.Call) : option Sound :=
  match c with
  | TalkingHead.HeadSpeakText t _ _ _ => Some (TextToSpeech t)
  | TalkingHead.SpeechSynthesisSpeak u => Some (TextToSpeech (TalkingHead.utterance_text u))
  | _ => None
  end.

Fixpoint sounds (calls : list TalkingHead.Call) : list Sound :=
  match calls with
  | [] => []
  | c :: rest =>
      match sound_of c with
      | Some snd => snd :: sounds rest
      | None => sounds rest
      end
  end.




End AudioSpec.

(** ** The face of the detailed fallback avatar

    The objects under [avatarRef] that the frame callback of
    [FallbackAvatar] in [src/App.tsx] writes besides the group itself: the
    head, the children of the eyes group, the mouth group, the eyebrows
    and the mesh named 'teeth'.  Each is there when its ref is set.  The
    properties given in the JSX are the values the objects are created
    with; the callback is the one writer afterwards. *)
Module Face.
Local Open Scope R_scope.

Record Vector3 : Type := { x : R; y : R; z : R }.

(** A child of the eyes group: [userData.type], [userData.side],
    [position.x] and [visible]. *)
Record Child : Type := {
  userData_type : option string;
  userData_side : option string;
  position_x : R;
  visible : bool
}.

Record Eyes : Type := {
  children : list Child;
  eyes_scale : Vector3
}.

Record Head : Type := {
  head_rotation_x : R;
  head_rotation_y : R
}.

Record Eyebrow : Type := {
  eyebrow_side : option string;
  eyebrow_position_y : R;
  eyebrow_rotation_z : R
}.

Record Refs : Type := {
  avatarRef : option Scene.Group;
  headRef : option Head;
  eyesRef : option Eyes;
  mouthRef : option Vector3;
  eyebrowsRef : option (list Eyebrow);
  teeth : option bool
}.

Definition hasType (t : string) (c : Child) : bool :=
  match userData_type c with
  | Some t' => String.eqb t' t
  | None => false
  end.

Definition isLeft (side : option string) : bool :=
  match side with
  | Some s => String.eqb s "left"
  | None => false
  end.

(** [child.position.x += eyeMovement * (side === 'left' ? -1 : 1)] for the
    irises and the pupils. *)
Definition moveEye (eyeMovement : R) (c : Child) : Child :=
  if hasType "iris" c || hasType "pupil" c then
    {| userData_type := userData_type c; userData_side := userData_side c;
       position_x := position_x c
                     + eyeMovement * (if isLeft (userData_side c) then -1 else 1);
       visible := visible c |}
  else c.

Definition setVisible (b : bool) (c : Child) : Child :=
  {| userData_type := userData_type c; userData_side := userData_side c;
     position_x := position_x c; visible := b |}.

(** The blink shows the eyelids. *)
Definition closeEyelid (c : Child) : Child :=
  if hasType "eyelid" c then setVisible true c else c.

(** The callback handed to [setTimeout] by the blink, 150 ms later. *)
Definition openEyelid (c : Child) : Child :=
  if hasType "eyelid" c then setVisible false c else c.

(** [random] is the value of [Math.random()] in this frame. *)
Definition blinks (random : R) : bool :=
  if Rlt_dec 0.998 random then true else false.

Definition eyeChild (time random : R) (c : Child) : Child :=
  let eyeMovement := sin (time * 0.4) * 0.03 in
  let moved := moveEye eyeMovement c in
  if blinks random then closeEyelid moved else moved.

Definition setEyesScale (v : R) (e : Eyes) : Eyes :=
  {| children := children e; eyes_scale := {| x := v; y := v; z := v |} |}.

Definition eyesMovement (time random : R) (e : Eyes) : Eyes :=
  {| children := map (eyeChild time random) (children e); eyes_scale := eyes_scale e |}.

(** The eyes after the [switch (animation)]: wide under 'alert', reset by
    the default case, left alone by the two other cases. *)
Definition eyesExpression (animation : string) (e : Eyes) : Eyes :=
  if String.eqb animation "alert" then setEyesScale 1.2 e
  else if String.eqb animation "instruction" then e
  else if String.eqb animation "announcement" then e
  else setEyesScale 1 e.

Definition mouthOpen (time : R) : R := sin (time * 8) * 0.3 + 0.4.
Definition lipIntensity (time : R) : R := sin (time * 12) * 0.4 + 0.6.

(** The mouth after the lip-sync block. *)
Definition mouthLipSync (time : R) (lipSyncActive : bool) (m : Vector3) : Vector3 :=
  if lipSyncActive then
    {| x := 1 + mouthOpen time * 0.5; y := 1 + lipIntensity time * 0.3; z := z m |}
  else {| x := 1; y := 1; z := 1 |}.

(** The mouth after the [switch (animation)]: the smile of 'announcement'
    when the lips are not moving. *)
Definition mouthExpression (animation : string) (lipSyncActive : bool) (m : Vector3) : Vector3 :=
  if String.eqb animation "alert" then m
  else if String.eqb animation "instruction" then m
  else if String.eqb animation "announcement" then
    if negb lipSyncActive then {| x := 1.2; y := y m; z := z m |} else m
  else m.

(** The teeth are written in the lip-sync block only, and only with the
    mouth there. *)
Definition teethVisible (time : R) (lipSyncActive mouthMounted : bool) (t : option bool)
    : option bool :=
  if lipSyncActive && mouthMounted then
    match t with
    | Some _ => Some (if Rlt_dec 0.5 (mouthOpen time) then true else false)
    | None => None
    end
  else t.

Definition eyebrowExpression (animation : string) (b : Eyebrow) : Eyebrow :=
  let left := isLeft (eyebrow_side b) in
  if String.eqb animation "alert" then
    {| eyebrow_side := eyebrow_side b; eyebrow_position_y := 0.4;
       eyebrow_rotation_z := if left then 0.2 else -0.2 |}
  else if String.eqb animation "instruction" then
    {| eyebrow_side := eyebrow_side b; eyebrow_position_y := 0.35;
       eyebrow_rotation_z := if left then 0.05 else -0.05 |}
  else if String.eqb animation "announcement" then
    {| eyebrow_side := eyebrow_side b; eyebrow_position_y := 0.38;
       eyebrow_rotation_z := eyebrow_rotation_z b |}
  else
    {| eyebrow_side := eyebrow_side b; eyebrow_position_y := 0.35;
       eyebrow_rotation_z := if left then 0.1 else -0.1 |}.

Definition headMovement (time : R) (h : Head) : Head :=
  {| head_rotation_x := sin (time * 0.8) * 0.02;
     head_rotation_y := sin (time * 0.6) * 0.05 |}.

Definition isSome {A} (o : option A) : bool :=
  match o with Some _ => true | None => false end.

(** The frame callback; nothing is written while the group is not
    mounted. *)
Definition useFrame (time random : R) (animation : string) (lipSyncActive : bool)
    (r : Refs) : Refs :=
  match avatarRef r with
  | None => r
  | Some g =>
      let breathe := sin (time * 2) * 0.02 + 1 in
      {| avatarRef := Some (Scene.animationEffects time animation (Scene.set_scale_y breathe g));
         headRef := option_map (headMovement time) (headRef r);
         eyesRef := option_map (fun e => eyesExpression animation (eyesMovement time random e))
                               (eyesRef r);
         mouthRef := option_map (fun m => mouthExpression animation lipSyncActive
                                            (mouthLipSync time lipSyncActive m))
                                (mouthRef r);
         eyebrowsRef := option_map (map (eyebrowExpression animation)) (eyebrowsRef r);
         teeth := teethVisible time lipSyncActive (isSome (mouthRef r)) (teeth r) |}
  end.

(** A frame: the clock, the random number, and the two props. *)
Record Frame : Type := {
  frame_time : R;
  frame_random : R;
  frame_animation : string;
  frame_lipSyncActive : bool
}.

Definition render (r : Refs) (f : Frame) : Refs :=
  useFrame (frame_time f) (frame_random f) (frame_animation f) (frame_lipSyncActive f) r.

Definition renderAll (r : Refs) (frames : list Frame) : Refs := fold_left render frames r.

(** The eyelid timeouts of a blink, all run. *)
Definition eyelidTimeouts (r : Refs) : Refs :=
  {| avatarRef := avatarRef r; headRef := headRef r;
     eyesRef := option_map (fun e => {| children := map openEyelid (children e);
                                        eyes_scale := eyes_scale e |}) (eyesRef r);
     mouthRef := mouthRef r; eyebrowsRef := eyebrowsRef r; teeth := teeth r |}.

(** The frames of the group alone. *)
Definition renderGroup (g : Scene.Group) (f : Frame) : Scene.Group :=
  Scene.animationEffects (frame_time f) (frame_animation f)
    (Scene.set_scale_y (sin (frame_time f * 2) * 0.02 + 1) g).

(** The frames of one child of the eyes group. *)
Definition renderChild (c : Child) (f : Frame) : Child :=
  eyeChild (frame_time f) (frame_random f) c.

(** The sum of the eye movements of a list of frames. *)
Fixpoint drift (frames : list Frame) : R :=
  match frames with
  | [] => 0
  | f :: rest => sin (frame_time f * 0.4) * 0.03 + drift rest
  end.

Definition isIrisOrPupil (c : Child) : bool := hasType "iris" c || hasType "pupil" c.

End Face.

(** ** What a list of calls holds *)
Section Emission.
Context {St Call : Type}.

(** Every call of the handler, in every state, satisfies [P]. *)
Definition emits (P : Call -> Prop) (h : Handler St Call) : Prop :=
  forall s, Forall P (snd (h s)).

End Emission.

Module CrewAvatarCalls.

Definition isMount (e : CrewAvatar.Event) : bool :=
  match e with CrewAvatar.Mount _ => true | _ => false end.

Definition isRecognitionStart (c : CrewAvatar.Call) : bool :=
  match c with CrewAvatar.RecognitionStart => true | _ => false end.

(** The delays of the timeouts set for a callback. *)
Fixpoint delays (callback : CrewAvatar.Timeout) (calls : list CrewAvatar.Call) : list nat :=
  match calls with
  | [] => []
  | CrewAvatar.SetTimeout cb ms :: rest =>
      match callback, cb with
      | CrewAvatar.LipSyncOff, CrewAvatar.LipSyncOff
      | CrewAvatar.BackToIdle, CrewAvatar.BackToIdle => ms :: delays callback rest
      | _, _ => delays callback rest
      end
  | _ :: rest => delays callback rest
  end.

(** The utterances handed to the synthesiser. *)
Fixpoint utterances (calls : list CrewAvatar.Call) : list CrewAvatar.SpeechSynthesisUtterance :=
  match calls with
  | [] => []
  | CrewAvatar.SpeechSynthesisSpeak u :: rest => u :: utterances rest
  | _ :: rest => utterances rest
  end.

(** The calls of a command that is triggered: the two timeouts and the
    utterance. *)
Definition triggerCalls (getVoices : list CrewAvatar.Voice) (cmd : CrewAvatar.VoiceCommand)
    : list CrewAvatar.Call :=
  [ CrewAvatar.SetTimeout CrewAvatar.LipSyncOff (String.length (CrewAvatar.text cmd) * 150);
    CrewAvatar.SetTimeout CrewAvatar.BackToIdle 2500;
    CrewAvatar.SpeechSynthesisSpeak
      {| CrewAvatar.utterance_text := CrewAvatar.getInstructionForCommand (CrewAvatar.text cmd);
         CrewAvatar.voice := find CrewAvatar.professional getVoices;
         CrewAvatar.rate := (9 # 10)%Q; CrewAvatar.pitch := 1%Q;
         CrewAvatar.volume := (8 # 10)%Q |} ].

(** The events that end a command: its two timeouts and the end of its
    utterance, in the six orders in which they can come. *)
Definition completions : list (list CrewAvatar.Event) :=
  let lip := CrewAvatar.TimeoutFired CrewAvatar.LipSyncOff in
  let idle := CrewAvatar.TimeoutFired CrewAvatar.BackToIdle in
  let said := CrewAvatar.UtteranceEnd in
  [ [lip; idle; said]; [lip; said; idle]; [idle; lip; said];
    [idle; said; lip]; [said; lip; idle]; [said; idle; lip] ].

(** What the calls of a run hold when each step adds the calls of one
    command or none that sets a timeout or speaks. *)
Definition timed_on_the_keyword (calls : list CrewAvatar.Call) : Prop :=
  Forall (fun ms => 900 <= ms <= 1500) (delays CrewAvatar.LipSyncOff calls) /\
  Forall (fun ms => ms = 2500) (delays CrewAvatar.BackToIdle calls) /\
  Forall (fun t => 78 <= String.length t) (CrewAvatar.spoken calls) /\
  length (delays CrewAvatar.LipSyncOff calls) = length (CrewAvatar.spoken calls) /\
  length (delays CrewAvatar.BackToIdle calls) = length (CrewAvatar.spoken calls).

(** The closure of the recognition callbacks has seen nobody speaking. *)
Definition closure_not_speaking (s : CrewAvatar.State) : Prop :=
  forall rec, CrewAvatar.recognitionRef s = Some rec ->
              CrewAvatar.closure_isSpeaking rec = false.

End CrewAvatarCalls.

Module TalkingHeadCalls.

Definition isRecognitionStart (c : TalkingHead.Call) : bool :=
  match c with TalkingHead.RecognitionStart => true | _ => false end.

(** The calls into the avatar library. *)
Definition isHeadCall (c : TalkingHead.Call) : bool :=
  match c with
  | TalkingHead.HeadSpeakText _ _ _ _ | TalkingHead.HeadStopSpeaking
  | TalkingHead.HeadPlayGesture _ _ | TalkingHead.HeadSetMood _
  | TalkingHead.HeadSetView _ | TalkingHead.HeadPlayPose _ _ => true
  | _ => false
  end.

Definition isAvatarLoaded (e : TalkingHead.Event) : bool :=
  match e with TalkingHead.AvatarLoaded _ => true | _ => false end.

(** The two ends of the avatar loader. *)
Definition isAvatarEvent (e : TalkingHead.Event) : bool :=
  match e with
  | TalkingHead.AvatarLoaded _ | TalkingHead.AvatarFailed _ _ => true
  | _ => false
  end.

(** A string without a space, as every keyword is. *)
Fixpoint noSpace (s : string) : bool :=
  match s with
  | EmptyString => true
  | String c s' => negb (Ascii.eqb c " "%char) && noSpace s'
  end.

Definition flag (b : bool) : nat := if b then 1 else 0.

(** The test buttons and the result handler: the two events that execute a
    command. *)
Definition executes (e : TalkingHead.Event) : bool :=
  match e with
  | TalkingHead.ClickTest _ _ | TalkingHead.RecognitionOnResult _ _ => true
  | _ => false
  end.

(** Neither ready nor seen ready by the closure of the recognition
    effect. *)
Definition not_ready (s : TalkingHead.State) : Prop :=
  TalkingHead.isAvatarReady s = false /\ TalkingHead.closure_not_ready s.

(** The outcome in which no awaited call throws. *)
Definition resolved : TalkingHead.Outcome :=
  {| TalkingHead.gestureThrows := false; TalkingHead.speakTextThrows := false |}.

End TalkingHeadCalls.

(** * Properties *)

(** ** Composition of handlers *)
Section HandlerFacts.
Context {St Call : Type}.
Implicit Types (h k : Handler St Call) (s : St).

Lemma andThen_fst h k s : fst ((h >> k) s) = fst (k (fst (h s))).
Proof. unfold andThen. destruct (h s) as [s1 c1]. simpl. now destruct (k s1). Qed.

Lemma andThen_snd h k s :
  snd ((h >> k) s) = (snd (h s) ++ snd (k (fst (h s))))%list.
Proof. unfold andThen. destruct (h s) as [s1 c1]. simpl. now destruct (k s1). Qed.

Lemma preserves_skip {A} (f : St -> A) : preserves f (skip : Handler St Call).
Proof. intros s; reflexivity. Qed.

Lemma preserves_call {A} (f : St -> A) (c : Call) : preserves f (call c).
Proof. intros s; reflexivity. Qed.

Lemma preserves_andThen {A} (f : St -> A) h k :
  preserves f h -> preserves f k -> preserves f (h >> k).
Proof. intros Hh Hk s. now rewrite andThen_fst, Hk, Hh. Qed.

Lemma preserves_reading {A B} (f : St -> A) (get : St -> B) (k : B -> Handler St Call) :
  (forall b, preserves f (k b)) -> preserves f (reading get k).
Proof. intros Hk s. apply Hk. Qed.

End HandlerFacts.

Section PartFacts.
Context {W St Call : Type}.

Lemma within_fst (get : W -> St) (put : St -> W -> W) (h : Handler St Call) (w : W) :
  fst (within get put h w) = put (fst (h (get w))) w.
Proof. unfold within. now destruct (h (get w)). Qed.

Lemma within_snd (get : W -> St) (put : St -> W -> W) (h : Handler St Call) (w : W) :
  snd (within get put h w) = snd (h (get w)).
Proof. unfold within. now destruct (h (get w)). Qed.

(** A handler run within a part leaves what [put] leaves. *)
Lemma preserves_within {A} (f : W -> A) (get : W -> St) (put : St -> W -> W)
    (h : Handler St Call) :
  (forall s w, f (put s w) = f w) -> preserves f (within get put h).
Proof. intros Hput w. now rewrite within_fst, Hput. Qed.

End PartFacts.

(** Proves [preserves f h] along the structure of [h]. *)
Ltac frame :=
  repeat first
    [ apply preserves_andThen
    | apply preserves_reading; intros ?
    | apply preserves_skip
    | apply preserves_call
    | (apply preserves_within; intros ? ?; reflexivity)
    | match goal with |- preserves _ (if ?b then _ else _) => destruct b end
    | match goal with |- preserves _ (match ?x with _ => _ end) => destruct x end
    | (intros ?; reflexivity) ].

Lemma sounds_app (a b : list TalkingHead.Call) :
  AudioSpec.sounds (a ++ b) = (AudioSpec.sounds a ++ AudioSpec.sounds b)%list.
Proof.
  induction a as [|c a IH]; simpl; [reflexivity|].
  destruct (AudioSpec.sound_of c); simpl; now rewrite IH.
Qed.

(** ** Facts about the string and array methods *)
Module JSFacts.
Import JS.

Lemma startsWith_append (p post : string) : startsWith (p ++ post) p = true.
Proof.
  induction p as [|a p IH]; simpl.
  - reflexivity.
  - now rewrite Ascii.eqb_refl.
Qed.

Lemma startsWith_inv (s p : string) :
  startsWith s p = true -> exists post, s = p ++ post.
Proof.
  revert s; induction p as [|a p IH]; intros s Hs.
  - now exists s.
  - destruct s as [|b s]; simpl in Hs; [discriminate|].
    apply andb_prop in Hs as [Hab Hs].
    apply Ascii.eqb_eq in Hab; subst b.
    destruct (IH _ Hs) as [post ->].
    now exists post.
Qed.

Lemma startsWith_spec (s p : string) :
  startsWith s p = true <-> exists post, s = p ++ post.
Proof.
  split; [apply startsWith_inv|].
  intros [post ->]; apply startsWith_append.
Qed.

Lemma includes_inv (s k : string) : includes s k = true -> occurs k s.
Proof.
  induction s as [|c s IH]; simpl; intros Hs.
  - rewrite orb_false_r in Hs.
    destruct (startsWith_inv _ _ Hs) as [post E].
    now exists EmptyString, post.
  - apply orb_prop in Hs as [Hs|Hs].
    + destruct (startsWith_inv _ _ Hs) as [post E].
      now exists EmptyString, post.
    + destruct (IH Hs) as (pre & post & ->).
      now exists (String c pre), post.
Qed.

Lemma includes_startsWith (s k : string) : startsWith s k = true -> includes s k = true.
Proof. intros Hs; destruct s; simpl; now rewrite Hs. Qed.

Lemma includes_intro (pre k post : string) : includes (pre ++ k ++ post) k = true.
Proof.
  induction pre as [|c pre IH]; simpl.
  - apply includes_startsWith, startsWith_append.
  - rewrite IH. apply orb_true_r.
Qed.

Lemma includes_spec (s k : string) : includes s k = true <-> occurs k s.
Proof.
  split; [apply includes_inv|].
  intros (pre & post & ->); apply includes_intro.
Qed.

Lemma append_assoc (a b c : string) : (a ++ b) ++ c = a ++ b ++ c.
Proof. induction a as [|x a IH]; simpl; [reflexivity | now rewrite IH]. Qed.

Lemma occurs_trans (k w s : string) : occurs k w -> occurs w s -> occurs k s.
Proof.
  intros (p1 & q1 & ->) (p2 & q2 & ->).
  exists (p2 ++ p1), (q1 ++ q2).
  now rewrite !append_assoc.
Qed.

Lemma split_nonempty (s : string) : split s <> [].
Proof.
  induction s as [|c s IH]; simpl; [discriminate|].
  destruct (Ascii.eqb c " "); [discriminate|].
  destruct (split s); discriminate.
Qed.

(** Every piece of [split s] occurs in [s]. *)
Lemma split_occurs (s w : string) : In w (split s) -> occurs w s.
Proof.
  revert w; induction s as [|c s IH]; simpl; intros w Hw.
  - destruct Hw as [<-|[]]. now exists EmptyString, EmptyString.
  - destruct (Ascii.eqb c " ") eqn:Ec.
    + destruct Hw as [<-|Hw].
      * now exists EmptyString, (String c s).
      * destruct (IH _ Hw) as (pre & post & E).
        exists (String c pre), post. simpl. now rewrite <- E.
    + destruct (split s) as [|w0 ws] eqn:Es.
      * now destruct (split_nonempty s).
      * destruct Hw as [<-|Hw].
        -- destruct (IH w0 (or_introl eq_refl)) as (pre & post & E).
           (* the first piece starts the string: it has no space in it *)
           clear IH.
           assert (Hpre : exists post', s = w0 ++ post').
           { clear E pre post Ec. revert w0 ws Es.
             induction s as [|d s IHs]; simpl; intros w0 ws Es.
             - injection Es as <- <-. now exists EmptyString.
             - destruct (Ascii.eqb d " ").
               + injection Es as <- <-. now exists (String d s).
               + destruct (split s) as [|v vs] eqn:Ev.
                 * now destruct (split_nonempty s).
                 * injection Es as <- <-.
                   destruct (IHs v vs eq_refl) as [post' ->].
                   now exists post'. }
           destruct Hpre as [post' ->].
           now exists EmptyString, post'.
        -- destruct (IH w (or_intror Hw)) as (pre & post & E).
           exists (String c pre), post. simpl. now rewrite <- E.
Qed.

(** [find] returns the first element that satisfies the predicate. *)
Lemma find_first {A} (p : A -> bool) (l : list A) (x : A) :
  find p l = Some x <->
  exists before after,
    l = (before ++ x :: after)%list /\ p x = true /\
    forall y, In y before -> p y = false.
Proof.
  split.
  - induction l as [|a l IH]; simpl; [discriminate|].
    destruct (p a) eqn:Ea.
    + intros [= <-]. exists [], l. now repeat split.
    + intros Hf. destruct (IH Hf) as (b & c & -> & Hx & Hb).
      exists (a :: b), c. repeat split; auto.
      intros y [<-|Hy]; auto.
  - intros (b & c & -> & Hx & Hb).
    induction b as [|a b IH]; simpl.
    + now rewrite Hx.
    + rewrite (Hb a (or_introl eq_refl)). apply IH.
      intros y Hy. apply Hb. now right.
Qed.

Lemma find_none_iff {A} (p : A -> bool) (l : list A) :
  find p l = None <-> forall y, In y l -> p y = false.
Proof.
  split.
  - apply find_none.
  - induction l as [|a l IH]; simpl; intros Hl; [reflexivity|].
    rewrite (Hl a (or_introl eq_refl)). apply IH. intros y Hy. apply Hl. now right.
Qed.

End JSFacts.

(** ** The React-Three-Fiber iteration *)
Module CrewAvatarFacts.
Import JS JSFacts CrewAvatar.

(** Splits a membership in a literal list into its cases. *)
Ltac each_entry H :=
  simpl in H;
  repeat (destruct H as [<- | H]; [ | ]);
  [ .. | contradiction H ].

Lemma matchedCommand_first (commands : list VoiceCommand) (t : string) (cmd : VoiceCommand) :
  matchedCommand commands t = Some cmd <->
  exists before after,
    commands = (before ++ cmd :: after)%list /\ occurs (text cmd) t /\
    forall c, In c before -> ~ occurs (text c) t.
Proof.
  unfold matchedCommand. rewrite find_first. split.
  - intros (b & a & E & Hc & Hb). exists b, a. repeat split; auto.
    + now apply includes_spec.
    + intros c Hin Hocc. apply includes_spec in Hocc.
      specialize (Hb c Hin). simpl in Hb. congruence.
  - intros (b & a & E & Hc & Hb). exists b, a. repeat split; auto.
    + now apply includes_spec.
    + intros c Hin. specialize (Hb c Hin).
      destruct (includes t (text c)) eqn:Ei; [|reflexivity].
      apply includes_spec in Ei. contradiction.
Qed.

Lemma matchedCommand_none (commands : list VoiceCommand) (t : string) :
  matchedCommand commands t = None <->
  forall c, In c commands -> ~ occurs (text c) t.
Proof.
  unfold matchedCommand. rewrite find_none_iff. split.
  - intros Hn c Hin Hocc. apply includes_spec in Hocc.
    specialize (Hn c Hin). simpl in Hn. congruence.
  - intros Hn c Hin. specialize (Hn c Hin).
    destruct (includes t (text c)) eqn:Ei; [|reflexivity].
    apply includes_spec in Ei. contradiction.
Qed.

(** The keywords of the table are pairwise different, so the test button
    finds the entry it was rendered for. *)
Lemma testCommand_finds (cmd : VoiceCommand) :
  In cmd voiceCommands ->
  find (fun c => String.eqb (text c) (text cmd)) voiceCommands = Some cmd.
Proof. intros Hin. each_entry Hin; reflexivity. Qed.

Lemma instruction_in_table (cmd : VoiceCommand) :
  In cmd voiceCommands ->
  In (text cmd, getInstructionForCommand (text cmd)) instructions.
Proof.
  intros Hin. each_entry Hin; cbv [text getInstructionForCommand]; simpl; tauto.
Qed.

Section WithVoices.
Variable getVoices : list Voice.

(** What the four calls shared by [testCommand] and [onresult] do. *)
Lemma trigger_result (status : string) (cmd : VoiceCommand) (s : State) :
  let r := (setCurrentStatus status >> performLipSync (text cmd) >>
            performAnimation (animation cmd) >>
            speak getVoices (getInstructionForCommand (text cmd))) s in
  currentStatus (fst r) = status /\
  spoken (snd r) = [getInstructionForCommand (text cmd)] /\
  currentAnimation (avatarState (fst r)) = animation cmd /\
  lipSyncActive (avatarState (fst r)) = true /\
  isSpeaking (fst r) = true /\
  isListening (avatarState (fst r)) = isListening (avatarState s).
Proof. cbv zeta. repeat split. Qed.

Lemma testCommand_known (cmd : VoiceCommand) (s : State) :
  In cmd voiceCommands ->
  testCommand getVoices voiceCommands (text cmd) s =
  (setCurrentStatus (icon_target ++ " Testing: " ++ toUpperCase (text cmd)) >>
   performLipSync (text cmd) >> performAnimation (animation cmd) >>
   speak getVoices (getInstructionForCommand (text cmd))) s.
Proof.
  intros Hin. unfold testCommand. now rewrite (testCommand_finds cmd Hin).
Qed.

Lemma onresult_matched (commands : list VoiceCommand) (transcript : string)
    (cmd : VoiceCommand) (s : State) :
  matchedCommand commands (toLowerCase transcript) = Some cmd ->
  onresult getVoices commands transcript s =
  (setAvatarState (withRecognizedText (toLowerCase transcript)) >>
   (setCurrentStatus (icon_target ++ " Executing: " ++ toUpperCase (text cmd)) >>
    performLipSync (text cmd) >> performAnimation (animation cmd) >>
    speak getVoices (getInstructionForCommand (text cmd)))) s.
Proof. intros Hm. unfold onresult. cbv zeta. now rewrite Hm. Qed.

Lemma onresult_unmatched (commands : list VoiceCommand) (transcript : string) (s : State) :
  matchedCommand commands (toLowerCase transcript) = None ->
  onresult getVoices commands transcript s =
  setAvatarState (withRecognizedText (toLowerCase transcript)) s.
Proof. intros Hm. unfold onresult. cbv zeta. now rewrite Hm. Qed.

End WithVoices.
End CrewAvatarFacts.

(** ** The animated-head iteration *)
Module TalkingHeadFacts.
Import JS JSFacts TalkingHead.

(** The third disjunct of the predicate is covered by the second. *)
Lemma fuzzy_spec (transcript : string) (cmd : VoiceCommand) :
  fuzzy transcript cmd = true <->
  exists word, In word (split transcript) /\
               (occurs (command cmd) word \/ occurs word (command cmd)).
Proof.
  unfold fuzzy, some. rewrite existsb_exists. split.
  - intros (w & Hin & Hw). exists w. split; [assumption|].
    apply orb_prop in Hw as [Hw|Hw]; [apply orb_prop in Hw as [Hw|Hw]|].
    + left. now apply includes_spec.
    + right. now apply includes_spec.
    + apply andb_prop in Hw as [_ Hw]. right. now apply includes_spec.
  - intros (w & Hin & [Hw|Hw]); exists w; (split; [assumption|]);
      apply includes_spec in Hw; rewrite Hw; [reflexivity|].
    now rewrite orb_true_r.
Qed.

Lemma head_matchedCommand_none (commands : list VoiceCommand) (transcript : string) :
  matchedCommand commands transcript = None <->
  forall cmd word, In cmd commands -> In word (split transcript) ->
                   ~ occurs (command cmd) word /\ ~ occurs word (command cmd).
Proof.
  unfold matchedCommand. rewrite find_none_iff. split.
  - intros Hn cmd w Hc Hw. specialize (Hn cmd Hc).
    split; intros Hocc;
      (assert (Hf : fuzzy transcript cmd = true)
         by (apply fuzzy_spec; exists w; tauto)); congruence.
  - intros Hn cmd Hc. destruct (fuzzy transcript cmd) eqn:Ef; [|reflexivity].
    apply fuzzy_spec in Ef as (w & Hw & Hocc).
    destruct (Hn cmd w Hc Hw). tauto.
Qed.

(** A keyword inside a word is a keyword inside the transcript. *)
Lemma unmatched_when (commands : list VoiceCommand) (transcript : string) :
  (forall cmd, In cmd commands -> ~ occurs (command cmd) transcript) ->
  (forall cmd word, In cmd commands -> In word (split transcript) ->
                    ~ occurs word (command cmd)) ->
  matchedCommand commands transcript = None.
Proof.
  intros Hk Hw. apply head_matchedCommand_none. intros cmd w Hc Hin. split.
  - intros Hocc. apply (Hk cmd Hc).
    apply (occurs_trans _ w); [assumption | now apply split_occurs].
  - now apply Hw.
Qed.

Lemma head_onresult_unmatched (commands : list VoiceCommand) (rec : Recognition)
    (raw : string) (o : Outcome) (s : State) :
  matchedCommand commands (trim (toLowerCase raw)) = None ->
  onresult commands rec raw o s =
  (call (ConsoleLog "Voice recognized:" (trim (toLowerCase raw))) >>
   setCurrentStatus (notRecognized commands (trim (toLowerCase raw)))) s.
Proof. intros Hm. unfold onresult. cbv zeta. now rewrite Hm. Qed.

Lemma head_onresult_matched (commands : list VoiceCommand) (rec : Recognition)
    (raw : string) (o : Outcome) (cmd : VoiceCommand) (s : State) :
  matchedCommand commands (trim (toLowerCase raw)) = Some cmd ->
  onresult commands rec raw o s =
  (call (ConsoleLog "Voice recognized:" (trim (toLowerCase raw))) >>
   executeCommand (closure_isAvatarReady rec) o cmd) s.
Proof. intros Hm. unfold onresult. cbv zeta. now rewrite Hm. Qed.

Lemma gestureCall_silent (g : string) (c : Call) :
  gestureCall g = Some c -> AudioSpec.sound_of c = None.
Proof.
  unfold gestureCall.
  repeat (destruct (String.eqb g _); [intros [= <-]; reflexivity|]).
  discriminate.
Qed.

Lemma performGesture_state (o : Outcome) (g : string) (s : State) :
  fst (performGesture o g s) = s.
Proof.
  unfold performGesture, reading.
  destruct (avatarRef s); [|reflexivity].
  destruct (gestureCall g); [|reflexivity].
  now destruct (gestureThrows o).
Qed.

Lemma performGesture_silent (o : Outcome) (g : string) (s : State) :
  AudioSpec.sounds (snd (performGesture o g s)) = [].
Proof.
  unfold performGesture, reading.
  destruct (avatarRef s); [|reflexivity].
  destruct (gestureCall g) as [c|] eqn:Eg; [|reflexivity].
  apply gestureCall_silent in Eg.
  destruct (gestureThrows o); cbn; now rewrite Eg.
Qed.

(** The sounds of [executeCommand], case by case. *)
Lemma executeCommand_sounds (ready : bool) (o : Outcome) (cmd : VoiceCommand) (s : State) :
  AudioSpec.sounds (snd (executeCommand ready o cmd s)) =
  let tts := AudioSpec.TextToSpeech (instruction cmd) in
  if negb ready then []
  else match avatarRef s with
       | Some head =>
           if speakText_is_function head && speakTextThrows o then [tts; tts] else [tts]
       | None => [tts]
       end.
Proof.
  destruct ready; [|reflexivity].
  unfold executeCommand. cbn [negb].
  rewrite andThen_snd, sounds_app. cbn [setCurrentStatus update snd fst AudioSpec.sounds app].
  unfold reading. cbn [avatarRef].
  destruct (avatarRef s) as [head|]; [|reflexivity].
  destruct (speakText_is_function head); [|reflexivity].
  cbn [andb].
  rewrite !andThen_snd, !sounds_app, !andThen_fst.
  assert (Hg : forall s0,
    AudioSpec.sounds (snd (match truthy (gesture cmd) with
                           | Some g => performGesture o g
                           | None => skip end s0)) = []).
  { intros s0. destruct (truthy (gesture cmd)); [apply performGesture_silent | reflexivity]. }
  rewrite Hg.
  destruct (speakTextThrows o); reflexivity.
Qed.

End TalkingHeadFacts.

(** ** The flags of the React-Three-Fiber iteration along a run *)
Module CrewAvatarRuns.
Import JS JSFacts CrewAvatar CrewAvatarFacts.

Section WithVoices.
Variable getVoices : list Voice.

Lemma testCommand_frame cmds k s :
  listening (fst (testCommand getVoices cmds k s)) = listening s /\
  recognitionRef (fst (testCommand getVoices cmds k s)) = recognitionRef s.
Proof. unfold testCommand. destruct (find _ cmds); split; reflexivity. Qed.

Lemma onresult_frame cmds t s :
  listening (fst (onresult getVoices cmds t s)) = listening s /\
  recognitionRef (fst (onresult getVoices cmds t s)) = recognitionRef s.
Proof.
  unfold onresult. cbv zeta. destruct (matchedCommand cmds _); split; reflexivity.
Qed.


(** Once created, the recognition object stays in [recognitionRef]. *)
Lemma handle_keeps_recognition cmds e s :
  recognitionRef s <> None -> recognitionRef (fst (handle getVoices cmds e s)) <> None.
Proof.
  destruct e as [sup| | | |k| |t|err| | |err|[|]];
    unfold handle, unlessDisabled, reading; intros Hr.
  all: try (destruct (testDisabled s); [assumption|];
            now rewrite (proj2 (testCommand_frame _ _ _))).
  all: try (destruct (recognitionRef s) as [r|] eqn:Er; [|congruence];
            first [ rewrite (proj2 (onresult_frame _ _ _)); congruence
                  | destruct r as [[|]]; cbn; congruence
                  | cbn; congruence ]).
  all: destruct s as [[l a ls rt] st sp [r|]]; cbn in *;
    repeat match goal with
           | |- context [if ?b then _ else _] => destruct b; cbn
           end; try congruence.
  all: destruct sup; cbn; congruence.
Qed.

Lemma run_cons_fst w e rest :
  fst (run getVoices w (e :: rest)) = fst (run getVoices (fst (step getVoices w e)) rest).
Proof.
  simpl. destruct (step getVoices w e) as [w1 c1]. simpl.
  now destruct (run getVoices w1 rest).
Qed.

Lemma step_component w e :
  component (fst (step getVoices w e)) = fst (handle getVoices (commands w) e (component w)).
Proof. unfold step. now destruct (handle getVoices (commands w) e (component w)). Qed.

Lemma step_commands w e : commands (fst (step getVoices w e)) = commands w.
Proof. unfold step. now destruct (handle getVoices (commands w) e (component w)). Qed.

Lemma run_commands w events : commands (fst (run getVoices w events)) = commands w.
Proof.
  revert w; induction events as [|e rest IH]; intros w; [reflexivity|].
  rewrite run_cons_fst, IH. apply step_commands.
Qed.



(** The speaking flag after one event: [utterance.onend] is the one
    callback that lowers it. *)
Lemma handle_keeps_speaking cmds e s :
  e <> UtteranceEnd -> isSpeaking s = true ->
  isSpeaking (fst (handle getVoices cmds e s)) = true.
Proof.
  intros He Hs.
  destruct e as [sup| | | |k| |t|err| | |err|[|]];
    unfold handle, unlessDisabled, reading; try congruence.
  all: try (destruct (testDisabled s); [assumption|];
            unfold testCommand; destruct (find _ cmds); [reflexivity|assumption]).
  all: try (destruct (recognitionRef s) as [r|] eqn:Er; [|assumption];
            first [ unfold onresult; cbv zeta; destruct (matchedCommand cmds _);
                    [reflexivity | assumption]
                  | destruct r as [[|]]; assumption
                  | assumption ]).
  all: destruct s as [[l a ls rt] st sp [r|]]; cbn in *;
    repeat match goal with
           | |- context [if ?b then _ else _] => destruct b; cbn
           end; try assumption.
  all: destruct sup; assumption.
Qed.

Lemma speaking_until_onend events : forall w,
  isSpeaking (component w) = true ->
  ~ In UtteranceEnd events ->
  isSpeaking (component (fst (run getVoices w events))) = true.
Proof.
  induction events as [|e rest IH]; intros w Hs Hn; [exact Hs|].
  rewrite run_cons_fst. apply IH.
  - rewrite step_component. apply handle_keeps_speaking; [|exact Hs].
    intros ->. apply Hn. now left.
  - intros Hin. apply Hn. now right.
Qed.

End WithVoices.
End CrewAvatarRuns.

(** ** The flags of the animated-head iteration along a run *)
Module TalkingHeadRuns.
Import JS JSFacts TalkingHead TalkingHeadFacts.

Lemma executeCommand_listening ready o cmd :
  preserves isListening (executeCommand ready o cmd).
Proof.
  unfold executeCommand, performGesture. frame.
Qed.

Lemma executeCommand_recognition ready o cmd :
  preserves speechRecognition (executeCommand ready o cmd).
Proof.
  unfold executeCommand, performGesture. frame.
Qed.

(** Events other than the voice button and the engine's error and end
    leave the listening flag as it is. *)
Lemma handle_listening_frame cmds e :
  isClickVoiceCommand e = false -> lowers e = false ->
  preserves isListening (handle cmds e).
Proof.
  destruct e; cbn; intros Hc Hl; try discriminate;
    unfold handle, unlessDisabled, setupRecognition, avatarLoaded, avatarFailed,
      stopSpeaking, utterance_onend;
    try (frame; fail).
  - apply preserves_reading; intros [|]; [frame|].
    unfold testCommand. destruct (find _ cmds); [|frame].
    apply preserves_reading; intros ready. apply executeCommand_listening.
  - apply preserves_reading; intros [rec|]; [|frame].
    unfold onresult. cbv zeta. apply preserves_andThen; [frame|].
    destruct (matchedCommand cmds _); [apply executeCommand_listening | frame].
Qed.



(** The mount effect is the one writer of the recognition object. *)
Lemma handle_recognition_frame cmds e :
  (exists supported, e = Mount supported) \/
  preserves speechRecognition (handle cmds e).
Proof.
  destruct e;
    try (right;
         unfold handle, unlessDisabled, avatarLoaded, avatarFailed, startListening,
           stopSpeaking, utterance_onend, onerror, onend;
         frame; fail).
  - left. now eexists.
  - right. unfold handle, unlessDisabled.
    apply preserves_reading; intros [|]; [frame|].
    unfold testCommand. destruct (find _ cmds); [|frame].
    apply preserves_reading; intros ready. apply executeCommand_recognition.
  - right. unfold handle.
    apply preserves_reading; intros [rec|]; [|frame].
    unfold onresult. cbv zeta. apply preserves_andThen; [frame|].
    destruct (matchedCommand cmds _); [apply executeCommand_recognition | frame].
Qed.


Lemma head_run_cons_fst w e rest :
  fst (run w (e :: rest)) = fst (run (fst (step w e)) rest).
Proof.
  simpl. destruct (step w e) as [w1 c1]. simpl. now destruct (run w1 rest).
Qed.

Lemma head_step_component w e :
  component (fst (step w e)) = fst (handle (commands w) e (component w)).
Proof. unfold step. now destruct (handle (commands w) e (component w)). Qed.

Lemma head_step_commands w e : commands (fst (step w e)) = commands w.
Proof. unfold step. now destruct (handle (commands w) e (component w)). Qed.

Lemma head_run_commands w events : commands (fst (run w events)) = commands w.
Proof.
  revert w; induction events as [|e rest IH]; intros w; [reflexivity|].
  rewrite head_run_cons_fst, IH. apply head_step_commands.
Qed.



End TalkingHeadRuns.

(** * The claims *)

(** ** Triggering a command *)

(** C1, as stated, fails on two inputs.  The transcript
    "turbulence seatbelt" contains the keyword 'seatbelt', yet the handler
    announces the turbulence text with the tag 'alert', because the table is
    searched from its first entry; and the test button writes a
    "Testing: SEATBELT" status, not the "Executing: SEATBELT" one of the
    voice path. *)
Lemma C1_counterexample_two_keywords :
  let transcript := "turbulence seatbelt" in
  let heard := CrewAvatar.onresult [] CrewAvatar.voiceCommands transcript CrewAvatar.initial in
  let tested := CrewAvatar.testCommand [] CrewAvatar.voiceCommands "seatbelt" CrewAvatar.initial in
  JS.includes (JS.toLowerCase transcript) "seatbelt" = true /\
  CrewAvatar.spoken (snd heard) = [CrewAvatar.getInstructionForCommand "turbulence"] /\
  CrewAvatar.getInstructionForCommand "turbulence" <> CrewAvatar.getInstructionForCommand "seatbelt" /\
  CrewAvatar.currentStatus (fst heard) = icon_target ++ " Executing: TURBULENCE" /\
  CrewAvatar.currentAnimation (CrewAvatar.avatarState (fst heard)) = "alert" /\
  CrewAvatar.currentStatus (fst tested) = icon_target ++ " Testing: SEATBELT" /\
  CrewAvatar.currentStatus (fst tested) <> icon_target ++ " Executing: SEATBELT".
Proof.
  cbv zeta. repeat split; try reflexivity; intros Heq; vm_compute in Heq; discriminate Heq.
Qed.

(** C1, amended: for every entry of the table of [src/App.tsx], in every
    state, (a) the instruction looked up for its keyword is the text the
    instruction object pairs with that keyword; (b) the test button of the
    entry sets the status to "Testing: KEYWORD", hands exactly that
    instruction text to the speech synthesiser and makes the entry's tag
    the current animation; (c) a recognised transcript whose lower-cased
    text contains the keyword, and the keyword of no earlier entry, sets
    the status to "Executing: KEYWORD" and speaks and animates in the same
    way. *)
Theorem C1_trigger_speaks_instruction_and_sets_animation
    (getVoices : list CrewAvatar.Voice) (s : CrewAvatar.State) (cmd : CrewAvatar.VoiceCommand) :
  In cmd CrewAvatar.voiceCommands ->
  In (CrewAvatar.text cmd, CrewAvatar.getInstructionForCommand (CrewAvatar.text cmd))
     CrewAvatar.instructions /\
  (let r := CrewAvatar.testCommand getVoices CrewAvatar.voiceCommands (CrewAvatar.text cmd) s in
   CrewAvatar.currentStatus (fst r)
     = icon_target ++ " Testing: " ++ JS.toUpperCase (CrewAvatar.text cmd) /\
   CrewAvatar.spoken (snd r) = [CrewAvatar.getInstructionForCommand (CrewAvatar.text cmd)] /\
   CrewAvatar.currentAnimation (CrewAvatar.avatarState (fst r)) = CrewAvatar.animation cmd) /\
  (forall (transcript : string) (before after : list CrewAvatar.VoiceCommand),
     CrewAvatar.voiceCommands = (before ++ cmd :: after)%list ->
     JS.occurs (CrewAvatar.text cmd) (JS.toLowerCase transcript) ->
     (forall c, In c before -> ~ JS.occurs (CrewAvatar.text c) (JS.toLowerCase transcript)) ->
     let r := CrewAvatar.onresult getVoices CrewAvatar.voiceCommands transcript s in
     CrewAvatar.currentStatus (fst r)
       = icon_target ++ " Executing: " ++ JS.toUpperCase (CrewAvatar.text cmd) /\
     CrewAvatar.spoken (snd r) = [CrewAvatar.getInstructionForCommand (CrewAvatar.text cmd)] /\
     CrewAvatar.currentAnimation (CrewAvatar.avatarState (fst r)) = CrewAvatar.animation cmd).
Proof.
  intros Hin. split; [now apply CrewAvatarFacts.instruction_in_table|]. split.
  - cbv zeta. rewrite (CrewAvatarFacts.testCommand_known getVoices cmd s Hin).
    pose proof (CrewAvatarFacts.trigger_result getVoices
                  (icon_target ++ " Testing: " ++ JS.toUpperCase (CrewAvatar.text cmd)) cmd s) as Ht.
    cbv zeta in Ht. tauto.
  - intros transcript before after Etable Hocc Hfirst. cbv zeta.
    assert (Hm : CrewAvatar.matchedCommand CrewAvatar.voiceCommands (JS.toLowerCase transcript)
                 = Some cmd).
    { apply CrewAvatarFacts.matchedCommand_first. now exists before, after. }
    rewrite (CrewAvatarFacts.onresult_matched getVoices _ _ cmd s Hm).
    rewrite andThen_fst, andThen_snd.
    pose proof (CrewAvatarFacts.trigger_result getVoices
                  (icon_target ++ " Executing: " ++ JS.toUpperCase (CrewAvatar.text cmd)) cmd
                  (fst (CrewAvatar.setAvatarState
                          (CrewAvatar.withRecognizedText (JS.toLowerCase transcript)) s))) as Ht.
    cbv zeta in Ht. tauto.
Qed.

(** The entry 'turbulence': its announcement and the tag 'alert', by the
    test button and by the transcript "Turbulence ahead". *)
Lemma C1_witness_turbulence :
  let turbulence := {| CrewAvatar.text := "turbulence"; CrewAvatar.animation := "alert" |} in
  let announcement := "Ladies and gentlemen, we are experiencing some turbulence. Please return to your seats and fasten your seatbelts immediately." in
  let tested := CrewAvatar.testCommand [] CrewAvatar.voiceCommands "turbulence" CrewAvatar.initial in
  let heard := CrewAvatar.onresult [] CrewAvatar.voiceCommands "Turbulence ahead" CrewAvatar.initial in
  In turbulence CrewAvatar.voiceCommands /\
  (CrewAvatar.currentStatus (fst tested) = icon_target ++ " Testing: TURBULENCE" /\
   CrewAvatar.spoken (snd tested) = [announcement] /\
   CrewAvatar.currentAnimation (CrewAvatar.avatarState (fst tested)) = "alert") /\
  (CrewAvatar.currentStatus (fst heard) = icon_target ++ " Executing: TURBULENCE" /\
   CrewAvatar.spoken (snd heard) = [announcement] /\
   CrewAvatar.currentAnimation (CrewAvatar.avatarState (fst heard)) = "alert").
Proof.
  cbv zeta.
  assert (Hin : In {| CrewAvatar.text := "turbulence"; CrewAvatar.animation := "alert" |}
                   CrewAvatar.voiceCommands) by (simpl; tauto).
  destruct (C1_trigger_speaks_instruction_and_sets_animation [] CrewAvatar.initial _ Hin)
    as (_ & Htest & Hheard).
  split; [exact Hin|]. split; [exact Htest|].
  apply (Hheard "Turbulence ahead" [] (tl CrewAvatar.voiceCommands) eq_refl).
  - exists EmptyString, " ahead". reflexivity.
  - intros c [].
Defined.

(** C9: in [src/App.tsx] a command matches a transcript exactly when its
    keyword occurs in the lower-cased transcript; the command chosen is the
    first entry of the table, in the order turbulence, seatbelt, landing,
    takeoff, emergency, welcome, safety, whose keyword occurs; none is
    chosen exactly when no keyword occurs; and the handler executes the
    chosen command. *)
Theorem C9_substring_matching_in_table_order (transcript : string) :
  let t := JS.toLowerCase transcript in
  (forall cmd, JS.includes t (CrewAvatar.text cmd) = true <-> JS.occurs (CrewAvatar.text cmd) t) /\
  (forall cmd,
     CrewAvatar.matchedCommand CrewAvatar.voiceCommands t = Some cmd <->
     exists before after,
       CrewAvatar.voiceCommands = (before ++ cmd :: after)%list /\
       JS.occurs (CrewAvatar.text cmd) t /\
       forall c, In c before -> ~ JS.occurs (CrewAvatar.text c) t) /\
  (CrewAvatar.matchedCommand CrewAvatar.voiceCommands t = None <->
   forall c, In c CrewAvatar.voiceCommands -> ~ JS.occurs (CrewAvatar.text c) t) /\
  map CrewAvatar.text CrewAvatar.voiceCommands
    = ["turbulence"; "seatbelt"; "landing"; "takeoff"; "emergency"; "welcome"; "safety"] /\
  (forall getVoices s cmd,
     CrewAvatar.matchedCommand CrewAvatar.voiceCommands t = Some cmd ->
     CrewAvatar.currentStatus (fst (CrewAvatar.onresult getVoices CrewAvatar.voiceCommands transcript s))
       = icon_target ++ " Executing: " ++ JS.toUpperCase (CrewAvatar.text cmd)).
Proof.
  cbv zeta. split; [intros cmd; apply JSFacts.includes_spec|].
  split; [intros cmd; apply CrewAvatarFacts.matchedCommand_first|].
  split; [apply CrewAvatarFacts.matchedCommand_none|].
  split; [reflexivity|].
  intros getVoices s cmd Hm.
  now rewrite (CrewAvatarFacts.onresult_matched getVoices _ _ cmd s Hm).
Qed.

(** "Fasten SEATBELT, there is Turbulence" names two commands; the earlier
    entry, turbulence, is the one chosen. *)
Lemma C9_witness_seatbelt_and_turbulence :
  let transcript := "Fasten SEATBELT, there is Turbulence" in
  let turbulence := {| CrewAvatar.text := "turbulence"; CrewAvatar.animation := "alert" |} in
  JS.occurs "seatbelt" (JS.toLowerCase transcript) /\
  JS.occurs "turbulence" (JS.toLowerCase transcript) /\
  CrewAvatar.matchedCommand CrewAvatar.voiceCommands (JS.toLowerCase transcript) = Some turbulence /\
  CrewAvatar.currentStatus
    (fst (CrewAvatar.onresult [] CrewAvatar.voiceCommands transcript CrewAvatar.initial))
    = icon_target ++ " Executing: TURBULENCE".
Proof.
  cbv zeta.
  destruct (C9_substring_matching_in_table_order "Fasten SEATBELT, there is Turbulence")
    as (Hincl & Hfirst & _ & _ & Hstatus).
  cbv zeta in *.
  split; [apply (Hincl {| CrewAvatar.text := "seatbelt"; CrewAvatar.animation := "instruction" |});
          reflexivity|].
  split; [apply (Hincl {| CrewAvatar.text := "turbulence"; CrewAvatar.animation := "alert" |});
          reflexivity|].
  split; [reflexivity|].
  apply (Hstatus [] CrewAvatar.initial
           {| CrewAvatar.text := "turbulence"; CrewAvatar.animation := "alert" |}).
  reflexivity.
Defined.

(** ** Transcripts that name no command *)

(** C2, as stated, fails in both iterations.  In [src/App.tsx] the result
    handler has no fallback: after "hello", which contains no keyword, the
    status is still the one written when listening began.  In the
    animated-head iteration the transcript "a" contains no keyword, yet the
    fuzzy matcher finds the seatbelt command and the fallback status is not
    written. *)
Lemma C2_counterexample_no_fallback :
  let crew :=
    fst (CrewAvatar.run [] CrewAvatar.start
           [CrewAvatar.Mount true; CrewAvatar.ClickStart; CrewAvatar.RecognitionOnStart;
            CrewAvatar.RecognitionOnResult "hello"]) in
  let o := {| TalkingHead.gestureThrows := false; TalkingHead.speakTextThrows := false |} in
  let h := {| TalkingHead.speakText_is_function := true;
              TalkingHead.stopSpeaking_is_function := true |} in
  let head :=
    fst (TalkingHead.run TalkingHead.start
           [TalkingHead.Mount true; TalkingHead.AvatarLoaded h; TalkingHead.ClickVoiceCommand;
            TalkingHead.RecognitionOnResult "a" o]) in
  forallb (fun cmd => negb (JS.includes "hello" (CrewAvatar.text cmd))) CrewAvatar.voiceCommands = true /\
  CrewAvatar.recognizedText (CrewAvatar.avatarState (CrewAvatar.component crew)) = "hello" /\
  CrewAvatar.currentStatus (CrewAvatar.component crew)
    = icon_microphone ++ " Listening for command..." /\
  forallb (fun cmd => negb (JS.includes "a" (TalkingHead.command cmd))) TalkingHead.voiceCommands = true /\
  option_map TalkingHead.command (TalkingHead.matchedCommand TalkingHead.voiceCommands "a")
    = Some "seatbelt" /\
  String.eqb (TalkingHead.currentStatus (TalkingHead.component head))
             (TalkingHead.notRecognized TalkingHead.voiceCommands "a") = false.
Proof. cbv zeta. repeat split; vm_compute; reflexivity. Qed.

(** C2, amended: in the animated-head iteration, a recognised transcript
    (lower-cased and trimmed) in which no keyword occurs, and of which no
    space-separated word occurs in a keyword, makes the result handler log
    the transcript and set the status to the fallback message, which quotes
    the transcript and lists the six keywords; in [src/App.tsx] the result
    handler has no fallback message: a transcript in which no keyword
    occurs is recorded as the recognised text, and the status stays as it
    was. *)
Theorem C2_unmatched_transcript_status
    (raw : string) (rec : TalkingHead.Recognition) (o : TalkingHead.Outcome)
    (s : TalkingHead.State) :
  let transcript := JS.trim (JS.toLowerCase raw) in
  (forall cmd, In cmd TalkingHead.voiceCommands ->
               ~ JS.occurs (TalkingHead.command cmd) transcript) ->
  (forall cmd word, In cmd TalkingHead.voiceCommands -> In word (JS.split transcript) ->
                    ~ JS.occurs word (TalkingHead.command cmd)) ->
  (let r := TalkingHead.onresult TalkingHead.voiceCommands rec raw o s in
   TalkingHead.currentStatus (fst r)
     = icon_question ++ " Command " ++ TalkingHead.doubleQuote ++ transcript
       ++ TalkingHead.doubleQuote
       ++ " not recognized. Try: turbulence, seatbelt, landing, safety, welcome, emergency" /\
   snd r = [TalkingHead.ConsoleLog "Voice recognized:" transcript]) /\
  (forall getVoices transcript' s',
     (forall cmd, In cmd CrewAvatar.voiceCommands ->
                  ~ JS.occurs (CrewAvatar.text cmd) (JS.toLowerCase transcript')) ->
     let r := CrewAvatar.onresult getVoices CrewAvatar.voiceCommands transcript' s' in
     CrewAvatar.currentStatus (fst r) = CrewAvatar.currentStatus s' /\
     CrewAvatar.recognizedText (CrewAvatar.avatarState (fst r)) = JS.toLowerCase transcript' /\
     snd r = []).
Proof.
  cbv zeta. intros Hkey Hword. split.
  - rewrite TalkingHeadFacts.head_onresult_unmatched
      by (now apply TalkingHeadFacts.unmatched_when).
    split; reflexivity.
  - intros getVoices transcript' s' Hnone.
    rewrite CrewAvatarFacts.onresult_unmatched
      by (now apply CrewAvatarFacts.matchedCommand_none).
    repeat split.
Qed.

(** " Hello World " names no command: the fallback message is written. *)
Lemma C2_witness_hello_world :
  let o := {| TalkingHead.gestureThrows := false; TalkingHead.speakTextThrows := false |} in
  let rec := {| TalkingHead.closure_isAvatarReady := false |} in
  let r := TalkingHead.onresult TalkingHead.voiceCommands rec " Hello World " o
             TalkingHead.initial in
  JS.trim (JS.toLowerCase " Hello World ") = "hello world" /\
  (forall cmd, In cmd TalkingHead.voiceCommands ->
               ~ JS.occurs (TalkingHead.command cmd) "hello world") /\
  (forall cmd word, In cmd TalkingHead.voiceCommands -> In word (JS.split "hello world") ->
                    ~ JS.occurs word (TalkingHead.command cmd)) /\
  TalkingHead.currentStatus (fst r)
    = icon_question ++ " Command " ++ TalkingHead.doubleQuote ++ "hello world"
      ++ TalkingHead.doubleQuote
      ++ " not recognized. Try: turbulence, seatbelt, landing, safety, welcome, emergency" /\
  snd r = [TalkingHead.ConsoleLog "Voice recognized:" "hello world"].
Proof.
  cbv zeta.
  assert (Hkey : forall cmd, In cmd TalkingHead.voiceCommands ->
                             ~ JS.occurs (TalkingHead.command cmd) "hello world").
  { intros cmd Hin Hocc. apply JSFacts.includes_spec in Hocc.
    CrewAvatarFacts.each_entry Hin; vm_compute in Hocc; discriminate Hocc. }
  assert (Hword : forall cmd word, In cmd TalkingHead.voiceCommands ->
                                   In word (JS.split "hello world") ->
                                   ~ JS.occurs word (TalkingHead.command cmd)).
  { intros cmd word Hin Hw Hocc. apply JSFacts.includes_spec in Hocc.
    simpl in Hw. destruct Hw as [<- | [<- | []]];
      CrewAvatarFacts.each_entry Hin; vm_compute in Hocc; discriminate Hocc. }
  split; [reflexivity|]. split; [exact Hkey|]. split; [exact Hword|].
  exact (proj1 (C2_unmatched_transcript_status " Hello World "
                  {| TalkingHead.closure_isAvatarReady := false |}
                  {| TalkingHead.gestureThrows := false; TalkingHead.speakTextThrows := false |}
                  TalkingHead.initial Hkey Hword)).
Defined.

(** C10: in the animated-head iteration a command matches a transcript as
    soon as one space-separated word of the transcript occurs in the
    command's keyword, whatever the length of the word.  The one-letter
    transcript "a" occurs in 'seatbelt': the matcher returns the seatbelt
    command, and the result handler, after logging the transcript, is the
    call of [executeCommand] on that command, not the write of the
    not-recognised status; where that call finds the avatar ready, the
    seatbelt instruction is spoken. *)
Theorem C10_fuzzy_match_has_no_minimum_length :
  (forall (transcript word : string) (cmd : TalkingHead.VoiceCommand),
     In word (JS.split transcript) ->
     JS.occurs word (TalkingHead.command cmd) ->
     TalkingHead.fuzzy transcript cmd = true) /\
  exists seatbelt,
    nth_error TalkingHead.voiceCommands 1 = Some seatbelt /\
    TalkingHead.command seatbelt = "seatbelt" /\
    String.length "a" = 1 /\
    JS.occurs "a" (TalkingHead.command seatbelt) /\
    TalkingHead.matchedCommand TalkingHead.voiceCommands "a" = Some seatbelt /\
    (forall rec o s,
       TalkingHead.onresult TalkingHead.voiceCommands rec "a" o s
       = (call (TalkingHead.ConsoleLog "Voice recognized:" "a") >>
          TalkingHead.executeCommand (TalkingHead.closure_isAvatarReady rec) o seatbelt) s) /\
    (forall rec o s,
       TalkingHead.closure_isAvatarReady rec = true ->
       In (AudioSpec.TextToSpeech (TalkingHead.instruction seatbelt))
          (AudioSpec.sounds
             (snd (TalkingHead.onresult TalkingHead.voiceCommands rec "a" o s)))).
Proof.
  split.
  - intros transcript word cmd Hin Hocc.
    apply TalkingHeadFacts.fuzzy_spec. exists word. tauto.
  - eexists. split; [reflexivity|]. split; [reflexivity|]. split; [reflexivity|].
    split; [now exists "se", "tbelt"|]. split; [reflexivity|].
    split.
    + intros rec o s. now apply TalkingHeadFacts.head_onresult_matched.
    + intros rec o s Hready.
      rewrite (TalkingHeadFacts.head_onresult_matched TalkingHead.voiceCommands rec "a" o _ s
                 eq_refl).
      rewrite andThen_snd, sounds_app. cbn [call snd fst AudioSpec.sounds app].
      rewrite TalkingHeadFacts.executeCommand_sounds, Hready. cbv zeta. cbn [negb].
      destruct (TalkingHead.avatarRef s) as [head|]; [|now left].
      destruct (TalkingHead.speakText_is_function head && TalkingHead.speakTextThrows o);
        now left.
Qed.

(** The transcript "fasten a belt" has the word "a"; the seatbelt command
    matches it. *)
Lemma C10_witness_filler_word :
  let seatbelt :=
    {| TalkingHead.command := "seatbelt";
       TalkingHead.instruction := "The seatbelt sign has been turned on. Please fasten your seatbelts and return your seats to the upright position.";
       TalkingHead.gesture := Some "point" |} in
  In "a" (JS.split "fasten a belt") /\
  JS.occurs "a" (TalkingHead.command seatbelt) /\
  TalkingHead.fuzzy "fasten a belt" seatbelt = true.
Proof.
  cbv zeta.
  assert (Hin : In "a" (JS.split "fasten a belt")) by (simpl; tauto).
  assert (Hocc : JS.occurs "a" "seatbelt") by (now exists "se", "tbelt").
  split; [exact Hin|]. split; [exact Hocc|].
  exact (proj1 C10_fuzzy_match_has_no_minimum_length "fasten a belt" "a"
           {| TalkingHead.command := "seatbelt";
              TalkingHead.instruction := "The seatbelt sign has been turned on. Please fasten your seatbelts and return your seats to the upright position.";
              TalkingHead.gesture := Some "point" |} Hin Hocc).
Defined.

(** ** Audio files *)







(** ** The listening flag *)

(** Runs keep the invariant, and split at an append. *)
Lemma crew_run_app (getVoices : list CrewAvatar.Voice) (a b : list CrewAvatar.Event) :
  forall w,
    fst (CrewAvatar.run getVoices w (a ++ b))
    = fst (CrewAvatar.run getVoices (fst (CrewAvatar.run getVoices w a)) b).
Proof.
  induction a as [|e a IH]; intros w; [reflexivity|].
  rewrite <- app_comm_cons, !CrewAvatarRuns.run_cons_fst. apply IH.
Qed.








(** ** The speaking flag *)

(** C5 at the input on which the code departs from it.  The welcome
    command is tested and the synthesiser reports an error for the
    utterance; an utterance that ends in an error gets no end event.  The
    utterance has no [onerror] callback, so the flag stays up, with the
    test and start buttons disabled; it stays up along every run in which
    no end event of an utterance comes.  The same in the animated-head
    iteration, with the fallback avatar. *)
Theorem C5_speaking_flag_after_failed_synthesis :
  (let r := CrewAvatar.run [] CrewAvatar.start
              [CrewAvatar.Mount true; CrewAvatar.ClickTest "welcome";
               CrewAvatar.UtteranceError "synthesis-failed"] in
   CrewAvatar.spoken (snd r)
     = ["Welcome aboard this flight. We hope you have a pleasant journey with us today."] /\
   CrewAvatar.isSpeaking (CrewAvatar.component (fst r)) = true /\
   CrewAvatar.testDisabled (CrewAvatar.component (fst r)) = true /\
   CrewAvatar.startDisabled (CrewAvatar.component (fst r)) = true) /\
  (forall getVoices w events,
     CrewAvatar.isSpeaking (CrewAvatar.component w) = true ->
     ~ In CrewAvatar.UtteranceEnd events ->
     CrewAvatar.isSpeaking (CrewAvatar.component (fst (CrewAvatar.run getVoices w events))) = true) /\
  (let o := {| TalkingHead.gestureThrows := false; TalkingHead.speakTextThrows := false |} in
   let r := TalkingHead.run TalkingHead.start
              [TalkingHead.Mount true; TalkingHead.AvatarFailed true true;
               TalkingHead.ClickTest "welcome" o;
               TalkingHead.UtteranceError "synthesis-failed"] in
   AudioSpec.sounds (snd r)
     = [AudioSpec.TextToSpeech "Welcome aboard this flight. We hope you have a pleasant journey with us today."] /\
   TalkingHead.isSpeaking (TalkingHead.component (fst r)) = true /\
   TalkingHead.testDisabled (TalkingHead.component (fst r)) = true).
Proof.
  split; [cbv zeta; repeat split|]. split; [|cbv zeta; repeat split].
  intros getVoices w events. apply CrewAvatarRuns.speaking_until_onend.
Qed.

(** ** Recognition errors *)

(** C6: in both iterations the error handler of the recogniser, for every
    error and in every state, writes the error notification to the status
    text and lowers the listening flag; it logs the error and makes no
    other call, so the engine is not started again; it leaves the
    recognition object and the rest of the state as they were, and a later
    start of listening calls the engine's [start] exactly as before the
    error. *)
Theorem C6_recognition_error_is_reported (error : string) :
  (forall s,
     let r := CrewAvatar.onerror error s in
     CrewAvatar.currentStatus (fst r)
       = icon_microphone ++ " Voice recognition error. Please try again." /\
     CrewAvatar.isListening (CrewAvatar.avatarState (fst r)) = false /\
     snd r = [CrewAvatar.ConsoleLog "Speech recognition error:" error] /\
     CrewAvatar.recognitionRef (fst r) = CrewAvatar.recognitionRef s /\
     CrewAvatar.isSpeaking (fst r) = CrewAvatar.isSpeaking s /\
     CrewAvatar.avatarState (fst r) = CrewAvatar.withIsListening false (CrewAvatar.avatarState s) /\
     snd (CrewAvatar.startListening (fst r))
       = match CrewAvatar.recognitionRef s with
         | Some _ => [CrewAvatar.RecognitionStart]
         | None => []
         end) /\
  (forall s,
     let r := TalkingHead.onerror error s in
     TalkingHead.currentStatus (fst r)
       = icon_microphone ++ " Voice recognition error. Please try again." /\
     TalkingHead.isListening (fst r) = false /\
     snd r = [TalkingHead.ConsoleError "Speech recognition error:"] /\
     TalkingHead.speechRecognition (fst r) = TalkingHead.speechRecognition s /\
     TalkingHead.isSpeaking (fst r) = TalkingHead.isSpeaking s /\
     TalkingHead.isAvatarReady (fst r) = TalkingHead.isAvatarReady s /\
     TalkingHead.avatarRef (fst r) = TalkingHead.avatarRef s /\
     snd (TalkingHead.startListening (fst r))
       = match TalkingHead.speechRecognition s with
         | Some _ => [TalkingHead.RecognitionStart]
         | None => []
         end).
Proof.
  split; intros s; cbv zeta.
  - repeat split. cbn. now destruct (CrewAvatar.recognitionRef s).
  - repeat split. cbn. now destruct (TalkingHead.speechRecognition s).
Qed.

(** ** The command table *)

(** The array is a cell that a handler can write: an assignment to it
    changes what the page holds. *)
Remark crew_array_can_be_written :
  exists h : CrewAvatarPage.P,
    CrewAvatar.commands (fst (h CrewAvatar.start)) <> CrewAvatar.commands CrewAvatar.start.
Proof. exists (update (CrewAvatarPage.setCommands [])). discriminate. Qed.

Remark head_array_can_be_written :
  exists h : TalkingHeadPage.P,
    TalkingHead.commands (fst (h TalkingHead.start)) <> TalkingHead.commands TalkingHead.start.
Proof. exists (update (TalkingHeadPage.setCommands [])). discriminate. Qed.

(** No handler of [src/App.tsx] writes the array: [find] is the one method
    called on it. *)
Lemma crew_page_handle_keeps_the_array (getVoices : list CrewAvatar.Voice)
    (e : CrewAvatar.Event) :
  preserves CrewAvatar.commands (CrewAvatarPage.handle getVoices e).
Proof.
  destruct e as [sup| | | |k| |t|err| | |err|[|]];
    unfold CrewAvatarPage.handle, CrewAvatarPage.onresult, CrewAvatarPage.testCommand,
      CrewAvatarPage.voiceCommands_find, CrewAvatarPage.inComponent; cbv zeta; frame.
Qed.

Lemma crew_page_run_keeps_the_array (getVoices : list CrewAvatar.Voice)
    (events : list CrewAvatar.Event) : forall w,
  CrewAvatar.commands (fst (CrewAvatarPage.run getVoices w events)) = CrewAvatar.commands w.
Proof.
  induction events as [|e rest IH]; intros w; [reflexivity|].
  cbn [CrewAvatarPage.run].
  pose proof (crew_page_handle_keeps_the_array getVoices e w) as He.
  destruct (CrewAvatarPage.handle getVoices e w) as [w1 c1]. cbn [fst] in He.
  specialize (IH w1).
  destruct (CrewAvatarPage.run getVoices w1 rest) as [w2 c2]. cbn [fst] in *.
  congruence.
Qed.

(** A handler that keeps the array does on the page what it does on the
    component state with the array held fixed. *)
Lemma crew_page_handle_is_step (getVoices : list CrewAvatar.Voice)
    (e : CrewAvatar.Event) (w : CrewAvatar.World) :
  CrewAvatarPage.handle getVoices e w = CrewAvatar.step getVoices w e.
Proof.
  destruct w as [array s].
  destruct e as [sup| | | |k| |t|err| | |err|[|]]; try reflexivity.
  - unfold CrewAvatarPage.handle, CrewAvatar.step, CrewAvatar.handle,
      CrewAvatar.unlessDisabled, reading. cbn [CrewAvatar.component CrewAvatar.commands].
    destruct (CrewAvatar.testDisabled s); [reflexivity|].
    unfold CrewAvatarPage.testCommand, CrewAvatar.testCommand,
      CrewAvatarPage.voiceCommands_find, reading. cbn [CrewAvatar.commands].
    destruct (find _ array); reflexivity.
  - unfold CrewAvatarPage.handle, CrewAvatar.step, CrewAvatar.handle, reading.
    cbn [CrewAvatar.component CrewAvatar.commands].
    destruct (CrewAvatar.recognitionRef s); [|reflexivity].
    unfold CrewAvatarPage.onresult, CrewAvatar.onresult, CrewAvatar.matchedCommand,
      CrewAvatarPage.voiceCommands_find, reading, andThen. cbv zeta.
    cbn [CrewAvatarPage.inComponent within CrewAvatarPage.setComponent
         CrewAvatar.setAvatarState update CrewAvatar.component CrewAvatar.commands].
    destruct (find _ array); reflexivity.
Qed.

Lemma crew_page_run_is_run (getVoices : list CrewAvatar.Voice)
    (events : list CrewAvatar.Event) : forall w,
  CrewAvatarPage.run getVoices w events = CrewAvatar.run getVoices w events.
Proof.
  induction events as [|e rest IH]; intros w; [reflexivity|].
  cbn [CrewAvatarPage.run CrewAvatar.run]. rewrite crew_page_handle_is_step.
  destruct (CrewAvatar.step getVoices w e) as [w1 c1]. now rewrite IH.
Qed.

(** No handler of the animated-head iteration writes the array: [find] and
    [map] are the methods called on it, and [executeCommand] reads the
    fields of its entry. *)
Lemma head_page_handle_keeps_the_array (e : TalkingHead.Event) :
  preserves TalkingHead.commands (TalkingHeadPage.handle e).
Proof.
  destruct e as [sup|head|m c| | |k o| |raw o|err| | |err];
    unfold TalkingHeadPage.handle, TalkingHeadPage.onresult, TalkingHeadPage.testCommand,
      TalkingHeadPage.executeCommand, TalkingHeadPage.voiceCommands_find,
      TalkingHeadPage.voiceCommands_map, TalkingHeadPage.inComponent; cbv zeta; frame.
Qed.

Lemma head_page_run_keeps_the_array (events : list TalkingHead.Event) : forall w,
  TalkingHead.commands (fst (TalkingHeadPage.run w events)) = TalkingHead.commands w.
Proof.
  induction events as [|e rest IH]; intros w; [reflexivity|].
  cbn [TalkingHeadPage.run].
  pose proof (head_page_handle_keeps_the_array e w) as He.
  destruct (TalkingHeadPage.handle e w) as [w1 c1]. cbn [fst] in He.
  specialize (IH w1).
  destruct (TalkingHeadPage.run w1 rest) as [w2 c2]. cbn [fst] in *.
  congruence.
Qed.

Lemma head_page_handle_is_step (e : TalkingHead.Event) (w : TalkingHead.World) :
  TalkingHeadPage.handle e w = TalkingHead.step w e.
Proof.
  destruct w as [array s].
  destruct e as [sup|head|m c| | |k o| |raw o|err| | |err]; try reflexivity.
  - unfold TalkingHeadPage.handle, TalkingHead.step, TalkingHead.handle,
      TalkingHead.unlessDisabled, reading. cbn [TalkingHead.component TalkingHead.commands].
    destruct (TalkingHead.testDisabled s); [reflexivity|].
    unfold TalkingHeadPage.testCommand, TalkingHead.testCommand,
      TalkingHeadPage.voiceCommands_find, reading. cbn [TalkingHead.commands].
    destruct (find _ array); reflexivity.
  - unfold TalkingHeadPage.handle, TalkingHead.step, TalkingHead.handle, reading.
    cbn [TalkingHead.component TalkingHead.commands].
    destruct (TalkingHead.speechRecognition s) as [rec|]; [|reflexivity].
    unfold TalkingHeadPage.onresult, TalkingHead.onresult, TalkingHead.matchedCommand,
      TalkingHeadPage.voiceCommands_find, TalkingHeadPage.voiceCommands_map,
      TalkingHead.notRecognized, reading, andThen. cbv zeta.
    cbn [TalkingHeadPage.inComponent within TalkingHeadPage.setComponent call
         TalkingHead.component TalkingHead.commands].
    destruct (find _ array); [|reflexivity].
    unfold TalkingHeadPage.executeCommand, TalkingHeadPage.inComponent, within,
      TalkingHeadPage.setComponent.
    cbn [TalkingHead.component TalkingHead.commands].
    destruct (TalkingHead.executeCommand _ o v s); reflexivity.
Qed.

Lemma head_page_run_is_run (events : list TalkingHead.Event) : forall w,
  TalkingHeadPage.run w events = TalkingHead.run w events.
Proof.
  induction events as [|e rest IH]; intros w; [reflexivity|].
  cbn [TalkingHeadPage.run TalkingHead.run]. rewrite head_page_handle_is_step.
  destruct (TalkingHead.step w e) as [w1 c1]. now rewrite IH.
Qed.

(** C7: the command array is a cell of the page that every handler could
    write, and none does.  In both iterations every event leaves the array
    as it was, so along every run from the start the array is the table
    written in the source; a lookup sees the tuples of the source (in
    [src/App.tsx] the keyword, the instruction text of
    [getInstructionForCommand], never its fallback, and the animation tag;
    in the animated-head iteration the entry itself); the matcher of the
    result handler and the search of the test button give what they give
    on that table; and the test of a keyword of the table makes the calls
    of its entry.  Hence the page runs as its component state does with
    the array held fixed. *)
Theorem C7_command_table_is_static :
  (forall getVoices e,
     preserves CrewAvatar.commands (CrewAvatarPage.handle getVoices e)) /\
  (forall getVoices events,
     let w := fst (CrewAvatarPage.run getVoices CrewAvatar.start events) in
     CrewAvatar.commands w = CrewAvatar.voiceCommands /\
     map CrewAvatarPage.tuple (CrewAvatar.commands w)
     = combine (combine (map CrewAvatar.text CrewAvatar.voiceCommands)
                        (map snd CrewAvatar.instructions))
               (map CrewAvatar.animation CrewAvatar.voiceCommands) /\
     (forall t, CrewAvatar.matchedCommand (CrewAvatar.commands w) t
                = CrewAvatar.matchedCommand CrewAvatar.voiceCommands t) /\
     (forall k, find (fun cmd => String.eqb (CrewAvatar.text cmd) k) (CrewAvatar.commands w)
                = find (fun cmd => String.eqb (CrewAvatar.text cmd) k) CrewAvatar.voiceCommands) /\
     Forall (fun cmd => snd (CrewAvatarPage.testCommand getVoices (CrewAvatar.text cmd) w)
                        = CrewAvatarCalls.triggerCalls getVoices cmd)
            CrewAvatar.voiceCommands) /\
  (forall getVoices w events,
     CrewAvatarPage.run getVoices w events = CrewAvatar.run getVoices w events) /\
  (forall e, preserves TalkingHead.commands (TalkingHeadPage.handle e)) /\
  (forall events,
     let w := fst (TalkingHeadPage.run TalkingHead.start events) in
     TalkingHead.commands w = TalkingHead.voiceCommands /\
     (forall t, TalkingHead.matchedCommand (TalkingHead.commands w) t
                = TalkingHead.matchedCommand TalkingHead.voiceCommands t) /\
     (forall k, find (fun cmd => String.eqb (TalkingHead.command cmd) k) (TalkingHead.commands w)
                = find (fun cmd => String.eqb (TalkingHead.command cmd) k) TalkingHead.voiceCommands) /\
     Forall (fun cmd =>
               forall o,
                 snd (TalkingHeadPage.testCommand (TalkingHead.command cmd) o w)
                 = snd (TalkingHead.executeCommand
                          (TalkingHead.isAvatarReady (TalkingHead.component w)) o cmd
                          (TalkingHead.component w)))
            TalkingHead.voiceCommands) /\
  (forall w events, TalkingHeadPage.run w events = TalkingHead.run w events).
Proof.
  split; [exact crew_page_handle_keeps_the_array|].
  split.
  { intros getVoices events. cbv zeta.
    pose proof (crew_page_run_keeps_the_array getVoices events CrewAvatar.start) as Hw.
    change (CrewAvatar.commands CrewAvatar.start) with CrewAvatar.voiceCommands in Hw.
    split; [exact Hw|]. rewrite Hw.
    split; [reflexivity|]. split; [reflexivity|]. split; [reflexivity|].
    apply Forall_forall. intros cmd Hin.
    unfold CrewAvatarPage.testCommand, CrewAvatarPage.voiceCommands_find, reading.
    rewrite Hw, (CrewAvatarFacts.testCommand_finds cmd Hin).
    unfold CrewAvatarPage.inComponent. rewrite within_snd. reflexivity. }
  split; [intros; apply crew_page_run_is_run|].
  split; [exact head_page_handle_keeps_the_array|].
  split; [|intros; apply head_page_run_is_run].
  intros events. cbv zeta.
  pose proof (head_page_run_keeps_the_array events TalkingHead.start) as Hw.
  change (TalkingHead.commands TalkingHead.start) with TalkingHead.voiceCommands in Hw.
  split; [exact Hw|]. rewrite Hw.
  split; [reflexivity|]. split; [reflexivity|].
  apply Forall_forall. intros cmd Hin o.
  unfold TalkingHeadPage.testCommand, TalkingHeadPage.voiceCommands_find, reading.
  rewrite Hw.
  assert (Hfind : find (fun c => String.eqb (TalkingHead.command c) (TalkingHead.command cmd))
                       TalkingHead.voiceCommands = Some cmd)
    by (CrewAvatarFacts.each_entry Hin; reflexivity).
  rewrite Hfind. unfold TalkingHeadPage.executeCommand, TalkingHeadPage.inComponent.
  now rewrite within_snd.
Qed.

(** ** The breathing transform *)

(** C8: with real numbers for the numbers of the program, at every frame
    time the callback of the fallback avatar, in [src/App.tsx] and in the
    older copy, writes [sin (time * 2) * 0.02 + 1] to the vertical scale of
    the mounted group, whatever the animation tag, the lip-sync flag and
    the transform before; that value lies between 0.98 and 1.02; and with
    no group mounted the callback writes nothing. *)
Theorem C8_breathing_scale_closed_form
    (time : R) (animation : string) (lipSyncActive : bool) (g : Scene.Group) :
  (exists g1 g2,
     Scene.FallbackAvatar_useFrame time animation lipSyncActive (Some g) = Some g1 /\
     Scene.FallbackAvatar_useFrame_older time animation lipSyncActive (Some g) = Some g2 /\
     Scene.scale_y g1 = (sin (time * 2) * 0.02 + 1)%R /\
     Scene.scale_y g2 = (sin (time * 2) * 0.02 + 1)%R /\
     (0.98 <= Scene.scale_y g1 <= 1.02)%R /\
     (0.98 <= Scene.scale_y g2 <= 1.02)%R) /\
  Scene.FallbackAvatar_useFrame time animation lipSyncActive None = None /\
  Scene.FallbackAvatar_useFrame_older time animation lipSyncActive None = None.
Proof.
  assert (Hkeep : forall g0, Scene.scale_y (Scene.animationEffects time animation g0)
                             = Scene.scale_y g0).
  { intros g0. unfold Scene.animationEffects.
    repeat (destruct (String.eqb animation _); [reflexivity|]). reflexivity. }
  assert (Hrange : (0.98 <= sin (time * 2) * 0.02 + 1 <= 1.02)%R).
  { pose proof (SIN_bound (time * 2)) as [Hlo Hhi]. split; lra. }
  split; [|split; reflexivity].
  eexists. eexists. split; [reflexivity|]. split; [reflexivity|].
  rewrite !Hkeep.
  assert (E2 : Scene.scale_y
                 (if lipSyncActive
                  then Scene.set_rotation_x (sin (time * 8) * 0.3 * 0.1)
                         (Scene.set_scale_y (sin (time * 2) * 0.02 + 1) g)
                  else Scene.set_scale_y (sin (time * 2) * 0.02 + 1) g)
               = (sin (time * 2) * 0.02 + 1)%R) by (now destruct lipSyncActive).
  cbn [Scene.scale_y Scene.set_scale_y]. rewrite E2.
  repeat split; try apply Hrange.
Qed.

(** ** Further properties *)

Lemma closure_not_ready_run (events : list TalkingHead.Event) :
  forall w,
    TalkingHead.closure_not_ready (TalkingHead.component w) ->
    existsb TalkingHead.isMount events = false ->
    TalkingHead.closure_not_ready (TalkingHead.component (fst (TalkingHead.run w events))).
Proof.
  induction events as [|e rest IH]; intros w Hw Hm; [exact Hw|].
  cbn in Hm. apply orb_false_elim in Hm as [He Hrest].
  rewrite TalkingHeadRuns.head_run_cons_fst. apply IH; [|exact Hrest].
  rewrite TalkingHeadRuns.head_step_component.
  destruct (TalkingHeadRuns.handle_recognition_frame (TalkingHead.commands w) e)
    as [[sup ->] | Hp]; [discriminate He|].
  unfold TalkingHead.closure_not_ready. now rewrite Hp.
Qed.

(** In the animated-head iteration the recognition effect runs once, after
    the first render, and the [executeCommand] its result handler calls
    belongs to that render, in which the avatar is not ready.  So in every
    run that starts with the mount effect and has no second one, a result
    of the recogniser makes no sound, whatever it matches and whether or
    not the avatar has been loaded since: the one call it makes is the log
    of the transcript. *)
Theorem voice_results_run_with_the_first_render
    (supported : bool) (events : list TalkingHead.Event)
    (raw : string) (o : TalkingHead.Outcome) :
  existsb TalkingHead.isMount events = false ->
  let w := fst (TalkingHead.run TalkingHead.start (TalkingHead.Mount supported :: events)) in
  let calls := snd (TalkingHead.step w (TalkingHead.RecognitionOnResult raw o)) in
  AudioSpec.sounds calls = [] /\
  (calls = [] \/
   calls = [TalkingHead.ConsoleLog "Voice recognized:" (JS.trim (JS.toLowerCase raw))]).
Proof.
  intros Hm. cbv zeta.
  assert (Hinv : TalkingHead.closure_not_ready
                   (TalkingHead.component
                      (fst (TalkingHead.run TalkingHead.start
                              (TalkingHead.Mount supported :: events))))).
  { rewrite TalkingHeadRuns.head_run_cons_fst.
    apply closure_not_ready_run; [|exact Hm].
    destruct supported; intros rec; cbn; [intros [= <-]; reflexivity | discriminate]. }
  set (w := fst (TalkingHead.run TalkingHead.start (TalkingHead.Mount supported :: events))) in *.
  assert (Hcalls :
    snd (TalkingHead.step w (TalkingHead.RecognitionOnResult raw o)) = [] \/
    snd (TalkingHead.step w (TalkingHead.RecognitionOnResult raw o))
    = [TalkingHead.ConsoleLog "Voice recognized:" (JS.trim (JS.toLowerCase raw))]).
  { unfold TalkingHead.step.
    destruct (TalkingHead.handle (TalkingHead.commands w)
                (TalkingHead.RecognitionOnResult raw o) (TalkingHead.component w))
      as [s1 c1] eqn:Eh.
    cbn [snd]. replace c1 with (snd (s1, c1)) by reflexivity. rewrite <- Eh.
    unfold TalkingHead.handle, reading.
    destruct (TalkingHead.speechRecognition (TalkingHead.component w)) as [rec|] eqn:Er;
      [|now left].
    right. unfold TalkingHead.onresult. cbv zeta.
    destruct (TalkingHead.matchedCommand (TalkingHead.commands w) _) as [cmd|];
      [|reflexivity].
    rewrite andThen_snd. rewrite (Hinv rec Er). reflexivity. }
  split; [|exact Hcalls].
  destruct Hcalls as [-> | ->]; reflexivity.
Qed.

(** The avatar is loaded, listening begins and "seatbelt" is recognised:
    nothing is spoken. *)
Lemma voice_results_witness_seatbelt :
  let h := {| TalkingHead.speakText_is_function := true;
              TalkingHead.stopSpeaking_is_function := true |} in
  let o := {| TalkingHead.gestureThrows := false; TalkingHead.speakTextThrows := false |} in
  let events := [TalkingHead.AvatarLoaded h; TalkingHead.ClickVoiceCommand] in
  let w := fst (TalkingHead.run TalkingHead.start (TalkingHead.Mount true :: events)) in
  let calls := snd (TalkingHead.step w (TalkingHead.RecognitionOnResult "seatbelt" o)) in
  existsb TalkingHead.isMount events = false /\
  TalkingHead.isAvatarReady (TalkingHead.component w) = true /\
  AudioSpec.sounds calls = [].
Proof.
  cbv zeta. split; [reflexivity|]. split; [reflexivity|].
  exact (proj1 (voice_results_run_with_the_first_render true
                  [TalkingHead.AvatarLoaded
                     {| TalkingHead.speakText_is_function := true;
                        TalkingHead.stopSpeaking_is_function := true |};
                   TalkingHead.ClickVoiceCommand]
                  "seatbelt"
                  {| TalkingHead.gestureThrows := false; TalkingHead.speakTextThrows := false |}
                  eq_refl)).
Defined.

(** The hosted avatar of [src/App.tsx] scales the breathing value by the
    animation: with the tag 'alert' its vertical scale is the breathing
    value times 1.05, between 1.029 and 1.071; with any other tag it is
    the breathing value. *)
Theorem hosted_avatar_scale_under_alert
    (time : R) (animation : string) (lipSyncActive : bool) (g : Scene.Group) :
  exists g1,
    Scene.ReadyPlayerMeAvatar_useFrame time animation lipSyncActive (Some g) = Some g1 /\
    Scene.scale_y g1
    = ((sin (time * 2) * 0.02 + 1) * (if String.eqb animation "alert" then 1.05 else 1.0))%R /\
    (if String.eqb animation "alert"
     then (1.029 <= Scene.scale_y g1 <= 1.071)%R
     else (0.98 <= Scene.scale_y g1 <= 1.02)%R).
Proof.
  eexists. split; [reflexivity|].
  assert (E : forall v,
             Scene.scale_y
               (if lipSyncActive
                then Scene.set_rotation_x (sin (time * 8) * 0.3 * 0.1) (Scene.set_scale_y v g)
                else Scene.set_scale_y v g) = v) by (intros v; now destruct lipSyncActive).
  rewrite E. split; [reflexivity|].
  pose proof (SIN_bound (time * 2)) as [Hlo Hhi].
  destruct (String.eqb animation "alert"); split; lra.
Qed.

(** ** The face of the fallback avatar, frame after frame *)
Module FaceFacts.
Import Face.
Local Open Scope R_scope.

Lemma renderAll_cons (r : Refs) (f : Frame) (frames : list Frame) :
  renderAll r (f :: frames) = renderAll (render r f) frames.
Proof. reflexivity. Qed.

(** The group of the face is the group of [Scene.FallbackAvatar_useFrame]. *)
Lemma useFrame_group (time random : R) (animation : string) (lipSyncActive : bool) (r : Refs) :
  avatarRef (useFrame time random animation lipSyncActive r)
  = Scene.FallbackAvatar_useFrame time animation lipSyncActive (avatarRef r).
Proof.
  unfold useFrame. destruct (avatarRef r) eqn:E; [reflexivity|].
  rewrite E. reflexivity.
Qed.

Lemma renderAll_group (frames : list Frame) : forall r g,
  avatarRef r = Some g ->
  avatarRef (renderAll r frames) = Some (fold_left renderGroup frames g).
Proof.
  induction frames as [|f rest IH]; intros r g Hg; [exact Hg|].
  rewrite renderAll_cons. apply IH.
  unfold render. rewrite useFrame_group, Hg. reflexivity.
Qed.

Lemma renderAll_eyes (frames : list Frame) : forall r g e,
  avatarRef r = Some g -> eyesRef r = Some e ->
  exists e',
    eyesRef (renderAll r frames) = Some e' /\
    children e' = map (fun c => fold_left renderChild frames c) (children e).
Proof.
  induction frames as [|f rest IH]; intros r g e Hg He.
  - exists e. split; [exact He|]. now rewrite map_id.
  - rewrite renderAll_cons.
    assert (Hg1 : exists g1, avatarRef (render r f) = Some g1).
    { unfold render. rewrite useFrame_group, Hg. now eexists. }
    destruct Hg1 as [g1 Hg1].
    assert (He1 : exists e1, eyesRef (render r f) = Some e1 /\
                             children e1 = map (fun c => renderChild c f) (children e)).
    { unfold render, useFrame. rewrite Hg. cbn [eyesRef]. rewrite He. cbn [option_map].
      eexists. split; [reflexivity|].
      unfold eyesExpression, setEyesScale.
      repeat (destruct (String.eqb (frame_animation f) _)); reflexivity. }
    destruct He1 as (e1 & He1 & Hc1).
    destruct (IH _ g1 e1 Hg1 He1) as (e' & He' & Hc').
    exists e'. split; [exact He'|].
    rewrite Hc', Hc1, map_map. reflexivity.
Qed.

Lemma eyeChild_type (time random : R) (c : Child) :
  userData_type (eyeChild time random c) = userData_type c /\
  userData_side (eyeChild time random c) = userData_side c.
Proof.
  assert (Hmove : forall m, userData_type (moveEye m c) = userData_type c /\
                            userData_side (moveEye m c) = userData_side c).
  { intros m. unfold moveEye.
    destruct (hasType "iris" c || hasType "pupil" c); split; reflexivity. }
  assert (Hclose : forall d, userData_type (closeEyelid d) = userData_type d /\
                             userData_side (closeEyelid d) = userData_side d).
  { intros d. unfold closeEyelid. destruct (hasType "eyelid" d); split; reflexivity. }
  unfold eyeChild. cbv zeta.
  destruct (blinks random); [|apply Hmove].
  destruct (Hclose (moveEye (sin (time * 0.4) * 0.03) c)) as [-> ->]. apply Hmove.
Qed.

Lemma eyeChild_position (time random : R) (c : Child) :
  isIrisOrPupil c = true ->
  position_x (eyeChild time random c)
  = position_x c + (if isLeft (userData_side c) then -1 else 1) * (sin (time * 0.4) * 0.03).
Proof.
  unfold isIrisOrPupil. intros Hc.
  assert (Hlid : hasType "eyelid" c = false).
  { unfold hasType in *. destruct (userData_type c) as [t|]; [|reflexivity].
    apply orb_prop in Hc as [Hc|Hc]; apply String.eqb_eq in Hc; subst t; reflexivity. }
  unfold eyeChild, moveEye, closeEyelid. cbv zeta. rewrite Hc.
  assert (Hlid' : forall v,
            hasType "eyelid"
              {| userData_type := userData_type c; userData_side := userData_side c;
                 position_x := v; visible := visible c |} = false) by (intros v; exact Hlid).
  destruct (blinks random); [rewrite Hlid'|]; cbn [position_x]; ring.
Qed.

Lemma renderChild_all_position (frames : list Frame) : forall c,
  isIrisOrPupil c = true ->
  position_x (fold_left renderChild frames c)
  = position_x c + (if isLeft (userData_side c) then -1 else 1) * drift frames.
Proof.
  induction frames as [|f rest IH]; intros c Hc; cbn [fold_left drift]; [ring|].
  assert (Hc1 : isIrisOrPupil (renderChild c f) = true).
  { unfold isIrisOrPupil, hasType, renderChild in *.
    now rewrite (proj1 (eyeChild_type _ _ c)). }
  rewrite (IH _ Hc1). unfold renderChild at 1 2.
  rewrite (proj2 (eyeChild_type _ _ c)), (eyeChild_position _ _ c Hc). ring.
Qed.

(** Between a sixth and five sixths of a half turn the sine is at least
    one half. *)
Lemma sin_at_least_half (a : R) : PI / 6 <= a <= 5 * PI / 6 -> 1 / 2 <= sin a.
Proof.
  intros [Hlo Hhi]. pose proof PI_RGT_0 as Hpi.
  rewrite <- sin_PI6.
  destruct (Rle_dec a (PI / 2)) as [Hle|Hgt].
  - apply sin_incr_1; lra.
  - rewrite <- (sin_PI_x a). apply sin_incr_1; lra.
Qed.

Lemma drift_lower_bound (frames : list Frame) :
  Forall (fun f => PI / 6 <= frame_time f * 0.4 <= 5 * PI / 6) frames ->
  0.015 * INR (length frames) <= drift frames.
Proof.
  induction 1 as [|f rest Hf Hrest IH].
  - cbn. lra.
  - cbn [length drift]. rewrite S_INR.
    pose proof (sin_at_least_half _ Hf). lra.
Qed.

End FaceFacts.

(** ** Further properties of the fallback avatar *)

Lemma animationEffects_keeps (time : R) (animation : string) (g : Scene.Group) :
  Scene.rotation_x (Scene.animationEffects time animation g) = Scene.rotation_x g /\
  (animation <> "alert" ->
   Scene.rotation_z (Scene.animationEffects time animation g) = Scene.rotation_z g) /\
  (animation <> "instruction" ->
   Scene.rotation_y (Scene.animationEffects time animation g) = Scene.rotation_y g) /\
  (animation <> "announcement" ->
   Scene.position_y (Scene.animationEffects time animation g) = Scene.position_y g).
Proof.
  unfold Scene.animationEffects.
  destruct (String.eqb_spec animation "alert") as [->|Ha];
    [|destruct (String.eqb_spec animation "instruction") as [->|Hi];
      [|destruct (String.eqb_spec animation "announcement") as [->|Hn]]];
    repeat split; try reflexivity; intros H; try reflexivity; now destruct H.
Qed.

Lemma renderGroup_all_keeps (frames : list Face.Frame) : forall g,
  Scene.rotation_x (fold_left Face.renderGroup frames g) = Scene.rotation_x g /\
  (Forall (fun f => Face.frame_animation f <> "alert") frames ->
   Scene.rotation_z (fold_left Face.renderGroup frames g) = Scene.rotation_z g) /\
  (Forall (fun f => Face.frame_animation f <> "instruction") frames ->
   Scene.rotation_y (fold_left Face.renderGroup frames g) = Scene.rotation_y g) /\
  (Forall (fun f => Face.frame_animation f <> "announcement") frames ->
   Scene.position_y (fold_left Face.renderGroup frames g) = Scene.position_y g).
Proof.
  induction frames as [|f rest IH]; intros g; [repeat split; reflexivity|].
  cbn [fold_left].
  destruct (IH (Face.renderGroup g f)) as (Hx & Hz & Hy & Hp).
  destruct (animationEffects_keeps (Face.frame_time f) (Face.frame_animation f)
              (Scene.set_scale_y (sin (Face.frame_time f * 2) * 0.02 + 1) g))
    as (Kx & Kz & Ky & Kp).
  unfold Face.renderGroup in *.
  split; [now rewrite Hx, Kx|].
  split; [intros Hall; inversion Hall; subst; rewrite Hz, Kz; auto|].
  split; [intros Hall; inversion Hall; subst; rewrite Hy, Ky; auto|].
  intros Hall; inversion Hall; subst; rewrite Hp, Kp; auto.
Qed.

(** The frame callback of the fallback avatar writes the tilt of the group
    under 'alert', its turn under 'instruction' and its lift under
    'announcement', and no case of it resets them: along frames with other
    tags each keeps its value, so after an 'alert' frame the group stays
    tilted by the sine of that frame, also when the animation is back to
    'idle'. *)
Theorem group_keeps_the_last_animation_transform
    (r : Face.Refs) (g : Scene.Group) (frames : list Face.Frame) :
  Face.avatarRef r = Some g ->
  (exists g',
     Face.avatarRef (Face.renderAll r frames) = Some g' /\
     Scene.rotation_x g' = Scene.rotation_x g /\
     (Forall (fun f => Face.frame_animation f <> "alert") frames ->
      Scene.rotation_z g' = Scene.rotation_z g) /\
     (Forall (fun f => Face.frame_animation f <> "instruction") frames ->
      Scene.rotation_y g' = Scene.rotation_y g) /\
     (Forall (fun f => Face.frame_animation f <> "announcement") frames ->
      Scene.position_y g' = Scene.position_y g)) /\
  (forall f0,
     Face.frame_animation f0 = "alert" ->
     Forall (fun f => Face.frame_animation f <> "alert") frames ->
     exists g',
       Face.avatarRef (Face.renderAll r (f0 :: frames)) = Some g' /\
       Scene.rotation_z g' = (sin (Face.frame_time f0 * 4) * 0.1)%R).
Proof.
  intros Hg. split.
  - exists (fold_left Face.renderGroup frames g).
    split; [now apply FaceFacts.renderAll_group|]. apply renderGroup_all_keeps.
  - intros f0 Ha Hrest.
    exists (fold_left Face.renderGroup (f0 :: frames) g).
    split; [now apply FaceFacts.renderAll_group|].
    cbn [fold_left].
    rewrite (proj1 (proj2 (renderGroup_all_keeps frames _)) Hrest).
    unfold Face.renderGroup, Scene.animationEffects. rewrite Ha. reflexivity.
Qed.

(** A group tilted by an earlier 'alert' keeps its tilt along idle frames. *)
Lemma group_keeps_transform_witness :
  let g := {| Scene.scale_y := 1; Scene.rotation_x := 0; Scene.rotation_y := 0;
              Scene.rotation_z := 0.1; Scene.position_y := 0 |}%R in
  let r := {| Face.avatarRef := Some g; Face.headRef := None; Face.eyesRef := None;
              Face.mouthRef := None; Face.eyebrowsRef := None; Face.teeth := None |} in
  let idle t := {| Face.frame_time := t; Face.frame_random := 0.5;
                   Face.frame_animation := "idle"; Face.frame_lipSyncActive := false |}%R in
  Face.avatarRef r = Some g /\
  exists g', Face.avatarRef (Face.renderAll r [idle 3%R; idle 4%R]) = Some g' /\
             Scene.rotation_z g' = 0.1%R.
Proof.
  cbv zeta. split; [reflexivity|].
  destruct (proj1 (group_keeps_the_last_animation_transform _ _
                     [ {| Face.frame_time := 3; Face.frame_random := 0.5;
                          Face.frame_animation := "idle"; Face.frame_lipSyncActive := false |};
                       {| Face.frame_time := 4; Face.frame_random := 0.5;
                          Face.frame_animation := "idle"; Face.frame_lipSyncActive := false |} ]%R
                     (eq_refl : Face.avatarRef
                                  {| Face.avatarRef :=
                                       Some {| Scene.scale_y := 1; Scene.rotation_x := 0;
                                               Scene.rotation_y := 0; Scene.rotation_z := 0.1;
                                               Scene.position_y := 0 |}%R;
                                     Face.headRef := None; Face.eyesRef := None;
                                     Face.mouthRef := None; Face.eyebrowsRef := None;
                                     Face.teeth := None |} = Some _)))
    as (g' & Hg' & _ & Hz & _).
  exists g'. split; [exact Hg'|].
  apply Hz. repeat constructor; discriminate.
Defined.

(** The eye movement of a frame is added to the position of the irises
    and the pupils, to the left for the left eye and to the right for the
    right eye, and nothing takes it back: after a list of frames each has
    moved by the sum of the movements.  Along frames whose clock, times
    0.4, lies between a sixth and five sixths of a half turn (1.31 s to
    6.54 s), that is at least 0.015 for each frame, away from the nose. *)
Theorem eye_movement_accumulates
    (r : Face.Refs) (g : Scene.Group) (e : Face.Eyes) (frames : list Face.Frame) :
  Face.avatarRef r = Some g ->
  Face.eyesRef r = Some e ->
  exists e',
    Face.eyesRef (Face.renderAll r frames) = Some e' /\
    Face.children e' = map (fun c => fold_left Face.renderChild frames c) (Face.children e) /\
    (forall c,
       Face.isIrisOrPupil c = true ->
       Face.position_x (fold_left Face.renderChild frames c)
       = (Face.position_x c
          + (if Face.isLeft (Face.userData_side c) then -1 else 1) * Face.drift frames)%R) /\
    (Forall (fun f => PI / 6 <= Face.frame_time f * 0.4 <= 5 * PI / 6)%R frames ->
     forall c,
       Face.isIrisOrPupil c = true ->
       if Face.isLeft (Face.userData_side c)
       then (Face.position_x (fold_left Face.renderChild frames c)
             <= Face.position_x c - 0.015 * INR (length frames))%R
       else (Face.position_x c + 0.015 * INR (length frames)
             <= Face.position_x (fold_left Face.renderChild frames c))%R).
Proof.
  intros Hg He.
  destruct (FaceFacts.renderAll_eyes frames r g e Hg He) as (e' & He' & Hc').
  exists e'. split; [exact He'|]. split; [exact Hc'|].
  split; [intros c Hc; now apply FaceFacts.renderChild_all_position|].
  intros Hwin c Hc.
  rewrite (FaceFacts.renderChild_all_position frames c Hc).
  pose proof (FaceFacts.drift_lower_bound frames Hwin).
  destruct (Face.isLeft (Face.userData_side c)); lra.
Qed.

(** Three frames at 4 s: the right iris of the JSX, created at 0.16, is at
    0.205 or further to the right. *)
Lemma eye_movement_witness :
  let iris := {| Face.userData_type := Some "iris"; Face.userData_side := Some "right";
                 Face.position_x := 0.16; Face.visible := true |}%R in
  let g := {| Scene.scale_y := 1; Scene.rotation_x := 0; Scene.rotation_y := 0;
              Scene.rotation_z := 0; Scene.position_y := 0 |}%R in
  let e := {| Face.children := [iris];
              Face.eyes_scale := {| Face.x := 1; Face.y := 1; Face.z := 1 |} |}%R in
  let r := {| Face.avatarRef := Some g; Face.headRef := None; Face.eyesRef := Some e;
              Face.mouthRef := None; Face.eyebrowsRef := None; Face.teeth := None |} in
  let f := {| Face.frame_time := 4; Face.frame_random := 0.5;
              Face.frame_animation := "idle"; Face.frame_lipSyncActive := false |}%R in
  Face.avatarRef r = Some g /\
  Face.eyesRef r = Some e /\
  Forall (fun f => PI / 6 <= Face.frame_time f * 0.4 <= 5 * PI / 6)%R [f; f; f] /\
  (0.205 <= Face.position_x (fold_left Face.renderChild [f; f; f] iris))%R.
Proof.
  cbv zeta.
  set (iris := {| Face.userData_type := Some "iris"; Face.userData_side := Some "right";
                  Face.position_x := 0.16%R; Face.visible := true |}).
  set (g := {| Scene.scale_y := 1%R; Scene.rotation_x := 0%R; Scene.rotation_y := 0%R;
               Scene.rotation_z := 0%R; Scene.position_y := 0%R |}).
  set (e := {| Face.children := [iris];
               Face.eyes_scale := {| Face.x := 1%R; Face.y := 1%R; Face.z := 1%R |} |}).
  set (r := {| Face.avatarRef := Some g; Face.headRef := None; Face.eyesRef := Some e;
               Face.mouthRef := None; Face.eyebrowsRef := None; Face.teeth := None |}).
  set (f := {| Face.frame_time := 4%R; Face.frame_random := 0.5%R;
               Face.frame_animation := "idle"; Face.frame_lipSyncActive := false |}).
  assert (Hwin : Forall (fun f => PI / 6 <= Face.frame_time f * 0.4 <= 5 * PI / 6)%R [f; f; f]).
  { pose proof PI_4. pose proof PI2_3_2.
    repeat constructor; cbn [Face.frame_time f]; lra. }
  split; [reflexivity|]. split; [reflexivity|]. split; [exact Hwin|].
  destruct (eye_movement_accumulates r g e [f; f; f] eq_refl eq_refl)
    as (e' & _ & _ & _ & Hfar).
  pose proof (Hfar Hwin iris eq_refl) as Hiris.
  cbn [Face.isLeft Face.userData_side iris String.eqb Ascii.eqb Bool.eqb length INR
       Face.position_x] in Hiris.
  cbn [Face.isLeft Face.userData_side iris] in Hiris.
  revert Hiris. cbn -[fold_left Face.renderChild]. intros Hiris. lra.
Defined.

(** While the lips are synchronised the frame callback stretches the
    mouth between 1.05 and 1.35 across and between 1.06 and 1.3 up, and
    shows the teeth exactly when the sine of eight times the clock is
    above a third.  With lip sync off it resets the mouth to scale 1,
    widened to 1.2 across under 'announcement', and does not write the
    teeth: they stay as the last lip-sync frame left them. *)
Theorem lip_sync_moves_the_mouth_and_shows_the_teeth
    (time random : R) (animation : string) (lipSyncActive : bool)
    (r : Face.Refs) (g : Scene.Group) (m : Face.Vector3) :
  Face.avatarRef r = Some g ->
  Face.mouthRef r = Some m ->
  let r' := Face.useFrame time random animation lipSyncActive r in
  exists m',
    Face.mouthRef r' = Some m' /\
    (lipSyncActive = true ->
     (1.05 <= Face.x m' <= 1.35)%R /\ (1.06 <= Face.y m' <= 1.3)%R /\
     Face.z m' = Face.z m /\
     forall shown, Face.teeth r = Some shown ->
                   (Face.teeth r' = Some true <-> (1 / 3 < sin (time * 8))%R) /\
                   (Face.teeth r' = Some false <-> (sin (time * 8) <= 1 / 3)%R)) /\
    (lipSyncActive = false ->
     Face.x m' = (if String.eqb animation "announcement" then 1.2 else 1)%R /\
     Face.y m' = 1%R /\ Face.z m' = 1%R /\
     Face.teeth r' = Face.teeth r).
Proof.
  intros Hg Hm. cbv zeta. unfold Face.useFrame. rewrite Hg.
  cbn [Face.mouthRef Face.teeth]. rewrite Hm. cbn [option_map Face.isSome].
  eexists. split; [reflexivity|]. split; intros ->.
  - assert (Hm' : Face.mouthExpression animation true (Face.mouthLipSync time true m)
                  = Face.mouthLipSync time true m).
    { unfold Face.mouthExpression.
      repeat (destruct (String.eqb animation _); [reflexivity|]). reflexivity. }
    rewrite Hm'. cbn [Face.mouthLipSync Face.x Face.y Face.z andb Face.teethVisible].
    unfold Face.mouthOpen, Face.lipIntensity.
    pose proof (SIN_bound (time * 8)) as [? ?].
    pose proof (SIN_bound (time * 12)) as [? ?].
    repeat split; try lra.
    + rewrite H3. destruct (Rlt_dec 0.5 (sin (time * 8) * 0.3 + 0.4)); intros; [lra | discriminate].
    + rewrite H3. destruct (Rlt_dec 0.5 (sin (time * 8) * 0.3 + 0.4)); intros; [reflexivity | lra].
    + rewrite H3. destruct (Rlt_dec 0.5 (sin (time * 8) * 0.3 + 0.4)); intros; [discriminate | lra].
    + rewrite H3. destruct (Rlt_dec 0.5 (sin (time * 8) * 0.3 + 0.4)); intros; [lra | reflexivity].
  - cbn [andb Face.teethVisible Face.mouthLipSync]. unfold Face.mouthExpression.
    destruct (String.eqb_spec animation "alert") as [->|Ha]; [repeat split|].
    destruct (String.eqb_spec animation "instruction") as [->|Hi]; [repeat split|].
    destruct (String.eqb animation "announcement"); repeat split.
Qed.

(** The lip sync has ended with the teeth shown: an idle frame resets the
    mouth and leaves the teeth shown. *)
Lemma lip_sync_witness_teeth_stay :
  let g := {| Scene.scale_y := 1; Scene.rotation_x := 0; Scene.rotation_y := 0;
              Scene.rotation_z := 0; Scene.position_y := 0 |}%R in
  let m := {| Face.x := 1.3; Face.y := 1.2; Face.z := 1 |}%R in
  let r := {| Face.avatarRef := Some g; Face.headRef := None; Face.eyesRef := None;
              Face.mouthRef := Some m; Face.eyebrowsRef := None; Face.teeth := Some true |} in
  let r' := Face.useFrame 2 0.5 "idle" false r in
  Face.avatarRef r = Some g /\ Face.mouthRef r = Some m /\
  exists m', Face.mouthRef r' = Some m' /\ Face.x m' = 1%R /\ Face.y m' = 1%R /\
             Face.teeth r' = Some true.
Proof.
  cbv zeta. split; [reflexivity|]. split; [reflexivity|].
  destruct (lip_sync_moves_the_mouth_and_shows_the_teeth 2 0.5 "idle" false
              {| Face.avatarRef :=
                   Some {| Scene.scale_y := 1; Scene.rotation_x := 0; Scene.rotation_y := 0;
                           Scene.rotation_z := 0; Scene.position_y := 0 |}%R;
                 Face.headRef := None; Face.eyesRef := None;
                 Face.mouthRef := Some {| Face.x := 1.3; Face.y := 1.2; Face.z := 1 |}%R;
                 Face.eyebrowsRef := None; Face.teeth := Some true |}
              _ _ eq_refl eq_refl) as (m' & Hm' & _ & Hoff).
  destruct (Hoff eq_refl) as (Hx & Hy & _ & Ht).
  exists m'. repeat split; assumption.
Defined.

(** The frame callback has cases for the tags 'alert', 'instruction' and
    'announcement' only.  The tags of the commands takeoff, emergency,
    welcome and safety have none: a frame under any of them writes what a
    frame under 'idle' writes, to the group and to the whole face. *)
Theorem commands_without_a_case_render_as_idle
    (cmd : CrewAvatar.VoiceCommand) (time random : R) (lipSyncActive : bool)
    (r : Face.Refs) :
  In cmd CrewAvatar.voiceCommands ->
  In (CrewAvatar.text cmd) ["takeoff"; "emergency"; "welcome"; "safety"] ->
  Face.useFrame time random (CrewAvatar.animation cmd) lipSyncActive r
  = Face.useFrame time random "idle" lipSyncActive r /\
  Scene.FallbackAvatar_useFrame time (CrewAvatar.animation cmd) lipSyncActive (Face.avatarRef r)
  = Scene.FallbackAvatar_useFrame time "idle" lipSyncActive (Face.avatarRef r) /\
  Scene.FallbackAvatar_useFrame_older time (CrewAvatar.animation cmd) lipSyncActive (Face.avatarRef r)
  = Scene.FallbackAvatar_useFrame_older time "idle" lipSyncActive (Face.avatarRef r).
Proof.
  intros Hin Htext.
  CrewAvatarFacts.each_entry Hin; cbn in Htext;
    try (exfalso; intuition discriminate);
    (split; [|split]; unfold Face.useFrame;
     destruct (Face.avatarRef r); reflexivity).
Qed.

(** The welcome command has the tag 'greeting'; a frame under it is an idle
    frame. *)
Lemma commands_without_a_case_witness_welcome :
  let welcome := {| CrewAvatar.text := "welcome"; CrewAvatar.animation := "greeting" |} in
  let g := {| Scene.scale_y := 1; Scene.rotation_x := 0; Scene.rotation_y := 0;
              Scene.rotation_z := 0; Scene.position_y := 0 |}%R in
  In welcome CrewAvatar.voiceCommands /\
  In (CrewAvatar.text welcome) ["takeoff"; "emergency"; "welcome"; "safety"] /\
  Scene.FallbackAvatar_useFrame 1 "greeting" false (Some g)
  = Scene.FallbackAvatar_useFrame 1 "idle" false (Some g).
Proof.
  cbv zeta.
  assert (Hin : In {| CrewAvatar.text := "welcome"; CrewAvatar.animation := "greeting" |}
                   CrewAvatar.voiceCommands) by (simpl; tauto).
  assert (Ht : In (CrewAvatar.text
                     {| CrewAvatar.text := "welcome"; CrewAvatar.animation := "greeting" |})
                  ["takeoff"; "emergency"; "welcome"; "safety"]) by (simpl; tauto).
  split; [exact Hin|]. split; [exact Ht|].
  exact (proj1 (proj2 (commands_without_a_case_render_as_idle _ 1%R 0%R false
                         {| Face.avatarRef :=
                              Some {| Scene.scale_y := 1; Scene.rotation_x := 0;
                                      Scene.rotation_y := 0; Scene.rotation_z := 0;
                                      Scene.position_y := 0 |}%R;
                            Face.headRef := None; Face.eyesRef := None;
                            Face.mouthRef := None; Face.eyebrowsRef := None;
                            Face.teeth := None |} Hin Ht))).
Defined.

(** ** Further properties of the React-Three-Fiber iteration *)
Module CrewAvatarCallFacts.
Import JS JSFacts CrewAvatar CrewAvatarFacts CrewAvatarRuns CrewAvatarCalls.

Lemma spoken_app (a b : list Call) : spoken (a ++ b) = (spoken a ++ spoken b)%list.
Proof.
  induction a as [|c a IH]; [reflexivity|].
  destruct c; cbn; now rewrite ?IH.
Qed.

Lemma delays_app (cb : Timeout) (a b : list Call) :
  delays cb (a ++ b) = (delays cb a ++ delays cb b)%list.
Proof.
  induction a as [|c a IH]; [reflexivity|].
  destruct c as [| |cb' ms| |]; cbn; rewrite ?IH; try reflexivity.
  destruct cb, cb'; cbn; now rewrite ?IH.
Qed.

Section WithVoices.
Variable getVoices : list Voice.

Lemma crew_run_cons_snd w e rest :
  snd (run getVoices w (e :: rest))
  = (snd (step getVoices w e) ++ snd (run getVoices (fst (step getVoices w e)) rest))%list.
Proof.
  simpl. destruct (step getVoices w e) as [w1 c1]. simpl.
  now destruct (run getVoices w1 rest).
Qed.

Lemma crew_step_calls w e :
  snd (step getVoices w e) = snd (handle getVoices (commands w) e (component w)).
Proof. unfold step. now destruct (handle getVoices (commands w) e (component w)). Qed.

(** The calls of one event: none, one call to the recogniser, one log, or
    the calls of a command of the array. *)
Lemma crew_handle_calls (cmds : list VoiceCommand) (e : Event) (s : State) :
  snd (handle getVoices cmds e s) = [] \/
  snd (handle getVoices cmds e s) = [RecognitionStart] \/
  snd (handle getVoices cmds e s) = [RecognitionStop] \/
  (exists error, snd (handle getVoices cmds e s)
                 = [ConsoleLog "Speech recognition error:" error]) \/
  exists cmd, In cmd cmds /\ snd (handle getVoices cmds e s) = triggerCalls getVoices cmd.
Proof.
  destruct e as [sup| | | |k| |t|err| | |err|[|]];
    unfold handle, unlessDisabled, reading.
  - left. destruct sup; reflexivity.
  - unfold cleanup, reading. destruct (recognitionRef s); auto.
  - destruct (startDisabled s); [now left|].
    unfold startListening, reading. destruct (recognitionRef s); [|now left].
    destruct (isListening (avatarState s)); auto.
  - destruct (stopDisabled s); [now left|].
    unfold stopListening, reading. destruct (recognitionRef s); [|now left].
    destruct (isListening (avatarState s)); auto.
  - destruct (testDisabled s); [now left|].
    unfold testCommand. destruct (find _ cmds) as [cmd|] eqn:Ef; [|now left].
    right. right. right. right. exists cmd. split; [|reflexivity].
    now apply find_some in Ef.
  - destruct (recognitionRef s); now left.
  - destruct (recognitionRef s); [|now left].
    unfold onresult. cbv zeta. unfold matchedCommand.
    destruct (find _ cmds) as [cmd|] eqn:Ef; [|now left].
    right. right. right. right. exists cmd. split; [|reflexivity].
    now apply find_some in Ef.
  - destruct (recognitionRef s); [|now left].
    right. right. right. left. now exists err.
  - destruct (recognitionRef s) as [[[|]]|]; now left.
  - now left.
  - now left.
  - now left.
  - now left.
Qed.

(** Events other than the mount leave the recognition object alone. *)
Lemma crew_handle_recognition_frame (cmds : list VoiceCommand) (e : Event) :
  isMount e = false -> preserves recognitionRef (handle getVoices cmds e).
Proof.
  destruct e as [sup| | | |k| |t|err| | |err|[|]]; cbn; intros Hm; try discriminate;
    unfold handle, unlessDisabled, cleanup, startListening, stopListening, testCommand,
      onresult, onstart, onerror, onend, utterance_onend; cbv zeta; frame.
Qed.

Lemma closure_not_speaking_run (events : list Event) : forall w,
  closure_not_speaking (component w) ->
  existsb isMount events = false ->
  closure_not_speaking (component (fst (run getVoices w events))).
Proof.
  induction events as [|e rest IH]; intros w Hw Hm; [exact Hw|].
  cbn in Hm. apply orb_false_elim in Hm as [He Hrest].
  rewrite run_cons_fst. apply IH; [|exact Hrest].
  rewrite step_component. unfold closure_not_speaking.
  now rewrite (crew_handle_recognition_frame _ e He).
Qed.

End WithVoices.
End CrewAvatarCallFacts.

(** In every run of [src/App.tsx] from the initial page, every text handed
    to the speech synthesiser is one of the seven instruction texts of
    [getInstructionForCommand]; its fallback 'Command acknowledged.' is
    never spoken. *)
Theorem every_spoken_text_is_an_instruction
    (getVoices : list CrewAvatar.Voice) (events : list CrewAvatar.Event) :
  let calls := snd (CrewAvatar.run getVoices CrewAvatar.start events) in
  Forall (fun t => In t (map snd CrewAvatar.instructions)) (CrewAvatar.spoken calls) /\
  ~ In "Command acknowledged." (CrewAvatar.spoken calls).
Proof.
  cbv zeta.
  assert (Hall : forall w,
            CrewAvatar.commands w = CrewAvatar.voiceCommands ->
            Forall (fun t => In t (map snd CrewAvatar.instructions))
                   (CrewAvatar.spoken (snd (CrewAvatar.run getVoices w events)))).
  { induction events as [|e rest IH]; intros w Hw; [constructor|].
    rewrite CrewAvatarCallFacts.crew_run_cons_snd, CrewAvatarCallFacts.spoken_app.
    apply Forall_app. split.
    - rewrite CrewAvatarCallFacts.crew_step_calls.
      destruct (CrewAvatarCallFacts.crew_handle_calls getVoices (CrewAvatar.commands w) e
                  (CrewAvatar.component w))
        as [-> | [-> | [-> | [[err ->] | (cmd & Hin & ->)]]]];
        [constructor | constructor | constructor | constructor | ].
      rewrite Hw in Hin.
      cbn [CrewAvatar.spoken CrewAvatarCalls.triggerCalls CrewAvatar.utterance_text].
      constructor; [|constructor].
      apply (in_map snd CrewAvatar.instructions
               (CrewAvatar.text cmd, CrewAvatar.getInstructionForCommand (CrewAvatar.text cmd))).
      now apply CrewAvatarFacts.instruction_in_table.
    - apply IH. now rewrite CrewAvatarRuns.step_commands. }
  specialize (Hall CrewAvatar.start eq_refl).
  split; [exact Hall|].
  intros Hin. rewrite Forall_forall in Hall. specialize (Hall _ Hin).
  cbn in Hall. intuition discriminate.
Qed.

Lemma timed_on_the_keyword_app (a b : list CrewAvatar.Call) :
  CrewAvatarCalls.timed_on_the_keyword a ->
  CrewAvatarCalls.timed_on_the_keyword b ->
  CrewAvatarCalls.timed_on_the_keyword (a ++ b).
Proof.
  unfold CrewAvatarCalls.timed_on_the_keyword.
  intros (A1 & A2 & A3 & A4 & A5) (B1 & B2 & B3 & B4 & B5).
  rewrite !CrewAvatarCallFacts.delays_app, CrewAvatarCallFacts.spoken_app.
  rewrite !length_app.
  repeat split; try (apply Forall_app; split; assumption); lia.
Qed.

Lemma timed_on_the_keyword_trigger (getVoices : list CrewAvatar.Voice)
    (cmd : CrewAvatar.VoiceCommand) :
  In cmd CrewAvatar.voiceCommands ->
  CrewAvatarCalls.timed_on_the_keyword (CrewAvatarCalls.triggerCalls getVoices cmd).
Proof.
  intros Hin. unfold CrewAvatarCalls.timed_on_the_keyword.
  CrewAvatarFacts.each_entry Hin;
    cbn [CrewAvatarCalls.triggerCalls CrewAvatarCalls.delays CrewAvatar.spoken
         CrewAvatar.utterance_text CrewAvatar.text length].
  all: split;
    [apply Forall_cons; [split; apply Nat.leb_le; vm_compute; reflexivity | apply Forall_nil]|].
  all: split; [apply Forall_cons; [reflexivity | apply Forall_nil]|].
  all: split;
    [apply Forall_cons; [apply Nat.leb_le; vm_compute; reflexivity | apply Forall_nil]|].
  all: split; reflexivity.
Qed.

(** The timeouts and the utterances of a run are those of a list of
    commands of the table, one command after the other. *)
Lemma announcements_of_a_run (getVoices : list CrewAvatar.Voice)
    (events : list CrewAvatar.Event) : forall w,
  CrewAvatar.commands w = CrewAvatar.voiceCommands ->
  let calls := snd (CrewAvatar.run getVoices w events) in
  exists cmds,
    Forall (fun cmd => In cmd CrewAvatar.voiceCommands) cmds /\
    CrewAvatarCalls.delays CrewAvatar.LipSyncOff calls
    = map (fun cmd => String.length (CrewAvatar.text cmd) * 150) cmds /\
    CrewAvatarCalls.delays CrewAvatar.BackToIdle calls = map (fun _ => 2500) cmds /\
    CrewAvatar.spoken calls
    = map (fun cmd => CrewAvatar.getInstructionForCommand (CrewAvatar.text cmd)) cmds.
Proof.
  cbv zeta. induction events as [|e rest IH]; intros w Hw.
  - exists []. repeat split. constructor.
  - rewrite CrewAvatarCallFacts.crew_run_cons_snd.
    rewrite !CrewAvatarCallFacts.delays_app, CrewAvatarCallFacts.spoken_app.
    destruct (IH (fst (CrewAvatar.step getVoices w e)))
      as (cmds & Hin & Hlip & Hidle & Hsaid);
      [now rewrite CrewAvatarRuns.step_commands|].
    rewrite Hlip, Hidle, Hsaid.
    rewrite CrewAvatarCallFacts.crew_step_calls.
    destruct (CrewAvatarCallFacts.crew_handle_calls getVoices (CrewAvatar.commands w) e
                (CrewAvatar.component w))
      as [-> | [-> | [-> | [[err ->] | (cmd & Hcmd & ->)]]]];
      try solve [exists cmds; repeat split; assumption].
    rewrite Hw in Hcmd.
    exists (cmd :: cmds). split; [now constructor|]. repeat split.
Qed.

(** In every run of [src/App.tsx] from the initial page the timeouts and
    the utterances are those of a list of commands of the table, one
    command after the other: each sets a lip-sync timeout of 150 ms times
    the number of characters of its keyword, an idle timeout of 2500 ms,
    and speaks its instruction text.  The lip sync is timed on the
    keyword, not on the text that is spoken: it ends after 900 ms to
    1500 ms, before the idle timeout, while every spoken text has 78
    characters or more. *)
Theorem lip_sync_is_timed_on_the_keyword
    (getVoices : list CrewAvatar.Voice) (events : list CrewAvatar.Event) :
  let calls := snd (CrewAvatar.run getVoices CrewAvatar.start events) in
  (exists cmds,
     Forall (fun cmd => In cmd CrewAvatar.voiceCommands) cmds /\
     CrewAvatarCalls.delays CrewAvatar.LipSyncOff calls
     = map (fun cmd => String.length (CrewAvatar.text cmd) * 150) cmds /\
     CrewAvatarCalls.delays CrewAvatar.BackToIdle calls = map (fun _ => 2500) cmds /\
     CrewAvatar.spoken calls
     = map (fun cmd => CrewAvatar.getInstructionForCommand (CrewAvatar.text cmd)) cmds) /\
  Forall (fun ms => 900 <= ms <= 1500) (CrewAvatarCalls.delays CrewAvatar.LipSyncOff calls) /\
  Forall (fun ms => ms = 2500) (CrewAvatarCalls.delays CrewAvatar.BackToIdle calls) /\
  Forall (fun t => 78 <= String.length t) (CrewAvatar.spoken calls) /\
  length (CrewAvatarCalls.delays CrewAvatar.LipSyncOff calls) = length (CrewAvatar.spoken calls) /\
  length (CrewAvatarCalls.delays CrewAvatar.BackToIdle calls) = length (CrewAvatar.spoken calls).
Proof.
  cbv zeta.
  split; [exact (announcements_of_a_run getVoices events CrewAvatar.start eq_refl)|].
  change (CrewAvatarCalls.timed_on_the_keyword
            (snd (CrewAvatar.run getVoices CrewAvatar.start events))).
  assert (Hall : forall w,
            CrewAvatar.commands w = CrewAvatar.voiceCommands ->
            CrewAvatarCalls.timed_on_the_keyword (snd (CrewAvatar.run getVoices w events))).
  { induction events as [|e rest IH]; intros w Hw.
    - repeat split; constructor.
    - rewrite CrewAvatarCallFacts.crew_run_cons_snd.
      apply timed_on_the_keyword_app.
      + rewrite CrewAvatarCallFacts.crew_step_calls.
        destruct (CrewAvatarCallFacts.crew_handle_calls getVoices (CrewAvatar.commands w) e
                    (CrewAvatar.component w))
          as [-> | [-> | [-> | [[err ->] | (cmd & Hin & ->)]]]];
          try solve [repeat split; constructor].
        rewrite Hw in Hin. now apply timed_on_the_keyword_trigger.
      + apply IH. now rewrite CrewAvatarRuns.step_commands. }
  now apply Hall.
Qed.

(** ** The voice of the announcements *)

(** [speak] hands one utterance to the synthesiser, with the text it was
    given, rate 0.9, pitch 1 and volume 0.8.  Its voice is the first voice
    of the browser's list whose name contains 'David' or 'Mark', or whose
    language starts with 'en' and whose lower-cased name contains 'male';
    it is left unset exactly when the list has no such voice. *)
Theorem speak_takes_the_first_professional_voice
    (getVoices : list CrewAvatar.Voice) (t : string) (s : CrewAvatar.State) :
  exists u,
    snd (CrewAvatar.speak getVoices t s) = [CrewAvatar.SpeechSynthesisSpeak u] /\
    CrewAvatar.utterance_text u = t /\
    (CrewAvatar.rate u == 9 # 10)%Q /\ (CrewAvatar.pitch u == 1)%Q /\
    (CrewAvatar.volume u == 8 # 10)%Q /\
    (CrewAvatar.voice u = None <->
     forall v, In v getVoices -> CrewAvatar.professional v = false) /\
    (forall v,
       CrewAvatar.voice u = Some v <->
       exists before after,
         getVoices = (before ++ v :: after)%list /\
         CrewAvatar.professional v = true /\
         forall v', In v' before -> CrewAvatar.professional v' = false) /\
    (forall v,
       CrewAvatar.professional v = true <->
       JS.occurs "David" (CrewAvatar.name v) \/ JS.occurs "Mark" (CrewAvatar.name v) \/
       (JS.startsWith (CrewAvatar.lang v) "en" = true /\
        JS.occurs "male" (JS.toLowerCase (CrewAvatar.name v)))).
Proof.
  eexists. split; [reflexivity|]. cbn [CrewAvatar.utterance_text CrewAvatar.rate
    CrewAvatar.pitch CrewAvatar.volume CrewAvatar.voice].
  split; [reflexivity|]. split; [reflexivity|]. split; [reflexivity|]. split; [reflexivity|].
  split; [apply JSFacts.find_none_iff|]. split; [intros v; apply JSFacts.find_first|].
  intros v. unfold CrewAvatar.professional.
  rewrite !orb_true_iff, andb_true_iff, !JSFacts.includes_spec. tauto.
Qed.

(** 'female' contains 'male': an English voice whose name contains
    'female', in any letter case, passes the test for the professional
    male voice, and is the voice of the announcements when no voice passes
    before it in the list. *)
Theorem english_female_voices_pass_for_male
    (getVoices before after : list CrewAvatar.Voice) (v : CrewAvatar.Voice)
    (t : string) (s : CrewAvatar.State) :
  JS.startsWith (CrewAvatar.lang v) "en" = true ->
  JS.occurs "female" (JS.toLowerCase (CrewAvatar.name v)) ->
  getVoices = (before ++ v :: after)%list ->
  (forall v', In v' before -> CrewAvatar.professional v' = false) ->
  CrewAvatar.professional v = true /\
  CrewAvatarCalls.utterances (snd (CrewAvatar.speak getVoices t s))
  = [ {| CrewAvatar.utterance_text := t; CrewAvatar.voice := Some v;
         CrewAvatar.rate := (9 # 10)%Q; CrewAvatar.pitch := 1%Q;
         CrewAvatar.volume := (8 # 10)%Q |} ].
Proof.
  intros Hen Hfemale Hlist Hbefore.
  assert (Hpro : CrewAvatar.professional v = true).
  { unfold CrewAvatar.professional. rewrite Hen.
    assert (Hmale : JS.includes (JS.toLowerCase (CrewAvatar.name v)) "male" = true).
    { apply JSFacts.includes_spec.
      apply (JSFacts.occurs_trans _ "female"); [|exact Hfemale].
      now exists "fe", EmptyString. }
    rewrite Hmale. apply orb_true_r. }
  split; [exact Hpro|].
  assert (Hfind : find CrewAvatar.professional getVoices = Some v).
  { apply JSFacts.find_first. now exists before, after. }
  cbn. now rewrite Hfind.
Qed.

(** The English voices of a browser, a female one first. *)
Lemma english_female_voice_witness :
  let zira := {| CrewAvatar.name := "Microsoft Zira - English (United States) Female";
                 CrewAvatar.lang := "en-US" |} in
  let george := {| CrewAvatar.name := "Microsoft George - English (United Kingdom) Male";
                   CrewAvatar.lang := "en-GB" |} in
  JS.startsWith (CrewAvatar.lang zira) "en" = true /\
  JS.occurs "female" (JS.toLowerCase (CrewAvatar.name zira)) /\
  CrewAvatar.professional zira = true /\
  CrewAvatarCalls.utterances (snd (CrewAvatar.speak [zira; george] "Welcome" CrewAvatar.initial))
  = [ {| CrewAvatar.utterance_text := "Welcome"; CrewAvatar.voice := Some zira;
         CrewAvatar.rate := (9 # 10)%Q; CrewAvatar.pitch := 1%Q;
         CrewAvatar.volume := (8 # 10)%Q |} ].
Proof.
  cbv zeta.
  assert (Hocc : JS.occurs "female"
                   (JS.toLowerCase "Microsoft Zira - English (United States) Female")).
  { apply JSFacts.includes_spec. reflexivity. }
  split; [reflexivity|]. split; [exact Hocc|].
  exact (english_female_voices_pass_for_male
           [ {| CrewAvatar.name := "Microsoft Zira - English (United States) Female";
                CrewAvatar.lang := "en-US" |};
             {| CrewAvatar.name := "Microsoft George - English (United Kingdom) Male";
                CrewAvatar.lang := "en-GB" |} ]
           []
           [ {| CrewAvatar.name := "Microsoft George - English (United Kingdom) Male";
                CrewAvatar.lang := "en-GB" |} ]
           {| CrewAvatar.name := "Microsoft Zira - English (United States) Female";
              CrewAvatar.lang := "en-US" |}
           "Welcome" CrewAvatar.initial eq_refl Hocc eq_refl
           (fun v' (H : In v' []) => match H with end)).
Defined.

(** ** Buttons, callbacks and timers of the React-Three-Fiber iteration *)

(** In [src/App.tsx] the listening flag rises with the engine's [onstart],
    not with the click: while the engine has not answered, the start
    button stays enabled, every click on it calls the engine's [start]
    again, and the page stays as it is. *)
Theorem every_click_before_onstart_starts_the_engine
    (getVoices : list CrewAvatar.Voice) (w : CrewAvatar.World) (n : nat) :
  CrewAvatar.recognitionRef (CrewAvatar.component w) <> None ->
  CrewAvatar.startDisabled (CrewAvatar.component w) = false ->
  CrewAvatar.run getVoices w (repeat CrewAvatar.ClickStart n)
  = (w, repeat CrewAvatar.RecognitionStart n).
Proof.
  intros Hr Hd.
  assert (Hstep : CrewAvatar.step getVoices w CrewAvatar.ClickStart
                  = (w, [CrewAvatar.RecognitionStart])).
  { destruct w as [cmds [[l a ls rt] st sp [r|]]]; [|cbn in Hr; congruence].
    unfold CrewAvatar.startDisabled in Hd. cbn in Hd.
    apply orb_false_elim in Hd as [-> ->]. reflexivity. }
  induction n as [|n IH]; [reflexivity|].
  cbn [repeat CrewAvatar.run]. rewrite Hstep, IH. reflexivity.
Qed.

(** The mount, then two clicks on the start button before the engine has
    answered: two calls of [start]. *)
Lemma every_click_witness_double_click :
  let w := fst (CrewAvatar.run [] CrewAvatar.start [CrewAvatar.Mount true]) in
  CrewAvatar.recognitionRef (CrewAvatar.component w) <> None /\
  CrewAvatar.startDisabled (CrewAvatar.component w) = false /\
  snd (CrewAvatar.run [] w [CrewAvatar.ClickStart; CrewAvatar.ClickStart])
  = [CrewAvatar.RecognitionStart; CrewAvatar.RecognitionStart].
Proof.
  cbv zeta.
  assert (Hr : CrewAvatar.recognitionRef
                 (CrewAvatar.component
                    (fst (CrewAvatar.run [] CrewAvatar.start [CrewAvatar.Mount true]))) <> None)
    by (cbn; discriminate).
  split; [exact Hr|]. split; [reflexivity|].
  exact (f_equal snd (every_click_before_onstart_starts_the_engine [] _ 2 Hr eq_refl)).
Defined.

(** The recognition callbacks of [src/App.tsx] are created once, by the
    mount effect, and [onend] reads the [isSpeaking] of the render that ran
    it, which is false.  So in every run that starts with the mount effect
    and has no second one, the engine's end event sets the status to
    'Ready for voice commands' and lowers the listening flag, also while
    an announcement is spoken, and also right after an error, whose
    notification it replaces. *)
Theorem end_event_always_writes_the_ready_status
    (getVoices : list CrewAvatar.Voice) (events : list CrewAvatar.Event) :
  existsb CrewAvatarCalls.isMount events = false ->
  let w := fst (CrewAvatar.run getVoices CrewAvatar.start
                  (CrewAvatar.Mount true :: events ++ [CrewAvatar.RecognitionOnEnd])) in
  CrewAvatar.currentStatus (CrewAvatar.component w) = "Ready for voice commands" /\
  CrewAvatar.listening (CrewAvatar.component w) = false.
Proof.
  intros Hm. cbv zeta.
  rewrite CrewAvatarRuns.run_cons_fst, crew_run_app.
  set (w1 := fst (CrewAvatar.step getVoices CrewAvatar.start (CrewAvatar.Mount true))).
  set (w2 := fst (CrewAvatar.run getVoices w1 events)).
  assert (Hc : CrewAvatarCalls.closure_not_speaking (CrewAvatar.component w2)).
  { apply CrewAvatarCallFacts.closure_not_speaking_run; [|exact Hm].
    intros rec. cbn. now intros [= <-]. }
  assert (Hr : CrewAvatar.recognitionRef (CrewAvatar.component w2) <> None).
  { clear Hc. subst w2. revert w1 Hm.
    assert (Hgen : forall evs w,
              CrewAvatar.recognitionRef (CrewAvatar.component w) <> None ->
              CrewAvatar.recognitionRef
                (CrewAvatar.component (fst (CrewAvatar.run getVoices w evs))) <> None).
    { induction evs as [|e rest IH]; intros w Hw; [exact Hw|].
      rewrite CrewAvatarRuns.run_cons_fst. apply IH.
      rewrite CrewAvatarRuns.step_component.
      now apply CrewAvatarRuns.handle_keeps_recognition. }
    intros w1 _. apply Hgen. subst w1. cbn. discriminate. }
  rewrite CrewAvatarRuns.run_cons_fst. cbn [CrewAvatar.run fst].
  rewrite CrewAvatarRuns.step_component.
  unfold CrewAvatar.handle, reading.
  destruct (CrewAvatar.recognitionRef (CrewAvatar.component w2)) as [rec|] eqn:Er;
    [|congruence].
  unfold CrewAvatar.onend. rewrite (Hc rec Er). split; reflexivity.
Qed.

(** The welcome command is tested and the engine's end event comes while
    it is spoken: the status no longer says what is executed. *)
Lemma end_event_witness_while_speaking :
  let events := [CrewAvatar.ClickTest "welcome"] in
  let w := fst (CrewAvatar.run [] CrewAvatar.start
                  (CrewAvatar.Mount true :: events ++ [CrewAvatar.RecognitionOnEnd])) in
  existsb CrewAvatarCalls.isMount events = false /\
  CrewAvatar.isSpeaking (CrewAvatar.component w) = true /\
  CrewAvatar.currentStatus (CrewAvatar.component w) = "Ready for voice commands".
Proof.
  cbv zeta. split; [reflexivity|]. split; [reflexivity|].
  exact (proj1 (end_event_always_writes_the_ready_status []
                  [CrewAvatar.ClickTest "welcome"] eq_refl)).
Defined.

(** A command of the table that is tested while the buttons are enabled,
    and whose two timeouts and utterance end have come, in any of the six
    orders, leaves the page ready for the next one: the animation is
    'idle', lip sync is off, nobody speaks, the test buttons are enabled
    again, the recognised text, the listening flag and the recognition
    object are as before, and the status says that the announcement is
    completed. *)
Theorem a_finished_command_leaves_the_page_ready
    (getVoices : list CrewAvatar.Voice) (w : CrewAvatar.World)
    (cmd : CrewAvatar.VoiceCommand) (order : list CrewAvatar.Event) :
  CrewAvatar.commands w = CrewAvatar.voiceCommands ->
  In cmd CrewAvatar.voiceCommands ->
  CrewAvatar.testDisabled (CrewAvatar.component w) = false ->
  In order CrewAvatarCalls.completions ->
  let w' := fst (CrewAvatar.run getVoices w
                   (CrewAvatar.ClickTest (CrewAvatar.text cmd) :: order)) in
  CrewAvatar.avatarState (CrewAvatar.component w')
  = CrewAvatar.withLipSyncActive false
      (CrewAvatar.withCurrentAnimation "idle" (CrewAvatar.avatarState (CrewAvatar.component w))) /\
  CrewAvatar.isSpeaking (CrewAvatar.component w') = false /\
  CrewAvatar.testDisabled (CrewAvatar.component w') = false /\
  CrewAvatar.recognitionRef (CrewAvatar.component w')
  = CrewAvatar.recognitionRef (CrewAvatar.component w) /\
  CrewAvatar.currentStatus (CrewAvatar.component w') = icon_check ++ " Announcement completed".
Proof.
  intros Hcmds Hin Hd Horder. cbv zeta.
  rewrite CrewAvatarRuns.run_cons_fst.
  assert (Hstep : CrewAvatar.component
                    (fst (CrewAvatar.step getVoices w (CrewAvatar.ClickTest (CrewAvatar.text cmd))))
                  = fst ((CrewAvatar.setCurrentStatus
                            (icon_target ++ " Testing: " ++ JS.toUpperCase (CrewAvatar.text cmd)) >>
                          CrewAvatar.performLipSync (CrewAvatar.text cmd) >>
                          CrewAvatar.performAnimation (CrewAvatar.animation cmd) >>
                          CrewAvatar.speak getVoices
                            (CrewAvatar.getInstructionForCommand (CrewAvatar.text cmd)))
                           (CrewAvatar.component w))).
  { rewrite CrewAvatarRuns.step_component. unfold CrewAvatar.handle at 1.
    unfold CrewAvatar.unlessDisabled, reading. rewrite Hd, Hcmds.
    now rewrite (CrewAvatarFacts.testCommand_known getVoices cmd _ Hin). }
  set (w1 := fst (CrewAvatar.step getVoices w (CrewAvatar.ClickTest (CrewAvatar.text cmd)))) in *.
  destruct w1 as [cmds1 s1]. cbn [CrewAvatar.component] in Hstep. subst s1.
  destruct w as [cmds [[l a ls rt] st sp r]].
  unfold CrewAvatar.testDisabled in Hd. cbn in Hd.
  apply orb_false_elim in Hd as [-> ->].
  unfold CrewAvatarCalls.completions in Horder. cbv zeta in Horder.
  destruct Horder as [<-|[<-|[<-|[<-|[<-|[<-|[]]]]]]]; repeat split.
Qed.

(** The safety command, tested on the initial page, with the end of the
    utterance before the two timeouts. *)
Lemma a_finished_command_witness_safety :
  let safety := {| CrewAvatar.text := "safety"; CrewAvatar.animation := "demonstration" |} in
  let order := [CrewAvatar.UtteranceEnd; CrewAvatar.TimeoutFired CrewAvatar.LipSyncOff;
                CrewAvatar.TimeoutFired CrewAvatar.BackToIdle] in
  let w' := fst (CrewAvatar.run [] CrewAvatar.start (CrewAvatar.ClickTest "safety" :: order)) in
  In safety CrewAvatar.voiceCommands /\
  CrewAvatar.testDisabled (CrewAvatar.component CrewAvatar.start) = false /\
  In order CrewAvatarCalls.completions /\
  CrewAvatar.isSpeaking (CrewAvatar.component w') = false /\
  CrewAvatar.testDisabled (CrewAvatar.component w') = false.
Proof.
  cbv zeta.
  assert (Hin : In {| CrewAvatar.text := "safety"; CrewAvatar.animation := "demonstration" |}
                   CrewAvatar.voiceCommands) by (simpl; tauto).
  assert (Ho : In [CrewAvatar.UtteranceEnd; CrewAvatar.TimeoutFired CrewAvatar.LipSyncOff;
                   CrewAvatar.TimeoutFired CrewAvatar.BackToIdle]
                  CrewAvatarCalls.completions) by (simpl; tauto).
  split; [exact Hin|]. split; [reflexivity|]. split; [exact Ho|].
  destruct (a_finished_command_leaves_the_page_ready [] CrewAvatar.start _ _
              eq_refl Hin eq_refl Ho) as (_ & Hs & Ht & _).
  split; [exact Hs | exact Ht].
Defined.

(** ** Further properties of the animated-head iteration *)
Section EmissionFacts.
Context {St Call : Type}.
Implicit Types (h k : Handler St Call) (P : Call -> Prop).

Lemma emits_skip P : emits P (skip : Handler St Call).
Proof. intros s. constructor. Qed.

Lemma emits_call P (c : Call) : P c -> emits P (call c : Handler St Call).
Proof. intros Hc s. now constructor. Qed.

Lemma emits_update P (f : St -> St) : emits P (update f : Handler St Call).
Proof. intros s. constructor. Qed.

Lemma emits_andThen P h k : emits P h -> emits P k -> emits P (h >> k).
Proof.
  intros Hh Hk s. rewrite andThen_snd. apply Forall_app. split; [apply Hh | apply Hk].
Qed.

Lemma emits_reading {B} P (get : St -> B) (k : B -> Handler St Call) :
  (forall b, emits P (k b)) -> emits P (reading get k).
Proof. intros Hk s. apply Hk. Qed.

End EmissionFacts.

(** Proves [emits P h] along the structure of [h]. *)
Ltac quiet :=
  repeat first
    [ apply emits_andThen
    | apply emits_reading; intros ?
    | apply emits_skip
    | apply emits_update
    | apply emits_call; solve [reflexivity | discriminate | cbn; auto]
    | match goal with |- emits _ (if ?b then _ else _) => destruct b end
    | match goal with |- emits _ (match ?x with _ => _ end) => destruct x end
    | (intros ?; exact (Forall_nil _)) ].

Module TalkingHeadCallFacts.
Import JS JSFacts TalkingHead TalkingHeadFacts TalkingHeadRuns TalkingHeadCalls.

Lemma head_run_cons_snd w e rest :
  snd (run w (e :: rest)) = (snd (step w e) ++ snd (run (fst (step w e)) rest))%list.
Proof.
  simpl. destruct (step w e) as [w1 c1]. simpl. now destruct (run w1 rest).
Qed.

Lemma head_step_calls w e : snd (step w e) = snd (handle (commands w) e (component w)).
Proof. unfold step. now destruct (handle (commands w) e (component w)). Qed.

Lemma sounds_of_silent_calls (calls : list Call) :
  Forall (fun c => AudioSpec.sound_of c = None) calls -> AudioSpec.sounds calls = [].
Proof.
  induction 1 as [|c rest Hc Hrest IH]; [reflexivity|]. cbn. now rewrite Hc.
Qed.

Lemma gestureCall_is_head_call (g : string) (c : Call) :
  gestureCall g = Some c -> isRecognitionStart c = false /\ isHeadCall c = true.
Proof.
  unfold gestureCall.
  repeat (destruct (String.eqb g _); [intros [= <-]; split; reflexivity|]).
  discriminate.
Qed.

Lemma performGesture_never_starts (o : Outcome) (g : string) :
  emits (fun c => isRecognitionStart c = false) (performGesture o g).
Proof.
  unfold performGesture. apply emits_reading; intros [head|]; [|quiet].
  destruct (gestureCall g) as [c|] eqn:Eg; [|quiet].
  apply gestureCall_is_head_call in Eg as [Hc _]. quiet.
Qed.

Lemma executeCommand_never_starts (ready : bool) (o : Outcome) (cmd : VoiceCommand) :
  emits (fun c => isRecognitionStart c = false) (executeCommand ready o cmd).
Proof.
  unfold executeCommand. destruct ready; cbn [negb]; [|quiet].
  apply emits_andThen; [quiet|].
  apply emits_reading; intros [head|]; [|unfold speak; quiet].
  destruct (speakText_is_function head); [|unfold speak; quiet].
  repeat apply emits_andThen; try solve [quiet].
  destruct (truthy (gesture cmd)); [apply performGesture_never_starts | quiet].
Qed.

(** The voice button is the one source of calls to the engine's
    [start]. *)
Lemma handle_never_starts (cmds : list VoiceCommand) (e : Event) :
  isClickVoiceCommand e = false ->
  emits (fun c => isRecognitionStart c = false) (handle cmds e).
Proof.
  destruct e; cbn; intros Hc; try discriminate;
    unfold handle, unlessDisabled, setupRecognition, avatarLoaded, avatarFailed,
      stopSpeaking, utterance_onend, onerror, onend;
    try solve [quiet].
  - apply emits_reading; intros [|]; [quiet|].
    unfold testCommand. destruct (find _ cmds); [|quiet].
    apply emits_reading; intros ready. apply executeCommand_never_starts.
  - apply emits_reading; intros [rec|]; [|quiet].
    unfold onresult. cbv zeta. apply emits_andThen; [quiet|].
    destruct (matchedCommand cmds _); [apply executeCommand_never_starts | quiet].
Qed.

(** A click on the voice button changes nothing, or raises the flag and
    starts the engine. *)
Lemma handle_click_voice_cases (cmds : list VoiceCommand) (s : State) :
  handle cmds ClickVoiceCommand s = (s, []) \/
  (isListening s = false /\
   isListening (fst (handle cmds ClickVoiceCommand s)) = true /\
   snd (handle cmds ClickVoiceCommand s) = [RecognitionStart]).
Proof.
  destruct s as [[|] st [r|] [|] sp h]; cbn; auto.
Qed.

Lemma handle_lowers_flag (cmds : list VoiceCommand) (e : Event) (s : State) :
  lowers e = true ->
  isListening (fst (handle cmds e s)) = false \/
  isListening (fst (handle cmds e s)) = isListening s.
Proof.
  destruct e; cbn; intros Hl; try discriminate; unfold reading;
    destruct (speechRecognition s); auto.
Qed.

Lemma starts_when_none (calls : list Call) :
  Forall (fun c => isRecognitionStart c = false) calls ->
  filter isRecognitionStart calls = [].
Proof.
  induction 1 as [|c rest Hc Hrest IH]; [reflexivity|]. cbn. now rewrite Hc.
Qed.

(** The calls to [start] of a run and the flag at its start, against the
    error and end events of the run and the flag at its end. *)
Lemma starts_against_ends (events : list Event) : forall w,
  length (filter isRecognitionStart (snd (run w events))) + flag (isListening (component w))
  <= length (filter lowers events) + flag (isListening (component (fst (run w events)))).
Proof.
  induction events as [|e rest IH]; intros w; [cbn; lia|].
  rewrite head_run_cons_snd, head_run_cons_fst, filter_app, length_app.
  specialize (IH (fst (step w e))).
  rewrite head_step_component in IH. rewrite head_step_calls.
  cbn [filter].
  destruct (isClickVoiceCommand e) eqn:Ec.
  - destruct e; try discriminate Ec. cbn [lowers].
    destruct (handle_click_voice_cases (commands w) (component w)) as [Hs | (H0 & H1 & Hc)].
    + rewrite Hs in *. cbn [fst snd filter length] in *. lia.
    + rewrite Hc, H0. rewrite H1 in IH. cbn [filter isRecognitionStart length flag] in *. lia.
  - rewrite (starts_when_none _ (handle_never_starts (commands w) e Ec (component w))).
    cbn [length].
    destruct (lowers e) eqn:Ee.
    + cbn [length].
      destruct (handle_lowers_flag (commands w) e (component w) Ee) as [Hf | Hf];
        rewrite Hf in IH; cbn [flag] in IH.
      * destruct (isListening (component w)); cbn [flag]; lia.
      * lia.
    + rewrite (handle_listening_frame (commands w) e Ec Ee) in IH. lia.
Qed.

End TalkingHeadCallFacts.

(** In the animated-head iteration the voice button raises the listening
    flag in the handler that calls the engine's [start], and is not
    rendered while the flag is up: in every run from the initial page the
    engine is started at most once for each error or end event of the
    engine, and once more when the page is listening at the end. *)
Theorem engine_is_started_once_per_session (events : list TalkingHead.Event) :
  let r := TalkingHead.run TalkingHead.start events in
  length (filter TalkingHeadCalls.isRecognitionStart (snd r))
  <= length (filter TalkingHead.lowers events)
     + (if TalkingHead.isListening (TalkingHead.component (fst r)) then 1 else 0).
Proof.
  cbv zeta.
  pose proof (TalkingHeadCallFacts.starts_against_ends events TalkingHead.start) as H.
  unfold TalkingHeadCalls.flag in H. cbn [TalkingHead.start TalkingHead.component
    TalkingHead.initial TalkingHead.isListening] in H. lia.
Qed.

Lemma head_executeCommand_sounds_of_table
    (cmds : list TalkingHead.VoiceCommand) (ready : bool) (o : TalkingHead.Outcome)
    (cmd : TalkingHead.VoiceCommand) (s : TalkingHead.State) :
  In cmd cmds ->
  Forall (fun x => exists c, In c cmds /\ x = AudioSpec.TextToSpeech (TalkingHead.instruction c))
         (AudioSpec.sounds (snd (TalkingHead.executeCommand ready o cmd s))).
Proof.
  intros Hin. rewrite TalkingHeadFacts.executeCommand_sounds. cbv zeta.
  assert (Hc : exists c, In c cmds /\
                         AudioSpec.TextToSpeech (TalkingHead.instruction cmd)
                         = AudioSpec.TextToSpeech (TalkingHead.instruction c))
    by (now exists cmd).
  destruct ready; cbn [negb]; [|constructor].
  destruct (TalkingHead.avatarRef s) as [head|]; [|repeat constructor; exact Hc].
  destruct (TalkingHead.speakText_is_function head && TalkingHead.speakTextThrows o);
    repeat constructor; exact Hc.
Qed.

Lemma head_handle_silent (cmds : list TalkingHead.VoiceCommand) (e : TalkingHead.Event) :
  TalkingHeadCalls.executes e = false ->
  emits (fun c => AudioSpec.sound_of c = None) (TalkingHead.handle cmds e).
Proof.
  destruct e; cbn; intros He; try discriminate;
    unfold TalkingHead.handle, TalkingHead.unlessDisabled, TalkingHead.setupRecognition,
      TalkingHead.avatarLoaded, TalkingHead.avatarFailed, TalkingHead.startListening,
      TalkingHead.stopSpeaking, TalkingHead.utterance_onend, TalkingHead.onerror,
      TalkingHead.onend;
    quiet.
Qed.

Lemma head_handle_sounds (cmds : list TalkingHead.VoiceCommand) (e : TalkingHead.Event)
    (s : TalkingHead.State) :
  Forall (fun x => exists c, In c cmds /\ x = AudioSpec.TextToSpeech (TalkingHead.instruction c))
         (AudioSpec.sounds (snd (TalkingHead.handle cmds e s))).
Proof.
  destruct (TalkingHeadCalls.executes e) eqn:He.
  - destruct e; try discriminate He; unfold TalkingHead.handle, TalkingHead.unlessDisabled, reading.
    + destruct (TalkingHead.testDisabled s); [constructor|].
      unfold TalkingHead.testCommand.
      destruct (find _ cmds) as [cmd|] eqn:Ef; [|constructor].
      apply find_some in Ef as [Hin _]. unfold reading.
      now apply head_executeCommand_sounds_of_table.
    + destruct (TalkingHead.speechRecognition s) as [rec|]; [|constructor].
      unfold TalkingHead.onresult, TalkingHead.matchedCommand. cbv zeta.
      rewrite andThen_snd, sounds_app. cbn [call snd fst AudioSpec.sounds app].
      destruct (find _ cmds) as [cmd|] eqn:Ef; [|constructor].
      apply find_some in Ef as [Hin _].
      now apply head_executeCommand_sounds_of_table.
  - rewrite (TalkingHeadCallFacts.sounds_of_silent_calls _ (head_handle_silent cmds e He s)).
    constructor.
Qed.

(** In every run of the animated-head iteration from the initial page,
    every sound the page makes, through the avatar library or through the
    browser's synthesiser, is the synthesised instruction text of an entry
    of the command table. *)
Theorem every_sound_is_an_instruction_of_the_table (events : list TalkingHead.Event) :
  Forall (fun x => exists cmd,
                     In cmd TalkingHead.voiceCommands /\
                     x = AudioSpec.TextToSpeech (TalkingHead.instruction cmd))
         (AudioSpec.sounds (snd (TalkingHead.run TalkingHead.start events))).
Proof.
  assert (Hall : forall w,
            TalkingHead.commands w = TalkingHead.voiceCommands ->
            Forall (fun x => exists cmd,
                               In cmd TalkingHead.voiceCommands /\
                               x = AudioSpec.TextToSpeech (TalkingHead.instruction cmd))
                   (AudioSpec.sounds (snd (TalkingHead.run w events)))).
  { induction events as [|e rest IH]; intros w Hw; [constructor|].
    rewrite TalkingHeadCallFacts.head_run_cons_snd, sounds_app.
    apply Forall_app. split.
    - rewrite TalkingHeadCallFacts.head_step_calls, <- Hw. apply head_handle_sounds.
    - apply IH. now rewrite TalkingHeadRuns.head_step_commands. }
  now apply Hall.
Qed.

(** ** The avatar loader *)

Lemma head_ready_frame (cmds : list TalkingHead.VoiceCommand) (e : TalkingHead.Event) :
  TalkingHeadCalls.isAvatarEvent e = false ->
  preserves TalkingHead.isAvatarReady (TalkingHead.handle cmds e).
Proof.
  destruct e; cbn; intros He; try discriminate;
    unfold TalkingHead.handle, TalkingHead.unlessDisabled, TalkingHead.setupRecognition,
      TalkingHead.startListening, TalkingHead.stopSpeaking, TalkingHead.utterance_onend,
      TalkingHead.onerror, TalkingHead.onend, TalkingHead.testCommand, TalkingHead.onresult,
      TalkingHead.executeCommand, TalkingHead.performGesture, TalkingHead.speak;
    cbv zeta; frame.
Qed.

Lemma head_not_ready_step (cmds : list TalkingHead.VoiceCommand) (e : TalkingHead.Event)
    (s : TalkingHead.State) :
  TalkingHeadCalls.isAvatarEvent e = false ->
  TalkingHeadCalls.not_ready s ->
  TalkingHeadCalls.not_ready (fst (TalkingHead.handle cmds e s)) /\
  AudioSpec.sounds (snd (TalkingHead.handle cmds e s)) = [].
Proof.
  intros He [Hr Hc]. split; [split|].
  - now rewrite (head_ready_frame cmds e He).
  - destruct (TalkingHeadRuns.handle_recognition_frame cmds e) as [[sup ->] | Hp].
    + intros rec. destruct sup; cbn; [|apply Hc].
      intros [= <-]. exact Hr.
    + unfold TalkingHead.closure_not_ready. now rewrite Hp.
  - destruct (TalkingHeadCalls.executes e) eqn:Ex.
    + destruct e; try discriminate Ex; unfold TalkingHead.handle, TalkingHead.unlessDisabled, reading.
      * unfold TalkingHead.testDisabled. rewrite Hr, orb_true_r. reflexivity.
      * destruct (TalkingHead.speechRecognition s) as [rec|] eqn:Er; [|reflexivity].
        unfold TalkingHead.onresult. cbv zeta.
        rewrite andThen_snd, sounds_app. cbn [call snd fst AudioSpec.sounds app].
        destruct (TalkingHead.matchedCommand cmds _); [|reflexivity].
        rewrite TalkingHeadFacts.executeCommand_sounds, (Hc rec Er). reflexivity.
    + apply TalkingHeadCallFacts.sounds_of_silent_calls. apply head_handle_silent. exact Ex.
Qed.

(** Until the avatar loader has ended, with the avatar or with the
    fallback canvas, the page of the animated-head iteration makes no
    sound: in every run from the initial page without an end of the
    loader, whatever is clicked or recognised, nothing is spoken, and the
    avatar is not ready at the end. *)
Theorem nothing_is_spoken_before_the_avatar_is_ready (events : list TalkingHead.Event) :
  existsb TalkingHeadCalls.isAvatarEvent events = false ->
  let r := TalkingHead.run TalkingHead.start events in
  AudioSpec.sounds (snd r) = [] /\
  TalkingHead.isAvatarReady (TalkingHead.component (fst r)) = false.
Proof.
  intros Hev. cbv zeta.
  assert (Hall : forall w,
            TalkingHeadCalls.not_ready (TalkingHead.component w) ->
            AudioSpec.sounds (snd (TalkingHead.run w events)) = [] /\
            TalkingHeadCalls.not_ready (TalkingHead.component (fst (TalkingHead.run w events)))).
  { induction events as [|e rest IH]; intros w Hw; [now split|].
    cbn in Hev. apply orb_false_elim in Hev as [He Hrest].
    destruct (head_not_ready_step (TalkingHead.commands w) e _ He Hw) as [Hn Hs].
    rewrite TalkingHeadCallFacts.head_run_cons_snd, TalkingHeadRuns.head_run_cons_fst, sounds_app.
    rewrite TalkingHeadCallFacts.head_step_calls, Hs.
    apply (IH Hrest). now rewrite TalkingHeadRuns.head_step_component. }
  destruct (Hall TalkingHead.start) as [Hs [Hr _]].
  - split; [reflexivity|]. intros rec H. discriminate H.
  - now split.
Qed.

(** The test button and a recognised 'welcome' before the loader has
    ended. *)
Lemma nothing_is_spoken_witness :
  let events := [TalkingHead.Mount true;
                 TalkingHead.ClickTest "welcome" TalkingHeadCalls.resolved;
                 TalkingHead.RecognitionOnResult "welcome" TalkingHeadCalls.resolved] in
  existsb TalkingHeadCalls.isAvatarEvent events = false /\
  AudioSpec.sounds (snd (TalkingHead.run TalkingHead.start events)) = [].
Proof.
  cbv zeta. split; [reflexivity|].
  exact (proj1 (nothing_is_spoken_before_the_avatar_is_ready
                  [TalkingHead.Mount true;
                   TalkingHead.ClickTest "welcome" TalkingHeadCalls.resolved;
                   TalkingHead.RecognitionOnResult "welcome" TalkingHeadCalls.resolved]
                  eq_refl)).
Defined.

Lemma head_avatarRef_frame (cmds : list TalkingHead.VoiceCommand) (e : TalkingHead.Event) :
  TalkingHeadCalls.isAvatarLoaded e = false ->
  preserves TalkingHead.avatarRef (TalkingHead.handle cmds e).
Proof.
  destruct e; cbn; intros He; try discriminate;
    unfold TalkingHead.handle, TalkingHead.unlessDisabled, TalkingHead.setupRecognition,
      TalkingHead.avatarFailed,
      TalkingHead.startListening, TalkingHead.stopSpeaking, TalkingHead.utterance_onend,
      TalkingHead.onerror, TalkingHead.onend, TalkingHead.testCommand, TalkingHead.onresult,
      TalkingHead.executeCommand, TalkingHead.performGesture, TalkingHead.speak;
    cbv zeta; frame.
Qed.

Lemma head_executeCommand_without_avatar
    (ready : bool) (o : TalkingHead.Outcome) (cmd : TalkingHead.VoiceCommand)
    (s : TalkingHead.State) :
  TalkingHead.avatarRef s = None ->
  Forall (fun c => TalkingHeadCalls.isHeadCall c = false)
         (snd (TalkingHead.executeCommand ready o cmd s)).
Proof.
  destruct s as [l st r a sp h]. cbn. intros ->.
  destruct ready; repeat constructor.
Qed.

Lemma head_handle_without_avatar (cmds : list TalkingHead.VoiceCommand)
    (e : TalkingHead.Event) (s : TalkingHead.State) :
  TalkingHeadCalls.isAvatarLoaded e = false ->
  TalkingHead.avatarRef s = None ->
  Forall (fun c => TalkingHeadCalls.isHeadCall c = false) (snd (TalkingHead.handle cmds e s)).
Proof.
  intros He Hs.
  destruct e; try discriminate He; unfold TalkingHead.handle, TalkingHead.unlessDisabled, reading.
  - destruct supported; repeat constructor.
  - destruct mounted, context; repeat constructor.
  - destruct (TalkingHead.voiceDisabled s); [constructor|].
    unfold TalkingHead.startListening, reading.
    destruct (TalkingHead.speechRecognition s); [|constructor].
    destruct (TalkingHead.isListening s); repeat constructor.
  - destruct (TalkingHead.stopHidden s); [constructor|].
    destruct s as [l st r a sp h]. cbn in Hs. subst h. repeat constructor.
  - destruct (TalkingHead.testDisabled s); [constructor|].
    unfold TalkingHead.testCommand. destruct (find _ cmds); [|constructor].
    now apply head_executeCommand_without_avatar.
  - constructor.
  - destruct (TalkingHead.speechRecognition s) as [rec|]; [|constructor].
    unfold TalkingHead.onresult. cbv zeta. rewrite andThen_snd.
    apply Forall_app. split; [repeat constructor|].
    destruct (TalkingHead.matchedCommand cmds _); [|constructor].
    now apply head_executeCommand_without_avatar.
  - destruct (TalkingHead.speechRecognition s); repeat constructor.
  - destruct (TalkingHead.speechRecognition s); repeat constructor.
  - constructor.
  - constructor.
Qed.

(** When the avatar does not load, the page degrades to the browser's
    synthesiser: in every run of the animated-head iteration from the
    initial page in which the loader does not end with the avatar, no call
    is made to the avatar library (no gesture, no mood, no [speakText]),
    and [avatarRef] stays empty, also after the fallback canvas has made
    the page ready. *)
Theorem without_the_avatar_the_library_is_never_called (events : list TalkingHead.Event) :
  existsb TalkingHeadCalls.isAvatarLoaded events = false ->
  let r := TalkingHead.run TalkingHead.start events in
  Forall (fun c => TalkingHeadCalls.isHeadCall c = false) (snd r) /\
  TalkingHead.avatarRef (TalkingHead.component (fst r)) = None.
Proof.
  intros Hev. cbv zeta.
  assert (Hall : forall w,
            TalkingHead.avatarRef (TalkingHead.component w) = None ->
            Forall (fun c => TalkingHeadCalls.isHeadCall c = false) (snd (TalkingHead.run w events)) /\
            TalkingHead.avatarRef (TalkingHead.component (fst (TalkingHead.run w events))) = None).
  { induction events as [|e rest IH]; intros w Hw; [split; [constructor | exact Hw]|].
    cbn in Hev. apply orb_false_elim in Hev as [He Hrest].
    rewrite TalkingHeadCallFacts.head_run_cons_snd, TalkingHeadRuns.head_run_cons_fst.
    destruct (IH Hrest (fst (TalkingHead.step w e))) as [Hc Hr].
    { rewrite TalkingHeadRuns.head_step_component.
      now rewrite (head_avatarRef_frame _ e He). }
    split; [|exact Hr].
    apply Forall_app. split; [|exact Hc].
    rewrite TalkingHeadCallFacts.head_step_calls.
    now apply head_handle_without_avatar. }
  now apply Hall.
Qed.

(** The loader fails, the fallback canvas is drawn, and the welcome
    command is tested: it is spoken by the browser, with no call to the
    library. *)
Lemma without_the_avatar_witness :
  let events := [TalkingHead.Mount true; TalkingHead.AvatarFailed true true;
                 TalkingHead.ClickTest "welcome" TalkingHeadCalls.resolved] in
  let r := TalkingHead.run TalkingHead.start events in
  existsb TalkingHeadCalls.isAvatarLoaded events = false /\
  AudioSpec.sounds (snd r)
  = [AudioSpec.TextToSpeech "Welcome aboard this flight. We hope you have a pleasant journey with us today."] /\
  Forall (fun c => TalkingHeadCalls.isHeadCall c = false) (snd r).
Proof.
  cbv zeta. split; [reflexivity|]. split; [reflexivity|].
  exact (proj1 (without_the_avatar_the_library_is_never_called
                  [TalkingHead.Mount true; TalkingHead.AvatarFailed true true;
                   TalkingHead.ClickTest "welcome" TalkingHeadCalls.resolved] eq_refl)).
Defined.

(** With the avatar loaded and ready, and no call of the library throwing,
    executing an entry of the table plays the gesture of the entry, one of
    the six cases of [performGesture], and then has the library speak the
    instruction text of the entry in the en-US voice; the speaking flag is
    down again when the call has returned, and the status says that the
    announcement of the keyword is completed. *)
Theorem a_loaded_avatar_gestures_then_speaks
    (cmd : TalkingHead.VoiceCommand) (s : TalkingHead.State) (head : TalkingHead.Head) :
  In cmd TalkingHead.voiceCommands ->
  TalkingHead.avatarRef s = Some head ->
  TalkingHead.speakText_is_function head = true ->
  let r := TalkingHead.executeCommand true TalkingHeadCalls.resolved cmd s in
  exists g c,
    TalkingHead.gesture cmd = Some g /\
    TalkingHead.gestureCall g = Some c /\
    TalkingHeadCalls.isHeadCall c = true /\
    snd r = [c; TalkingHead.HeadSpeakText (TalkingHead.instruction cmd)
                  "en-US" "en-US-Standard-J" "en"] /\
    TalkingHead.isSpeaking (fst r) = false /\
    TalkingHead.currentStatus (fst r)
    = icon_check ++ " " ++ JS.toUpperCase (TalkingHead.command cmd) ++ " announcement completed" /\
    TalkingHead.isListening (fst r) = TalkingHead.isListening s.
Proof.
  intros Hin Hs Hf. cbv zeta.
  destruct s as [l st r a sp h]. cbn in Hs. subst h.
  destruct head as [sf stopf]. cbn in Hf. subst sf.
  CrewAvatarFacts.each_entry Hin;
    (eexists; eexists; split; [reflexivity|]; split; [reflexivity|]; repeat split).
Qed.

(** The emergency command on a loaded avatar: the mood 'alert' is set, and
    the emergency announcement is spoken. *)
Lemma a_loaded_avatar_witness_emergency :
  let h := {| TalkingHead.speakText_is_function := true;
              TalkingHead.stopSpeaking_is_function := true |} in
  let s := TalkingHead.component
             (fst (TalkingHead.run TalkingHead.start
                     [TalkingHead.Mount true; TalkingHead.AvatarLoaded h])) in
  let r := TalkingHead.testCommand TalkingHead.voiceCommands "emergency"
             TalkingHeadCalls.resolved s in
  TalkingHead.avatarRef s = Some h /\
  snd r = [TalkingHead.HeadSetMood "alert";
           TalkingHead.HeadSpeakText
             "This is an emergency announcement. Please remain calm and follow the instructions of the cabin crew immediately."
             "en-US" "en-US-Standard-J" "en"] /\
  TalkingHead.isSpeaking (fst r) = false.
Proof.
  cbv zeta. split; [reflexivity|].
  assert (Hin : In {| TalkingHead.command := "emergency";
                      TalkingHead.instruction := "This is an emergency announcement. Please remain calm and follow the instructions of the cabin crew immediately.";
                      TalkingHead.gesture := Some "alert" |} TalkingHead.voiceCommands)
    by (simpl; tauto).
  destruct (a_loaded_avatar_gestures_then_speaks _
              (TalkingHead.component
                 (fst (TalkingHead.run TalkingHead.start
                         [TalkingHead.Mount true;
                          TalkingHead.AvatarLoaded
                            {| TalkingHead.speakText_is_function := true;
                               TalkingHead.stopSpeaking_is_function := true |}])))
              _ Hin eq_refl eq_refl) as (g & c & Hg & Hc & _ & Hcalls & Hsp & _).
  injection Hg as <-. injection Hc as <-.
  split; [exact Hcalls | exact Hsp].
Defined.

(** ** The fuzzy matcher on whole transcripts *)

Lemma split_after_a_word (k post : string) :
  TalkingHeadCalls.noSpace k = true ->
  exists w0 ws, JS.split post = w0 :: ws /\ JS.split (k ++ post) = (k ++ w0) :: ws.
Proof.
  induction k as [|c k IH]; intros Hk.
  - destruct (JS.split post) as [|w0 ws] eqn:Es.
    + now destruct (JSFacts.split_nonempty post).
    + now exists w0, ws.
  - cbn in Hk. apply andb_prop in Hk as [Hc Hk].
    destruct (IH Hk) as (w0 & ws & Hp & Hs).
    exists w0, ws. split; [exact Hp|].
    cbn. apply negb_true_iff in Hc. rewrite Hc, Hs. reflexivity.
Qed.

(** A string without a space that occurs in a text occurs in one of the
    words of the text. *)
Lemma occurrence_in_a_word (k t : string) :
  TalkingHeadCalls.noSpace k = true ->
  JS.occurs k t ->
  exists w, In w (JS.split t) /\ JS.occurs k w.
Proof.
  intros Hk (pre & post & ->).
  induction pre as [|c pre IH].
  - destruct (split_after_a_word k post Hk) as (w0 & ws & _ & Hs).
    exists (k ++ w0). cbn [append]. rewrite Hs. split; [now left|].
    now exists EmptyString, w0.
  - destruct IH as (w & Hw & Hocc). cbn [append JS.split].
    destruct (Ascii.eqb c " ").
    + exists w. split; [now right | exact Hocc].
    + destruct (JS.split (pre ++ k ++ post)) as [|w0 ws] eqn:Es; [destruct Hw|].
      destruct Hw as [<- | Hw].
      * exists (String c w0). split; [now left|].
        destruct Hocc as (p & q & ->). now exists (String c p), q.
      * exists w. split; [now right | exact Hocc].
Qed.

(** In the animated-head iteration a transcript in which a keyword of the
    table occurs never gets the not-recognised message: the matcher
    returns the command of that keyword or a command that comes before it
    in the table, and the result handler executes it. *)
Theorem a_keyword_in_the_transcript_is_always_matched
    (raw : string) (cmd : TalkingHead.VoiceCommand) :
  let transcript := JS.trim (JS.toLowerCase raw) in
  In cmd TalkingHead.voiceCommands ->
  JS.occurs (TalkingHead.command cmd) transcript ->
  exists found before after,
    TalkingHead.matchedCommand TalkingHead.voiceCommands transcript = Some found /\
    TalkingHead.voiceCommands = (before ++ found :: after)%list /\
    (found = cmd \/ In cmd after) /\
    forall rec o s,
      TalkingHead.onresult TalkingHead.voiceCommands rec raw o s
      = (call (TalkingHead.ConsoleLog "Voice recognized:" transcript) >>
         TalkingHead.executeCommand (TalkingHead.closure_isAvatarReady rec) o found) s.
Proof.
  cbv zeta. intros Hin Hocc.
  assert (Hk : TalkingHeadCalls.noSpace (TalkingHead.command cmd) = true)
    by (CrewAvatarFacts.each_entry Hin; reflexivity).
  destruct (occurrence_in_a_word _ _ Hk Hocc) as (w & Hw & Hkw).
  assert (Hf : TalkingHead.fuzzy (JS.trim (JS.toLowerCase raw)) cmd = true).
  { apply TalkingHeadFacts.fuzzy_spec. exists w. tauto. }
  destruct (TalkingHead.matchedCommand TalkingHead.voiceCommands (JS.trim (JS.toLowerCase raw)))
    as [found|] eqn:Em.
  - pose proof Em as Em'. unfold TalkingHead.matchedCommand in Em'.
    apply JSFacts.find_first in Em' as (before & after & Et & Hfound & Hbefore).
    exists found, before, after. split; [reflexivity|]. split; [exact Et|]. split.
    + rewrite Et in Hin. apply in_app_or in Hin as [Hb | [Hc | Ha]]; auto.
      specialize (Hbefore cmd Hb). congruence.
    + intros rec o s. now apply TalkingHeadFacts.head_onresult_matched.
  - exfalso. unfold TalkingHead.matchedCommand in Em.
    apply JSFacts.find_none_iff with (y := cmd) in Em; [congruence | exact Hin].
Qed.

(** "Please fasten your SEATBELTS" has the keyword 'seatbelt' in the word
    "seatbelts": the seatbelt command is found. *)
Lemma a_keyword_witness_seatbelts :
  let seatbelt :=
    {| TalkingHead.command := "seatbelt";
       TalkingHead.instruction := "The seatbelt sign has been turned on. Please fasten your seatbelts and return your seats to the upright position.";
       TalkingHead.gesture := Some "point" |} in
  In seatbelt TalkingHead.voiceCommands /\
  JS.occurs "seatbelt" (JS.trim (JS.toLowerCase "Please fasten your SEATBELTS")) /\
  exists found,
    TalkingHead.matchedCommand TalkingHead.voiceCommands
      (JS.trim (JS.toLowerCase "Please fasten your SEATBELTS")) = Some found.
Proof.
  cbv zeta.
  assert (Hin : In {| TalkingHead.command := "seatbelt";
                      TalkingHead.instruction := "The seatbelt sign has been turned on. Please fasten your seatbelts and return your seats to the upright position.";
                      TalkingHead.gesture := Some "point" |} TalkingHead.voiceCommands)
    by (simpl; tauto).
  assert (Hocc : JS.occurs "seatbelt" (JS.trim (JS.toLowerCase "Please fasten your SEATBELTS")))
    by (apply JSFacts.includes_spec; reflexivity).
  split; [exact Hin|]. split; [exact Hocc|].
  destruct (a_keyword_in_the_transcript_is_always_matched "Please fasten your SEATBELTS" _
              Hin Hocc) as (found & _ & _ & Hm & _).
  now exists found.
Defined.

(** A transcript with an empty word, that is the empty transcript or one
    with two spaces in a row, matches the first command of the table: the
    empty string occurs in every keyword.  An empty or all-blank result of
    the recogniser executes the turbulence command. *)
Theorem an_empty_word_matches_the_first_command (raw : string) :
  let transcript := JS.trim (JS.toLowerCase raw) in
  In EmptyString (JS.split transcript) ->
  exists turbulence,
    nth_error TalkingHead.voiceCommands 0 = Some turbulence /\
    TalkingHead.command turbulence = "turbulence" /\
    TalkingHead.matchedCommand TalkingHead.voiceCommands transcript = Some turbulence /\
    forall rec o s,
      TalkingHead.onresult TalkingHead.voiceCommands rec raw o s
      = (call (TalkingHead.ConsoleLog "Voice recognized:" transcript) >>
         TalkingHead.executeCommand (TalkingHead.closure_isAvatarReady rec) o turbulence) s.
Proof.
  cbv zeta. intros Hempty.
  eexists. split; [reflexivity|]. split; [reflexivity|].
  match goal with
  | |- TalkingHead.matchedCommand _ _ = Some ?c /\ _ =>
      assert (Hf : TalkingHead.fuzzy (JS.trim (JS.toLowerCase raw)) c = true)
  end.
  { apply TalkingHeadFacts.fuzzy_spec. exists EmptyString. split; [exact Hempty|].
    right. now exists EmptyString, "turbulence". }
  split.
  - unfold TalkingHead.matchedCommand, TalkingHead.voiceCommands. cbn [find]. now rewrite Hf.
  - intros rec o s. apply TalkingHeadFacts.head_onresult_matched.
    unfold TalkingHead.matchedCommand, TalkingHead.voiceCommands. cbn [find]. now rewrite Hf.
Qed.

(** The recogniser returns a blank transcript: the turbulence command is
    matched. *)
Lemma an_empty_word_witness_blank :
  In EmptyString (JS.split (JS.trim (JS.toLowerCase "   "))) /\
  option_map TalkingHead.command
    (TalkingHead.matchedCommand TalkingHead.voiceCommands (JS.trim (JS.toLowerCase "   ")))
  = Some "turbulence".
Proof.
  assert (He : In EmptyString (JS.split (JS.trim (JS.toLowerCase "   ")))) by (simpl; tauto).
  split; [exact He|].
  destruct (an_empty_word_matches_the_first_command "   " He) as (t & _ & Hc & Hm & _).
  rewrite Hm. cbn. now rewrite Hc.
Defined.

(** ** Blinking *)

Lemma renderChild_eyelid (c : Face.Child) (f : Face.Frame) :
  Face.hasType "eyelid" (Face.renderChild c f) = Face.hasType "eyelid" c.
Proof.
  unfold Face.hasType, Face.renderChild.
  now rewrite (proj1 (FaceFacts.eyeChild_type _ _ c)).
Qed.

Lemma moveEye_visible (m : R) (c : Face.Child) :
  Face.visible (Face.moveEye m c) = Face.visible c /\
  Face.hasType "eyelid" (Face.moveEye m c) = Face.hasType "eyelid" c.
Proof.
  unfold Face.moveEye.
  destruct (Face.hasType "iris" c || Face.hasType "pupil" c); split; reflexivity.
Qed.

Lemma renderChild_visible (c : Face.Child) (f : Face.Frame) :
  Face.visible (Face.renderChild c f)
  = if Face.hasType "eyelid" c && Face.blinks (Face.frame_random f) then true
    else Face.visible c.
Proof.
  unfold Face.renderChild, Face.eyeChild. cbv zeta.
  destruct (moveEye_visible (sin (Face.frame_time f * 0.4) * 0.03) c) as [Hv Ht].
  destruct (Face.blinks (Face.frame_random f)).
  - unfold Face.closeEyelid. rewrite Ht.
    destruct (Face.hasType "eyelid" c); [reflexivity | exact Hv].
  - rewrite andb_false_r. exact Hv.
Qed.

Lemma renderChild_all_eyelid (frames : list Face.Frame) : forall c,
  Face.hasType "eyelid" (fold_left Face.renderChild frames c) = Face.hasType "eyelid" c.
Proof.
  induction frames as [|f rest IH]; intros c; cbn [fold_left]; [reflexivity|].
  now rewrite IH, renderChild_eyelid.
Qed.

Lemma renderChild_all_stays_visible (frames : list Face.Frame) : forall c,
  Face.visible c = true -> Face.visible (fold_left Face.renderChild frames c) = true.
Proof.
  induction frames as [|f rest IH]; intros c Hc; cbn [fold_left]; [exact Hc|].
  apply IH. rewrite renderChild_visible, Hc. now destruct (_ && _).
Qed.

Lemma renderChild_all_other_visible (frames : list Face.Frame) : forall c,
  Face.hasType "eyelid" c = false ->
  Face.visible (fold_left Face.renderChild frames c) = Face.visible c.
Proof.
  induction frames as [|f rest IH]; intros c Hc; cbn [fold_left]; [reflexivity|].
  rewrite IH by now rewrite renderChild_eyelid.
  now rewrite renderChild_visible, Hc.
Qed.

Lemma renderChild_all_blink (frames : list Face.Frame) : forall c,
  Exists (fun f => Face.blinks (Face.frame_random f) = true) frames ->
  Face.hasType "eyelid" c = true ->
  Face.visible (fold_left Face.renderChild frames c) = true.
Proof.
  induction frames as [|f rest IH]; intros c Hex Hc; cbn [fold_left].
  - inversion Hex.
  - inversion Hex as [? ? Hb | ? ? Hrest]; subst.
    + apply renderChild_all_stays_visible.
      now rewrite renderChild_visible, Hc, Hb.
    + apply IH; [exact Hrest | now rewrite renderChild_eyelid].
Qed.

(** The frame callback of the fallback avatar shows the eyelids on a blink
    (Math.random() above 0.998) and never hides them: after any frames of
    which one blinks, every eyelid of the mounted eyes is visible, and
    stays so over all later frames, until the timeouts of the blink have
    run, which hide every eyelid.  The visibility of the other children
    of the eyes (irises, pupils, eyeballs) is changed neither by the
    frames nor by the timeouts. *)
Theorem a_blink_is_undone_by_its_timeout_only
    (r : Face.Refs) (g : Scene.Group) (e : Face.Eyes) (frames : list Face.Frame) :
  Face.avatarRef r = Some g ->
  Face.eyesRef r = Some e ->
  Exists (fun f => 0.998 < Face.frame_random f)%R frames ->
  exists shown hidden,
    Face.eyesRef (Face.renderAll r frames) = Some shown /\
    Face.eyesRef (Face.eyelidTimeouts (Face.renderAll r frames)) = Some hidden /\
    length (Face.children shown) = length (Face.children e) /\
    length (Face.children hidden) = length (Face.children e) /\
    forall i c, nth_error (Face.children e) i = Some c ->
      exists c1 c2,
        nth_error (Face.children shown) i = Some c1 /\
        nth_error (Face.children hidden) i = Some c2 /\
        Face.userData_type c1 = Face.userData_type c /\
        Face.userData_type c2 = Face.userData_type c /\
        (Face.hasType "eyelid" c = true ->
           Face.visible c1 = true /\ Face.visible c2 = false) /\
        (Face.hasType "eyelid" c = false ->
           Face.visible c1 = Face.visible c /\ c2 = c1).
Proof.
  intros Hg He Hex.
  assert (Hblink : Exists (fun f => Face.blinks (Face.frame_random f) = true) frames).
  { apply Exists_exists. apply Exists_exists in Hex as (f & Hf & Hr).
    exists f. split; [exact Hf|]. unfold Face.blinks.
    destruct (Rlt_dec 0.998 (Face.frame_random f)); [reflexivity | contradiction]. }
  destruct (FaceFacts.renderAll_eyes frames r g e Hg He) as (shown & Hs & Hc).
  exists shown.
  exists {| Face.children := map Face.openEyelid (Face.children shown);
            Face.eyes_scale := Face.eyes_scale shown |}.
  split; [exact Hs|]. split.
  { unfold Face.eyelidTimeouts. cbn [Face.eyesRef]. now rewrite Hs. }
  cbn [Face.children]. rewrite Hc, !length_map.
  split; [reflexivity|]. split; [reflexivity|].
  intros i c Hi.
  exists (fold_left Face.renderChild frames c),
         (Face.openEyelid (fold_left Face.renderChild frames c)).
  rewrite !nth_error_map, Hi. cbn [option_map].
  split; [reflexivity|]. split; [reflexivity|].
  pose proof (renderChild_all_eyelid frames c) as Hty.
  assert (Htype : Face.userData_type (fold_left Face.renderChild frames c)
                  = Face.userData_type c).
  { clear. revert c. induction frames as [|f rest IH]; intros c; cbn [fold_left];
      [reflexivity|].
    rewrite IH. unfold Face.renderChild. apply FaceFacts.eyeChild_type. }
  split; [exact Htype|].
  unfold Face.openEyelid. rewrite Hty.
  split; [destruct (Face.hasType "eyelid" c); exact Htype|].
  split.
  - intros Hlid. rewrite Hlid. split; [|reflexivity].
    now apply renderChild_all_blink.
  - intros Hlid. rewrite Hlid. split; [|reflexivity].
    now apply renderChild_all_other_visible.
Qed.

(** The left eyelid and the left iris over two frames of which the first
    blinks. *)
Lemma a_blink_witness_left_eye :
  let lid := {| Face.userData_type := Some "eyelid"; Face.userData_side := Some "left";
                Face.position_x := (-0.16)%R; Face.visible := false |} in
  let iris := {| Face.userData_type := Some "iris"; Face.userData_side := Some "left";
                 Face.position_x := (-0.16)%R; Face.visible := true |} in
  let e := {| Face.children := [lid; iris];
              Face.eyes_scale := {| Face.x := 1%R; Face.y := 1%R; Face.z := 1%R |} |} in
  let g := {| Scene.scale_y := 1%R; Scene.rotation_x := 0%R; Scene.rotation_y := 0%R;
              Scene.rotation_z := 0%R; Scene.position_y := 0%R |} in
  let r := {| Face.avatarRef := Some g; Face.headRef := None; Face.eyesRef := Some e;
              Face.mouthRef := None; Face.eyebrowsRef := None; Face.teeth := None |} in
  let frames := [ {| Face.frame_time := 0%R; Face.frame_random := 0.999%R;
                     Face.frame_animation := "idle"; Face.frame_lipSyncActive := false |};
                  {| Face.frame_time := 1%R; Face.frame_random := 0.5%R;
                     Face.frame_animation := "idle"; Face.frame_lipSyncActive := false |} ] in
  Face.avatarRef r = Some g /\
  Face.eyesRef r = Some e /\
  Exists (fun f => 0.998 < Face.frame_random f)%R frames /\
  exists shown hidden,
    Face.eyesRef (Face.renderAll r frames) = Some shown /\
    Face.eyesRef (Face.eyelidTimeouts (Face.renderAll r frames)) = Some hidden /\
    length (Face.children shown) = 2 /\ length (Face.children hidden) = 2.
Proof.
  cbv zeta.
  match goal with
  | |- ?A /\ ?B /\ Exists ?P ?l /\ _ =>
      assert (Hg : A) by reflexivity;
      assert (He : B) by reflexivity;
      assert (Hex : Exists P l) by (apply Exists_cons_hd; cbn; lra)
  end.
  split; [exact Hg|]. split; [exact He|]. split; [exact Hex|].
  destruct (a_blink_is_undone_by_its_timeout_only _ _ _ _ Hg He Hex)
    as (shown & hidden & Hs & Hh & Hl1 & Hl2 & _).
  exists shown, hidden. repeat split; assumption.
Defined.
